(** * HDF5 aerospace matrices: synthesis, subsampled loading, reports

    A shallow embedding of the two Python programs of the repository:

    - [create_test_hdf5.py], which writes a banded stiffness matrix and a
      diagonal mass matrix into HDF5 datasets block by block;
    - [visualize_results.py], which loads the datasets with a strided
      subsample, truncates them for the modal analysis, regroups the
      force and displacement vectors per node and prints a report.

    Python integers are [Z]; [//] on integers is [Z.div] (both round
    towards minus infinity) with the zero divisor written out as an
    exception.  NumPy arrays and HDF5 datasets are lists (vectors) and lists
    of rows (matrices).  The float64 values are idealised as real numbers
    [R]; where a function only moves values around, it is written over an
    arbitrary element type.  Exceptions are the [Raise] constructor of
    [result]. *)

From Stdlib Require Import ZArith Reals Lra Lia.
From stdpp Require Import gmap strings list.

#[local] Set Warnings "-clear-no-such-hyp".

(** ** Python runtime pieces used by both programs *)

Module Py.

Inductive exn :=
| ZeroDivisionError
| ValueError
| TypeError
| IndexError
| RuntimeError
| ImportError
| OtherError.

Inductive result (A : Type) :=
| Ok (a : A)
| Raise (e : exn).
Arguments Ok {A} a.
Arguments Raise {A} e.

(** [range(start, stop, step)] for a positive [step]: CPython computes the
    length first and then enumerates [start + k * step]. *)
Definition range_length (start stop step : Z) : nat :=
  Z.to_nat ((stop - start + step - 1) / step).

Definition range (start stop step : Z) : list Z :=
  (λ k : nat, start + Z.of_nat k * step)%Z <$> seq 0 (range_length start stop step).

(** [a[offset::step]] on a sequence, [0 <= offset] and [step >= 1]: the
    elements at the indices [range(offset, len(a), step)]. *)
Definition strided_from {A : Type} (offset step : Z) (a : list A) : list A :=
  omap (λ i : Z, a !! Z.to_nat i) (range offset (Z.of_nat (length a)) step).

(** [a[::step]] *)
Definition strided {A : Type} (step : Z) (a : list A) : list A :=
  strided_from 0 step a.

(** Sequencing of calls that may raise. *)
#[global] Instance result_ret : MRet result := λ A a, Ok a.
#[global] Instance result_bind : MBind result :=
  λ A B k r, match r with Ok a => k a | Raise e => Raise e end.

End Py.

Import Py.

(** ** The subsampling loader of [visualize_results.py] *)

Module Loader.
Section Defs.
Context {T : Type}.

(** An on-disk dataset of rank one or two, and the in-memory array that
    h5py hands back when it is indexed. *)
Inductive dataset :=
| DS1 (v : list T)
| DS2 (m : list (list T)).

Inductive h5obj :=
| H5Group
| H5Dataset (d : dataset).

Inductive ndarray :=
| Arr1 (v : list T)
| Arr2 (m : list (list T)).

(** [dataset.shape[0]] *)
Definition shape0 (d : dataset) : Z :=
  match d with
  | DS1 v => Z.of_nat (length v)
  | DS2 m => Z.of_nat (length m)
  end.

(** [dataset[:]] *)
Definition read_all (d : dataset) : ndarray :=
  match d with
  | DS1 v => Arr1 v
  | DS2 m => Arr2 m
  end.

(** [dataset[::step]]: h5py refuses a step below one with a [ValueError];
    on a rank-two dataset a single slice selects whole rows. *)
Definition read_step (step : Z) (d : dataset) : result ndarray :=
  if (step <? 1)%Z then Raise ValueError
  else match d with
       | DS1 v => Ok (Arr1 (strided step v))
       | DS2 m => Ok (Arr2 (strided step m))
       end.

(** [dataset[::step, ::step]]: two slices on a rank-one dataset are a
    [ValueError] in h5py. *)
Definition read_step2 (step : Z) (d : dataset) : result ndarray :=
  match d with
  | DS1 _ => Raise ValueError
  | DS2 m =>
      if (step <? 1)%Z then Raise ValueError
      else Ok (Arr2 (strided step <$> strided step m))
  end.

(** [load_dataset_with_subsampling(hdf5_file, dataset_path, max_size,
    is_vector)]; the value is Python's [None] or an array.  The file is the
    map from full paths to groups and datasets.  The progress messages it
    prints are left out. *)
Definition load_dataset_with_subsampling
    (hdf5_file : gmap string h5obj) (dataset_path : string)
    (max_size : Z) (is_vector : bool) : result (option ndarray) :=
  match hdf5_file !! dataset_path with
  | None => Ok None
  | Some H5Group => Ok None
  | Some (H5Dataset d) =>
      let n := shape0 d in
      if (max_size <? n)%Z then
        if (max_size =? 0)%Z then Raise ZeroDivisionError
        else
          let step := (n / max_size)%Z in
          match (if is_vector then read_step step d else read_step2 step d) with
          | Ok a => Ok (Some a)
          | Raise e => Raise e
          end
      else Ok (Some (read_all d))
  end.

(** [ceil(n / d)] on integers, as the spec writes the size of a strided
    slice. *)
Definition ceil_div (n d : Z) : Z := ((n + d - 1) / d)%Z.

End Defs.
Arguments dataset : clear implicits.
Arguments h5obj : clear implicits.
Arguments ndarray : clear implicits.
End Loader.

(** ** NumPy pieces on real-valued arrays *)

Module Np.

#[global] Instance R_eq_dec : EqDecision R := Req_dec_T.

(** A float64 result: a real number or NaN. *)
Definition float := option R.
Definition nan : float := None.

Definition is_negative (x : R) : bool :=
  if Rlt_dec x 0 then true else false.

(** [np.sqrt] on one float: NaN below zero (NumPy then also emits its
    "invalid value encountered in sqrt" RuntimeWarning). *)
Definition sqrt (x : R) : float :=
  if is_negative x then nan else Some (R_sqrt.sqrt x).

(** A complex number as NumPy stores it, and [np.real]. *)
Definition complex : Type := R * R.
Definition real (z : complex) : R := fst z.

(** The shape of a two-dimensional array held as a list of rows. *)
Definition shape {T : Type} (a : list (list T)) : nat * nat :=
  (length a, from_option length 0%nat (head a)).

(** [a] has [n] rows of [n] entries each. *)
Definition square {T : Type} (n : nat) (a : list (list T)) : Prop :=
  length a = n ∧ Forall (λ row, length row = n) a.

(** [a] has [h] rows of [w] entries each. *)
Definition dims {T : Type} (h w : nat) (a : list (list T)) : Prop :=
  length a = h ∧ Forall (λ row, length row = w) a.

(** [np.max(a)] and [np.min(a)]: a [ValueError] on the empty array. *)
Definition max (a : list R) : result R :=
  match a with
  | [] => Raise ValueError
  | x :: a' => Ok (foldl Rmax x a')
  end.

Definition min (a : list R) : result R :=
  match a with
  | [] => Raise ValueError
  | x :: a' => Ok (foldl Rmin x a')
  end.

(** [np.abs(a)], [np.sum(a)], [np.mean(a)] on a vector *)
Definition abs (a : list R) : list R := Rabs <$> a.
Definition sum (a : list R) : R := foldr Rplus 0%R a.
Definition mean (a : list R) : R := (sum a / INR (length a))%R.

(** [np.diag(a)] of a two-dimensional array: the entries [a[i][i]]. *)
Definition diag (a : list (list R)) : list R :=
  omap (λ entry : option R, entry) (imap (λ i (row : list R), row !! i) a).

(** [np.count_nonzero(a)] and [a.size] *)
Definition count_nonzero (a : list (list R)) : nat :=
  sum_list ((λ row, length (filter (λ x, x ≠ 0%R) row)) <$> a).
Definition size (a : list (list R)) : nat := ((shape a).1 * (shape a).2)%nat.

(** [np.dot] of two vectors, and of a matrix with a vector: a
    [ValueError] when the shapes are not aligned. *)
Definition dot_vv (a b : list R) : result R :=
  if decide (length a = length b) then Ok (sum (zip_with Rmult a b))
  else Raise ValueError.

Definition dot_mv (a : list (list R)) (b : list R) : result (list R) :=
  if decide (Forall (λ row, length row = length b) a)
  then Ok ((λ row, sum (zip_with Rmult row b)) <$> a)
  else Raise ValueError.

End Np.

(** ** The modal analysis of [visualize_results.py] *)

Module Modal.

(** [a[idx, idx]] with [idx = slice(0, k)] *)
Definition leading {T : Type} (k : nat) (a : list (list T)) : list (list T) :=
  take k <$> take k a.

(** The first lines of [plot_eigenvalue_analysis]: the matrices handed to
    the eigen-solver. *)
Definition restrict {T : Type} (stiffness mass : list (list T))
    : list (list T) * list (list T) :=
  let n := length stiffness in
  if (1000 <? n)%nat then (leading 500 stiffness, leading 500 mass)
  else (stiffness, mass).

(** [np.sqrt(np.real(eigenvals)) / (2 * np.pi)] *)
Definition natural_frequencies (eigenvals : list Np.complex) : list Np.float :=
  (λ ev, (λ r, r / (2 * PI))%R <$> Np.sqrt (Np.real ev)) <$> eigenvals.



Section Solve.
(** [scipy.sparse.linalg.eigsh(K, k=6, M=M, which='SM')] on the sparse
    forms of [K] and [M], a library outside the repository: the
    eigenvalues and the matrix of eigenvectors (one column per
    eigenvalue), or an exception. *)
Variable eigsh : list (list R) → list (list R) →
                 result (list Np.complex * list (list R)).

End Solve.

End Modal.

(** ** The response regrouping of [visualize_results.py] *)

Module Response.

(** [a[offset::6][:count]] *)
Definition component (offset : Z) (count : nat) (a : list R) : list R :=
  take count (strided_from offset 6 a).

(** [np.zeros_like(a)] *)
Definition zeros_like (a : list R) : list R := replicate (length a) 0%R.

(** An elementwise binary operation on two one-dimensional arrays, with
    NumPy's broadcasting: a length-one operand is stretched, any other
    length mismatch is a [ValueError]. *)
Definition broadcast2 (f : R → R → R) (a b : list R) : result (list R) :=
  match a, b with
  | [x], _ => Ok (f x <$> b)
  | _, [y] => Ok ((λ x, f x y) <$> a)
  | _, _ => if decide (length a = length b) then Ok (zip_with f a b)
            else Raise ValueError
  end.

(** [a ** 2] *)
Definition squares (a : list R) : list R := (λ x, x ^ 2)%R <$> a.

(** [np.sqrt(disp_x**2 + disp_y**2 + disp_z**2)]; the argument of the
    square root is a sum of squares, so it is the real square root. *)
Definition magnitude (disp_x disp_y disp_z : list R) : result (list R) :=
  s ← broadcast2 Rplus (squares disp_x) (squares disp_y);
  s ← broadcast2 Rplus s (squares disp_z);
  mret (sqrt <$> (s : list R)).

(** [ax.plot(node_positions, y)]: matplotlib refuses two sequences of
    different lengths with a [ValueError]. *)
Definition plot (n_nodes : nat) (y : list R) : result unit :=
  if decide (n_nodes = length y) then Ok () else Raise ValueError.

Definition node_count (force : list R) : nat := (length force / 6)%nat.

Definition disp_x (force displacement : list R) : list R :=
  component 0 (node_count force) displacement.

Definition disp_y (force displacement : list R) : list R :=
  if decide (1 < length displacement)%nat
  then component 1 (node_count force) displacement
  else zeros_like (disp_x force displacement).

Definition disp_z (force displacement : list R) : list R :=
  if decide (2 < length displacement)%nat
  then component 2 (node_count force) displacement
  else zeros_like (disp_x force displacement).

Definition force_x (force : list R) : list R :=
  component 0 (node_count force) force.

Definition force_y (force : list R) : list R :=
  if decide (1 < length force)%nat
  then component 1 (node_count force) force
  else zeros_like (force_x force).

Record response := {
  n_nodes : nat;
  disp_magnitude : list R;
  max_magnitude : R;
}.

(** [plot_response_analysis(force, displacement)], with the drawing calls
    reduced to the checks that can stop it. *)
Definition plot_response_analysis (force displacement : list R)
    : result response :=
  let n := node_count force in
  plot n (disp_x force displacement);;
  (if decide (1 < length displacement)%nat
   then plot n (disp_y force displacement) else mret ());;
  (if decide (2 < length displacement)%nat
   then plot n (disp_z force displacement) else mret ());;
  mags ← magnitude (disp_x force displacement) (disp_y force displacement)
                   (disp_z force displacement);
  plot n mags;;
  plot n (force_x force);;
  (if decide (1 < length force)%nat then plot n (force_y force) else mret ());;
  top ← Np.max mags;
  mret {| n_nodes := n; disp_magnitude := mags; max_magnitude := top |}.

End Response.

(** ** The technical report of [visualize_results.py] *)

Module Report.

(** The dictionary that [load_hdf5_data] fills: each of its four keys is
    present or not. *)
Record data := {
  stiffness : option (list (list R));
  mass : option (list (list R));
  force : option (list R);
  displacement : option (list R);
}.

(** The lines of the report, with the numbers they show. *)
Inductive line :=
| Title
| StiffnessHeader
| MassHeader
| Dimensions (shape : nat * nat)
| DiagonalRange (lo hi : R)
| ConditionNumber (c : R)
| Sparsity (percent : R)
| TotalMass (kg : R)
| MassPerDof (kg : R)
| ResponseHeader
| TotalForce (newton : R)
| MaxDisplacement (mm : R)
| RmsDisplacement (mm : R)
| StrainEnergy (joule : R)
| ExceedsLimit (mm : R)
| WithinLimits.

(** The lines other than those that carry the maximum, the energy or the
    verdict. *)
Definition quiet (l : line) : Prop :=
  match l with
  | MaxDisplacement _ | StrainEnergy _ | ExceedsLimit _ | WithinLimits => False
  | _ => True
  end.

(** The displacement limit of the final check, in millimetres. *)
Definition limit_mm : R := 10%R.

Definition stiffness_section (K : list (list R)) : result (list line) :=
  lo ← Np.min (Np.diag K);
  hi ← Np.max (Np.diag K);
  (if decide (Np.size K = 0%nat) then Raise ZeroDivisionError else mret ());;
  mret [StiffnessHeader; Dimensions (Np.shape K); DiagonalRange lo hi;
        ConditionNumber (hi / lo)%R;
        Sparsity (100 * (1 - INR (Np.count_nonzero K) / INR (Np.size K)))%R].

Definition mass_section (M : list (list R)) : list line :=
  [MassHeader; Dimensions (Np.shape M); TotalMass (Np.sum (Np.diag M));
   MassPerDof (Np.mean (Np.diag M))].

(** [0.5 * np.dot(U, np.dot(K, U))] *)
Definition strain_energy (K : list (list R)) (U : list R) : result R :=
  KU ← Np.dot_mv K U;
  UKU ← Np.dot_vv U KU;
  mret (0.5 * UKU)%R.

Definition response_section (K : option (list (list R))) (F U : list R)
    : result (list line) :=
  top ← Np.max (Np.abs U);
  energy ← match K with
           | Some K => e ← strain_energy K U; mret [StrainEnergy e]
           | None => mret []
           end;
  top' ← Np.max (Np.abs U);
  let max_disp_mm := (top' * 1000)%R in
  mret ([TotalForce (Np.sum (Np.abs F));
         MaxDisplacement (top * 1000)%R;
         RmsDisplacement (sqrt (Np.mean ((λ x, x ^ 2)%R <$> U)) * 1000)%R]
          ++ energy
          ++ [if Rgt_dec max_disp_mm limit_mm then ExceedsLimit max_disp_mm
              else WithinLimits]).

(** [generate_report(data)]: the lines printed, or the exception that
    stops it (the lines already printed are then not kept).  The mass
    block and the response header are printed twice, as in the source. *)
Definition generate_report (d : data) : result (list line) :=
  s1 ← match stiffness d with
       | Some K => stiffness_section K
       | None => mret []
       end;
  let s2 := match mass d with Some M => mass_section M | None => [] end in
  let s3 := match force d, displacement d with
            | Some _, Some _ => [ResponseHeader]
            | _, _ => []
            end in
  s4 ← match force d, displacement d with
       | Some F, Some U =>
           lines ← response_section (stiffness d) F U;
           mret (ResponseHeader :: lines)
       | _, _ => mret []
       end;
  mret ([Title] ++ s1 ++ s2 ++ s3 ++ s2 ++ s4).

End Report.

(** ** The block-wise generator of [create_test_hdf5.py] *)

Module Generator.

Definition block_size : Z := 1000.

(** [7e10 * (1.0 + 0.1 * np.sin(k / 1000.0))] *)
Definition diag_value (k : Z) : R :=
  (7e10 * (1.0 + 0.1 * sin (IZR k / 1000.0)))%R.

(** [-7e10 * np.exp(-dist/10.0) * 0.3] *)
Definition band_value (dist : Z) : R :=
  (-7e10 * exp (- IZR dist / 10.0) * 0.3)%R.

(** kg per degree of freedom *)
Definition mass_value : R := 0.054%R.

(** An array of [h] rows of [w] zeros. *)
Definition zeros (h w : Z) : list (list R) :=
  replicate (Z.to_nat h) (replicate (Z.to_nat w) 0%R).

(** The two-dimensional arrays that the function allocates are followed by
    their shape: [Alloc] when [np.zeros] returns one, [Release] when the
    last reference to one goes.  The one-dimensional arrays (the diagonal
    values, the force and displacement vectors) are not blocks and are
    not followed. *)
Inductive event :=
| Alloc (shape : Z * Z)
| Release (shape : Z * Z).

(** The memory as the loops see it: the shape of the array that the
    local variable [block] refers to, if any, and the events so far. *)
Record memory := {
  held : option (Z * Z);
  events : list event;
}.

Definition no_blocks : memory := {| held := None; events := [] |}.

(** [np.zeros((h, w))]: a new array comes to life; [block] still refers
    to the array of the previous iteration while the call runs. *)
Definition np_zeros (h w : Z) (m : memory) : list (list R) * memory :=
  (zeros h w, {| held := held m; events := events m ++ [Alloc (h, w)] |}).

(** [block = ...] for the array of shape [shape] just allocated: the
    array that [block] referred to loses its only reference and is
    released. *)
Definition assign_block (shape : Z * Z) (m : memory) : memory :=
  {| held := Some shape;
     events := events m ++ match held m with
                           | Some old => [Release old]
                           | None => []
                           end |}.

(** The [np.zeros] calls of a trace, and the blocks alive after it. *)
Definition allocations (trace : list event) : list (Z * Z) :=
  omap (λ e, match e with Alloc shape => Some shape | Release _ => None end) trace.

Definition releases (trace : list event) : list (Z * Z) :=
  omap (λ e, match e with Release shape => Some shape | Alloc _ => None end) trace.

Fixpoint remove_first (shape : Z * Z) (l : list (Z * Z)) : list (Z * Z) :=
  match l with
  | [] => []
  | x :: l' => if decide (x = shape) then l' else x :: remove_first shape l'
  end.

Definition live_step (l : list (Z * Z)) (e : event) : list (Z * Z) :=
  match e with
  | Alloc shape => l ++ [shape]
  | Release shape => remove_first shape l
  end.

Definition live_blocks (trace : list event) : list (Z * Z) :=
  foldl live_step [] trace.

(** [a[r, c]] read, and [a[r, c] = v]; the loops below only write inside
    the array, where NumPy would not raise. *)
Definition get2 (a : list (list R)) (r c : nat) : option R :=
  a !! r ≫= (.!! c).

Definition set2 (a : list (list R)) (r c : Z) (v : R) : list (list R) :=
  alter (<[Z.to_nat c := v]>) (Z.to_nat r) a.

(** [np.fill_diagonal(a, vals)] with one value per diagonal entry *)
Definition fill_diagonal (a : list (list R)) (vals : list R) : list (list R) :=
  imap (λ k row, match vals !! k with
                 | Some v => <[k := v]> row
                 | None => row
                 end) a.

(** [np.fill_diagonal(a[:, c0:c1], v)]: the diagonal of the column window
    [c0:c1], written through the view into [a]. *)
Definition fill_diagonal_cols (a : list (list R)) (c0 c1 : Z) (v : R)
    : list (list R) :=
  imap (λ k row, if decide (Z.to_nat c0 + k < Z.to_nat c1)%nat
                 then <[(Z.to_nat c0 + k)%nat := v]> row else row) a.

(** [dataset[r0:r0+h, c0:c0+w] = block] for a block of [h] rows of [w]
    entries that fits in the dataset *)
Definition write_region (dataset : list (list R)) (r0 c0 : Z)
    (block : list (list R)) : list (list R) :=
  imap (λ r row,
          if decide (Z.to_nat r0 <= r)%nat then
            match block !! (r - Z.to_nat r0)%nat with
            | Some brow => list_inserts (Z.to_nat c0) brow row
            | None => row
            end
          else row) dataset.

(** The two nested [for bi] / [for bj] loops of a near-diagonal block *)
Definition band_fill (i j : Z) (block : list (list R)) : list (list R) :=
  foldl (λ b bi,
           foldl (λ b bj,
                    if (Z.abs ((i + bi) - (j + bj)) <=? 50)%Z then
                      let dist := Z.abs ((i + bi) - (j + bj)) in
                      set2 b bi bj (band_value dist)
                    else b)
                 b (range 0 (Z.of_nat (Np.shape block).2) 1))
        block (range 0 (Z.of_nat (Np.shape block).1) 1).

(** The [if abs(i - j) < block_size * 2] part of the stiffness loops,
    which fills the block just allocated. *)
Definition fill_block (size i j : Z) (block : list (list R)) : list (list R) :=
  let end_i := Z.min (i + block_size) size in
  if (Z.abs (i - j) <? block_size * 2)%Z then
    if (i =? j)%Z then
      fill_diagonal block (diag_value <$> range i end_i 1)
    else if (Z.abs (i - j) <=? block_size)%Z then
      band_fill i j block
    else block
  else block.

(** The state threaded through the loops: the dataset on disk and the
    memory. *)
Definition state : Type := list (list R) * memory.

(** The body of the stiffness loops: [block = np.zeros(...)], the fill,
    and [stiff_dataset[i:end_i, j:end_j] = block]. *)
Definition stiffness_body (size : Z) (st : state) (i j : Z) : state :=
  let end_i := Z.min (i + block_size) size in
  let end_j := Z.min (j + block_size) size in
  let '(new, m) := np_zeros (end_i - i) (end_j - j) st.2 in
  let m := assign_block ((end_i - i)%Z, (end_j - j)%Z) m in
  let block := fill_block size i j new in
  (write_region st.1 i j block, m).

Definition fill_stiffness (size : Z) (st : state) : state :=
  foldl (λ st i,
           foldl (λ st j, stiffness_body size st i j)
                 st (range 0 size block_size))
        st (range 0 size block_size).

(** The body of the mass loop: [block = np.zeros((end_i - i, size))],
    the diagonal of the column window, and [mass_dataset[i:end_i, :] =
    block]. *)
Definition mass_body (size : Z) (st : state) (i : Z) : state :=
  let end_i := Z.min (i + block_size) size in
  let '(new, m) := np_zeros (end_i - i) size st.2 in
  let m := assign_block ((end_i - i)%Z, size) m in
  let block := fill_diagonal_cols new i end_i mass_value in
  (write_region st.1 i 0 block, m).

Definition fill_mass (size : Z) (st : state) : state :=
  foldl (mass_body size) st (range 0 size block_size).

(** [create_dataset(..., shape=(size, size), chunks=(c, c))] with
    [c = min(1000, size // 10)]: h5py refuses a chunk edge that is not
    positive with a [ValueError]; otherwise HDF5 fills the new dataset
    with zeros.  Compression is the store's business. *)
Definition create_dataset (size : Z) : result (list (list R)) :=
  let chunk := Z.min 1000 (size / 10) in
  if (chunk <=? 0)%Z then Raise ValueError else Ok (zeros size size).

(** The matrices that [create_test_hdf5(filename, size)] leaves in the
    file, and the events of its blocks. *)
Record generated := {
  stiffness : list (list R);
  mass : list (list R);
  trace : list event;
}.

(** [create_test_hdf5(filename, size)]: the stiffness dataset is created
    and filled, then the mass dataset; the variable [block] is the same
    in both loops. *)
Definition create_test_hdf5 (size : Z) : result generated :=
  stiff_dataset ← create_dataset size;
  let K := fill_stiffness size (stiff_dataset, no_blocks) in
  mass_dataset ← create_dataset size;
  let M := fill_mass size (mass_dataset, K.2) in
  mret {| stiffness := K.1; mass := M.1; trace := events M.2 |}.

(** The blocks as the two loop bodies write them, and what one
    iteration does to the memory. *)
Definition stiffness_block (size i j : Z) : list (list R) :=
  let end_i := Z.min (i + block_size) size in
  let end_j := Z.min (j + block_size) size in
  fill_block size i j (zeros (end_i - i) (end_j - j)).

Definition mass_block (size i : Z) : list (list R) :=
  let end_i := Z.min (i + block_size) size in
  fill_diagonal_cols (zeros (end_i - i) size) i end_i mass_value.

Definition alloc_step (m : memory) (shape : Z * Z) : memory :=
  assign_block shape (np_zeros shape.1 shape.2 m).2.

(** The shapes that the loops pass to [np.zeros], in order. *)
Definition stiffness_shapes (size : Z) : list (Z * Z) :=
  range 0 size block_size ≫= λ i,
    (λ j, (Z.min (i + block_size) size - i,
           Z.min (j + block_size) size - j)%Z) <$> range 0 size block_size.

Definition mass_shapes (size : Z) : list (Z * Z) :=
  (λ i, (Z.min (i + block_size) size - i, size)%Z) <$> range 0 size block_size.

(** The events of a run of allocations, each bound to [block] in turn. *)
Fixpoint alloc_events (bound : option (Z * Z)) (shapes : list (Z * Z))
    : list event :=
  match shapes with
  | [] => []
  | shape :: rest =>
      Alloc shape :: match bound with
                     | Some old => [Release old]
                     | None => []
                     end ++ alloc_events (Some shape) rest
  end.

(** A block of at most [block_size] rows and columns. *)
Definition small_block (shape : Z * Z) : Prop :=
  (1 <= shape.1 <= block_size ∧ 1 <= shape.2 <= block_size)%Z.

(** A strip of at most [block_size] rows over the whole width. *)
Definition row_strip (size : Z) (shape : Z * Z) : Prop :=
  (1 <= shape.1 <= block_size ∧ shape.2 = size)%Z.

(** The values that the loop variables [i] and [j] take:
    [range(0, size, block_size)]. *)
Definition block_start (size i : Z) : Prop :=
  ∃ a : Z, (i = block_size * a ∧ 0 <= i < size)%Z.

(** The entry that the stiffness loops leave at [(r, c)], read off the
    three cases of the block body. *)
Definition stiffness_entry (r c : Z) : R :=
  let i := (r / block_size * block_size)%Z in
  let j := (c / block_size * block_size)%Z in
  if (i =? j)%Z then (if (r =? c)%Z then diag_value r else 0%R)
  else if (Z.abs (i - j) <=? block_size)%Z then
    (if (Z.abs (r - c) <=? 50)%Z then band_value (Z.abs (r - c)) else 0%R)
  else 0%R.

(** [create_small_test_hdf5]: [K = rand * 1e10], [K = (K + K.T) / 2],
    [np.fill_diagonal(K, np.diag(K) + 7e10)], for the matrix [rand] drawn
    by [np.random.rand(size, size)]. *)
Definition scaled (rand : list (list R)) : list (list R) :=
  (λ row : list R, (λ x, x * 1e10)%R <$> row) <$> rand.

Definition symmetrized (K : list (list R)) : list (list R) :=
  imap (λ r row, imap (λ c x, ((x + default 0 (get2 K c r)) / 2)%R) row) K.

(** [np.random.rand] draws every entry from the interval [0, 1). *)
Definition unit_draw (rand : list (list R)) : Prop :=
  Forall (Forall (λ x, 0 <= x < 1)%R) rand.

Definition small_stiffness (rand : list (list R)) : list (list R) :=
  let K := symmetrized (scaled rand) in
  fill_diagonal K ((λ x, x + 7e10)%R <$> Np.diag K).

End Generator.

(** ** The rest of the analysis pipeline of [visualize_results.py] *)

Module Analysis.

Section Loading.
Context {T : Type}.

(** [if x is not None: data[key] = x] *)
Definition store (key : string) (loaded : option (Loader.ndarray T))
    (data : gmap string (Loader.ndarray T)) : gmap string (Loader.ndarray T) :=
  match loaded with
  | Some a => <[key := a]> data
  | None => data
  end.

(** The body of the [with h5py.File(...)] block of [load_hdf5_data]: the
    four datasets are loaded in turn, the matrices with [is_vector=False]
    and the vectors with [is_vector=True]. *)
Definition load_all (f : gmap string (Loader.h5obj T)) (max_size : Z)
    : result (gmap string (Loader.ndarray T)) :=
  stiffness ← Loader.load_dataset_with_subsampling f "/matrices/stiffness" max_size false;
  let data := store "stiffness" stiffness ∅ in
  mass ← Loader.load_dataset_with_subsampling f "/matrices/mass" max_size false;
  let data := store "mass" mass data in
  force ← Loader.load_dataset_with_subsampling f "/vectors/force" max_size true;
  let data := store "force" force data in
  displacement ← Loader.load_dataset_with_subsampling f "/results/displacement" max_size true;
  mret (store "displacement" displacement data).

(** Of the exceptions of [exn], the clause
    [except (OSError, KeyError, ValueError)] names [ValueError]; the calls
    modelled here raise neither [OSError] nor [KeyError]. *)
Definition caught_on_load (e : exn) : bool :=
  match e with
  | ValueError => true
  | _ => false
  end.

(** [load_hdf5_data(filename, max_size)] on a disk that maps the names of
    the existing HDF5 files to their contents: Python's [None], the
    dictionary of loaded arrays, or the exception that leaves the
    function. *)
Definition load_hdf5_data (disk : gmap string (gmap string (Loader.h5obj T)))
    (filename : string) (max_size : Z)
    : result (option (gmap string (Loader.ndarray T))) :=
  match disk !! filename with
  | None => Ok None
  | Some f =>
      match load_all f max_size with
      | Ok data => Ok (Some data)
      | Raise e => if caught_on_load e then Ok None else Raise e
      end
  end.

(** A file laid out as [create_test_hdf5] writes it for [n] degrees of
    freedom: two [n] x [n] matrices and two vectors of length [n]. *)
Definition follows_layout (n : nat) (f : gmap string (Loader.h5obj T)) : Prop :=
  (∃ K, f !! "/matrices/stiffness" = Some (Loader.H5Dataset (Loader.DS2 K))
        ∧ Np.square n K) ∧
  (∃ M, f !! "/matrices/mass" = Some (Loader.H5Dataset (Loader.DS2 M))
        ∧ Np.square n M) ∧
  (∃ F, f !! "/vectors/force" = Some (Loader.H5Dataset (Loader.DS1 F))
        ∧ length F = n) ∧
  (∃ U, f !! "/results/displacement" = Some (Loader.H5Dataset (Loader.DS1 U))
        ∧ length U = n).

(** The first lines of [plot_matrix_structure]: the matrix that is drawn,
    [matrix[::step, ::step]] with [step = max(1, n // 200)] above 300
    rows. *)
Definition matrix_plot (matrix : list (list T)) : list (list T) :=
  let n := Z.of_nat (length matrix) in
  if (300 <? n)%Z then
    let step := Z.max 1 (n / 200) in
    strided step <$> strided step matrix
  else matrix.

End Loading.

(** [args.quick] in [main]: [max_size = min(1000, args.max_size)]. *)
Definition effective_max_size (quick : bool) (max_size : Z) : Z :=
  if quick then Z.min 1000 max_size else max_size.

(** The dictionary as [generate_report] reads it: matrices under
    ['stiffness'] and ['mass'], vectors under ['force'] and
    ['displacement'].  An array of another rank under one of the keys has
    no such reading. *)
Definition matrix_entry (data : gmap string (Loader.ndarray R)) (key : string)
    : option (option (list (list R))) :=
  match data !! key with
  | None => Some None
  | Some (Loader.Arr2 m) => Some (Some m)
  | Some (Loader.Arr1 _) => None
  end.

Definition vector_entry (data : gmap string (Loader.ndarray R)) (key : string)
    : option (option (list R)) :=
  match data !! key with
  | None => Some None
  | Some (Loader.Arr1 v) => Some (Some v)
  | Some (Loader.Arr2 _) => None
  end.

Definition report_data (data : gmap string (Loader.ndarray R))
    : option Report.data :=
  K ← matrix_entry data "stiffness";
  M ← matrix_entry data "mass";
  F ← vector_entry data "force";
  U ← vector_entry data "displacement";
  Some {| Report.stiffness := K; Report.mass := M;
          Report.force := F; Report.displacement := U |}.

(** [a > b] on floats, as a boolean. *)
Definition above (a b : R) : bool :=
  if Rgt_dec a b then true else false.

(** [np.where(np.abs(row) > np.max(np.abs(row)) * 1e-10)[0]]: the column
    indices, in increasing order. *)
Definition nonzeros (row : list R) : result (list nat) :=
  top ← Np.max (Np.abs row);
  mret (filter (λ j, above (Rabs (default 0%R (row !! j))) (top * 1e-10) = true)
               (seq 0 (length row))).

(** [np.max(nonzeros) - np.min(nonzeros) + 1] for a non-empty index
    array. *)
Definition band_of (first : nat) (others : list nat) : Z :=
  (Z.of_nat (foldl Nat.max first others)
   - Z.of_nat (foldl Nat.min first others) + 1)%Z.

(** One round of the loop of [estimate_bandwidth]. *)
Definition bandwidth_step (matrix : list (list R)) (max_band : Z) (i : Z)
    : result Z :=
  match matrix !! Z.to_nat i with
  | None => Raise OtherError
  | Some row =>
      cols ← nonzeros row;
      match cols with
      | [] => mret max_band
      | first :: others => mret (Z.max max_band (band_of first others))
      end
  end.

(** [estimate_bandwidth(matrix)]: only the first [min(100, n)] rows are
    looked at. *)
Definition estimate_bandwidth (matrix : list (list R)) : result Z :=
  let n := Z.of_nat (length matrix) in
  max_band ← foldl (λ acc i, max_band ← acc; bandwidth_step matrix max_band i)
                   (Ok 0%Z) (range 0 (Z.min 100 n) 1);
  mret (Z.min max_band n).

End Analysis.

(** ** Reference formulas of the spec *)

Module Spec.

(** [u^T K u] as the double sum over the entries of [K]. *)
Definition quadratic_form (K : list (list R)) (u : list R) : R :=
  Np.sum (zip_with (λ ui row, Np.sum (zip_with (λ kij uj, ui * kij * uj)%R row u))
                   u K).

(** [m] is the largest of the absolute values of [u]. *)
Definition is_max_abs (u : list R) (m : R) : Prop :=
  m ∈ Np.abs u ∧ ∀ x, x ∈ u → (Rabs x <= m)%R.

End Spec.

(** ** Sample inputs *)

(** A file with a vector of seven entries and a 3 x 3 matrix. *)
Definition sample_file : gmap string (Loader.h5obj Z) :=
  {[ "/vectors/force"%string := Loader.H5Dataset (Loader.DS1 [10; 11; 12; 13; 14; 15; 16]%Z);
     "/matrices/mass"%string :=
       Loader.H5Dataset (Loader.DS2 [[1; 0; 0]; [0; 1; 0]; [0; 0; 1]]%Z) ]}.

(** Square matrices just above the two thresholds of the modal analysis. *)
Definition zeros_501 : list (list Z) := replicate 501 (replicate 501 0%Z).

Definition ones_1001 : list (list Z) := replicate 1001 (replicate 1001 1%Z).


(** Two nodes with six degrees of freedom each, rotations at zero. *)
Definition force_12 : list R := replicate 12 0%R.
Definition displacement_12 : list R :=
  [3; 4; 0; 0; 0; 0; 1; 2; 2; 0; 0; 0]%R.

(** Loaded data whose stiffness matrix matches the displacement vector, and
    data whose stiffness matrix does not. *)
Definition data_matching : Report.data :=
  {| Report.stiffness := Some [[2; 0]; [0; 2]]%R;
     Report.mass := None;
     Report.force := Some [1; -1]%R;
     Report.displacement := Some [0.02; -0.005]%R |}.

Definition data_mismatch : Report.data :=
  {| Report.stiffness := Some [[1]]%R;
     Report.mass := None;
     Report.force := Some [0; 0]%R;
     Report.displacement := Some [1; 2]%R |}.

(** A disk with one file that follows the layout for two degrees of
    freedom. *)
Definition sample_model : gmap string (Loader.h5obj R) :=
  {[ "/matrices/stiffness"%string := Loader.H5Dataset (Loader.DS2 [[2; 0]; [0; 2]]%R);
     "/matrices/mass"%string := Loader.H5Dataset (Loader.DS2 [[1; 0]; [0; 1]]%R);
     "/vectors/force"%string := Loader.H5Dataset (Loader.DS1 [1; -1]%R);
     "/results/displacement"%string := Loader.H5Dataset (Loader.DS1 [0.02; -0.005]%R) ]}.

Definition sample_disk : gmap string (gmap string (Loader.h5obj R)) :=
  {[ "model.h5"%string := sample_model ]}.

(** Two matrices of 101 rows that differ in the last row only. *)
Definition rows_101_a : list (list R) := replicate 100 [1%R] ++ [[2%R]].
Definition rows_101_b : list (list R) := replicate 100 [1%R] ++ [[3%R]].


(** ** Generic list facts *)

Section ListFacts.
Context {A B : Type}.

Lemma omap_seq_length_from (f : nat → option B) (n s : nat) :
  (∀ j, (s <= j < s + n)%nat → is_Some (f j)) →
  length (omap f (seq s n)) = n.
Proof.
  revert s. induction n as [|n IH]; intros s Hf; [done|].
  simpl. destruct (Hf s ltac:(lia)) as [y ->]. simpl.
  f_equal. apply IH. intros j Hj. apply Hf. lia.
Qed.

Lemma omap_seq_length (f : nat → option B) (n : nat) :
  (∀ j, (j < n)%nat → is_Some (f j)) →
  length (omap f (seq 0 n)) = n.
Proof. intros Hf. apply omap_seq_length_from. intros j Hj. apply Hf. lia. Qed.

Lemma omap_seq_lookup (f : nat → option B) (n k : nat) :
  (∀ j, (j < n)%nat → is_Some (f j)) →
  omap f (seq 0 n) !! k = if decide (k < n)%nat then f k else None.
Proof.
  induction n as [|n IH]; intros Hf.
  - rewrite decide_False by lia. done.
  - rewrite seq_S, omap_app.
    pose proof (omap_seq_length f n ltac:(intros; apply Hf; lia)) as Hlen.
    destruct (decide (k < n)%nat) as [Hk|Hk].
    + rewrite lookup_app_l by lia.
      rewrite IH by (intros; apply Hf; lia).
      rewrite !decide_True by lia. done.
    + rewrite lookup_app_r by lia. rewrite Hlen.
      destruct (Hf n ltac:(lia)) as [y Hy].
      cbn [omap list_omap Nat.add]. rewrite Hy.
      destruct (decide (k = n)) as [->|Hne].
      * rewrite Nat.sub_diag, decide_True by lia. by rewrite Hy.
      * rewrite decide_False by lia.
        destruct (k - n)%nat as [|d] eqn:E; [lia|]. done.
Qed.

End ListFacts.

Lemma omap_fmap_compose {A B C : Type} (g : A → B) (f : B → option C) (l : list A) :
  omap f (g <$> l) = omap (λ x, f (g x)) l.
Proof.
  induction l as [|x l IH]; [done|].
  cbn. by rewrite IH.
Qed.

(** ** Facts about [range] and strided slices *)

Lemma range_length_spec (start stop step : Z) (k : nat) :
  (1 <= step)%Z →
  (k < range_length start stop step)%nat ↔ (start + Z.of_nat k * step < stop)%Z.
Proof.
  intros Hs. unfold range_length.
  pose proof (Z.mod_pos_bound (stop - start + step - 1) step ltac:(lia)) as Hm.
  pose proof (Z.div_mod (stop - start + step - 1) step ltac:(lia)) as Hd.
  set (q := ((stop - start + step - 1) / step)%Z) in *.
  split; intros H.
  - assert (Z.of_nat k + 1 <= q)%Z as H1 by lia. nia.
  - assert (Z.of_nat k < q)%Z; [|lia].
    apply Z.nle_gt. intros Hle. nia.
Qed.

Lemma range_lookup (start stop step : Z) (k : nat) :
  (1 <= step)%Z →
  range start stop step !! k =
    if decide (start + Z.of_nat k * step < stop)%Z
    then Some (start + Z.of_nat k * step)%Z else None.
Proof.
  intros Hs. unfold range. rewrite list_lookup_fmap.
  pose proof (range_length_spec start stop step k Hs) as Hr.
  case_decide as Hk.
  - apply Hr in Hk. rewrite lookup_seq_lt by done. done.
  - rewrite lookup_seq_ge; [done|]. lia.
Qed.

Lemma elem_of_range (start stop step x : Z) :
  (1 <= step)%Z →
  x ∈ range start stop step ↔
  ∃ k : nat, x = (start + Z.of_nat k * step)%Z ∧ (x < stop)%Z.
Proof.
  intros Hs. rewrite list_elem_of_lookup. split.
  - intros [k Hk]. rewrite range_lookup in Hk by done.
    case_decide; simplify_eq. eauto.
  - intros (k & -> & Hlt). exists k. rewrite range_lookup by done.
    by rewrite decide_True.
Qed.

Lemma strided_from_lookup {A : Type} (offset step : Z) (a : list A) (k : nat) :
  (0 <= offset)%Z → (1 <= step)%Z →
  strided_from offset step a !! k = a !! (Z.to_nat offset + k * Z.to_nat step)%nat.
Proof.
  intros Ho Hs. unfold strided_from, range.
  rewrite omap_fmap_compose.
  pose proof (range_length_spec offset (Z.of_nat (length a)) step) as Hr.
  rewrite omap_seq_lookup.
  - case_decide as Hk.
    + f_equal. nia.
    + symmetry. apply lookup_ge_None.
      assert (¬ (offset + Z.of_nat k * step < Z.of_nat (length a))%Z)
        by (rewrite <- Hr; done).
      nia.
  - intros j Hj. apply lookup_lt_is_Some.
    apply Hr in Hj; [|done]. nia.
Qed.

Lemma strided_from_length {A : Type} (offset step : Z) (a : list A) :
  (0 <= offset)%Z → (1 <= step)%Z →
  length (strided_from offset step a)
    = range_length offset (Z.of_nat (length a)) step.
Proof.
  intros Ho Hs. unfold strided_from, range.
  rewrite omap_fmap_compose. apply omap_seq_length.
  intros j Hj. apply lookup_lt_is_Some.
  apply (range_length_spec offset (Z.of_nat (length a)) step j Hs) in Hj. nia.
Qed.

Lemma strided_lookup {A : Type} (step : Z) (a : list A) (k : nat) :
  (1 <= step)%Z →
  strided step a !! k = a !! (k * Z.to_nat step)%nat.
Proof.
  intros Hs. unfold strided. by rewrite strided_from_lookup by lia.
Qed.

Lemma strided_length {A : Type} (step : Z) (a : list A) :
  (1 <= step)%Z →
  length (strided step a) = range_length 0 (Z.of_nat (length a)) step.
Proof. intros Hs. unfold strided. by rewrite strided_from_length by lia. Qed.

Lemma strided_one {A : Type} (a : list A) : strided 1 a = a.
Proof.
  apply list_eq. intros k. rewrite strided_lookup by lia.
  f_equal. lia.
Qed.

(** ** The loader: strided subsampling and the identity on small datasets *)

Section LoaderFacts.
Import Loader.
Context {T : Type}.
Implicit Types (f : gmap string (h5obj T)) (v : list T) (m : list (list T)).

Lemma stride_ge_1 (n max_size : Z) :
  (1 <= max_size)%Z → (max_size < n)%Z → (1 <= n / max_size)%Z.
Proof. intros H1 H2. apply Z.div_le_lower_bound; lia. Qed.

Lemma load_large_vector f path max_size v :
  f !! path = Some (H5Dataset (DS1 v)) →
  (1 <= max_size)%Z → (max_size < Z.of_nat (length v))%Z →
  load_dataset_with_subsampling f path max_size true =
    Ok (Some (Arr1 (strided (Z.of_nat (length v) / max_size) v))).
Proof.
  intros Hf H1 H2. unfold load_dataset_with_subsampling. rewrite Hf. simpl.
  pose proof (stride_ge_1 _ _ H1 H2) as Hs.
  rewrite (proj2 (Z.ltb_lt _ _) H2).
  rewrite (proj2 (Z.eqb_neq _ _)) by lia.
  unfold read_step. rewrite (proj2 (Z.ltb_ge _ _)) by lia. done.
Qed.

Lemma load_large_matrix f path max_size m :
  f !! path = Some (H5Dataset (DS2 m)) →
  (1 <= max_size)%Z → (max_size < Z.of_nat (length m))%Z →
  load_dataset_with_subsampling f path max_size false =
    Ok (Some (Arr2 (strided (Z.of_nat (length m) / max_size) <$>
                    strided (Z.of_nat (length m) / max_size) m))).
Proof.
  intros Hf H1 H2. unfold load_dataset_with_subsampling. rewrite Hf. simpl.
  pose proof (stride_ge_1 _ _ H1 H2) as Hs.
  rewrite (proj2 (Z.ltb_lt _ _) H2).
  rewrite (proj2 (Z.eqb_neq _ _)) by lia.
  rewrite (proj2 (Z.ltb_ge _ _)) by lia. done.
Qed.

(** C1. When the leading dimension [n] exceeds [max_size >= 1], the loader
    uses the stride [n // max_size >= 1]; a vector is returned as exactly
    the elements at the multiples of the stride ([sub[k] = v[k * stride]],
    both sides undefined beyond the end), and a matrix is returned with
    the same stride on rows and columns
    ([sub[r][c] = m[r * stride][c * stride]]). *)
Theorem subsample_index_correspondence f path max_size :
  (1 <= max_size)%Z →
  (∀ v, f !! path = Some (H5Dataset (DS1 v)) →
        (max_size < Z.of_nat (length v))%Z →
        let stride := (Z.of_nat (length v) / max_size)%Z in
        (1 <= stride)%Z ∧
        ∃ sub, load_dataset_with_subsampling f path max_size true
                 = Ok (Some (Arr1 sub)) ∧
               ∀ k : nat, sub !! k = v !! (k * Z.to_nat stride)%nat) ∧
  (∀ m, f !! path = Some (H5Dataset (DS2 m)) →
        (max_size < Z.of_nat (length m))%Z →
        let stride := (Z.of_nat (length m) / max_size)%Z in
        (1 <= stride)%Z ∧
        ∃ sub, load_dataset_with_subsampling f path max_size false
                 = Ok (Some (Arr2 sub)) ∧
               ∀ r c : nat,
                 sub !! r ≫= (.!! c) =
                 m !! (r * Z.to_nat stride)%nat ≫= (.!! (c * Z.to_nat stride)%nat)).
Proof.
  intros H1. split.
  - intros v Hf H2 stride.
    pose proof (stride_ge_1 _ _ H1 H2) as Hs. split; [done|].
    eexists. split; [by apply load_large_vector|].
    intros k. by apply strided_lookup.
  - intros m Hf H2 stride.
    pose proof (stride_ge_1 _ _ H1 H2) as Hs. split; [done|].
    eexists. split; [by apply load_large_matrix|].
    intros r c. subst stride. rewrite list_lookup_fmap. rewrite strided_lookup by exact Hs.
    destruct (m !! _) as [row|]; [|done].
    simpl. by apply strided_lookup.
Qed.

(** C2. When the leading dimension does not exceed [max_size], the loader
    returns the whole dataset unchanged, whichever way it is called. *)
Theorem load_small_identity f path max_size is_vector :
  (∀ v, f !! path = Some (H5Dataset (DS1 v)) →
        (Z.of_nat (length v) <= max_size)%Z →
        load_dataset_with_subsampling f path max_size is_vector
          = Ok (Some (Arr1 v))) ∧
  (∀ m, f !! path = Some (H5Dataset (DS2 m)) →
        (Z.of_nat (length m) <= max_size)%Z →
        load_dataset_with_subsampling f path max_size is_vector
          = Ok (Some (Arr2 m))).
Proof.
  split; intros x Hf Hn; unfold load_dataset_with_subsampling;
    rewrite Hf; simpl; by rewrite (proj2 (Z.ltb_ge _ _)) by lia.
Qed.

Lemma ceil_div_bound (n max_size : Z) :
  (1 <= max_size)%Z → (max_size < n)%Z →
  (ceil_div n (n / max_size) < 2 * max_size)%Z.
Proof.
  intros H1 H2. unfold ceil_div.
  pose proof (stride_ge_1 _ _ H1 H2) as Hs.
  pose proof (Z.mod_pos_bound n max_size ltac:(lia)) as Hm.
  pose proof (Z.div_mod n max_size ltac:(lia)) as Hd.
  set (s := (n / max_size)%Z) in *.
  apply Z.div_lt_upper_bound; [lia|]. nia.
Qed.

Lemma stride_below_double (n max_size : Z) :
  (1 <= max_size)%Z → (max_size < n)%Z → (n < 2 * max_size)%Z →
  (n / max_size = 1)%Z.
Proof.
  intros H1 H2 H3. symmetry. apply (Z.div_unique n max_size 1 (n - max_size)); lia.
Qed.

(** C10. For a vector of length [n > max_size >= 1] the loader returns
    exactly [ceil(n / (n // max_size))] elements; that count is always
    below [2 * max_size], and whenever [max_size < n < 2 * max_size] the
    stride is one, the whole vector comes back and the count exceeds
    [max_size]: [max_size] is no hard bound on the returned size. *)
Theorem subsample_size f path max_size v :
  f !! path = Some (H5Dataset (DS1 v)) →
  (1 <= max_size)%Z → (max_size < Z.of_nat (length v))%Z →
  let n := Z.of_nat (length v) in
  ∃ sub,
    load_dataset_with_subsampling f path max_size true = Ok (Some (Arr1 sub)) ∧
    Z.of_nat (length sub) = ceil_div n (n / max_size) ∧
    (Z.of_nat (length sub) < 2 * max_size)%Z ∧
    ((n < 2 * max_size)%Z →
       (n / max_size = 1)%Z ∧ sub = v ∧ (max_size < Z.of_nat (length sub))%Z).
Proof.
  intros Hf H1 H2 n. subst n.
  pose proof (stride_ge_1 _ _ H1 H2) as Hs.
  eexists. split; [by apply load_large_vector|].
  assert (Hlen : Z.of_nat (length (strided (Z.of_nat (length v) / max_size) v))
                 = ceil_div (Z.of_nat (length v)) (Z.of_nat (length v) / max_size)).
  { rewrite strided_length by done. unfold range_length, ceil_div.
    rewrite Z.sub_0_r. apply Z2Nat.id, Z.div_pos; lia. }
  split; [done|]. split.
  - rewrite Hlen. by apply ceil_div_bound.
  - intros H3. pose proof (stride_below_double _ _ H1 H2 H3) as E.
    split; [done|]. rewrite E, strided_one. done.
Qed.

(** Outside the layout of the file: the flag, not the rank, selects the
    slice.  A matrix loaded as a vector keeps whole rows, and a vector
    loaded as a matrix is refused by h5py with a [ValueError]. *)
Lemma load_matrix_as_vector f path max_size m :
  f !! path = Some (H5Dataset (DS2 m)) →
  (1 <= max_size)%Z → (max_size < Z.of_nat (length m))%Z →
  load_dataset_with_subsampling f path max_size true =
    Ok (Some (Arr2 (strided (Z.of_nat (length m) / max_size) m))).
Proof.
  intros Hf H1 H2. unfold load_dataset_with_subsampling. rewrite Hf. simpl.
  pose proof (stride_ge_1 _ _ H1 H2) as Hs.
  rewrite (proj2 (Z.ltb_lt _ _) H2).
  rewrite (proj2 (Z.eqb_neq _ _)) by lia.
  unfold read_step. rewrite (proj2 (Z.ltb_ge _ _)) by lia. done.
Qed.

Lemma load_vector_as_matrix f path max_size v :
  f !! path = Some (H5Dataset (DS1 v)) →
  (1 <= max_size)%Z → (max_size < Z.of_nat (length v))%Z →
  load_dataset_with_subsampling f path max_size false = Raise ValueError.
Proof.
  intros Hf H1 H2. unfold load_dataset_with_subsampling. rewrite Hf. simpl.
  rewrite (proj2 (Z.ltb_lt _ _) H2).
  rewrite (proj2 (Z.eqb_neq _ _)) by lia. done.
Qed.

End LoaderFacts.

(** ** The modal analysis: truncation and natural frequencies *)

Section ModalFacts.
Import Modal.
Context {T : Type}.
Implicit Types (K M : list (list T)).

Lemma leading_square (k n : nat) K :
  Np.square n K → (k <= n)%nat → Np.square k (leading k K).
Proof.
  intros [Hlen Hrows] Hk. unfold leading. split.
  - rewrite length_fmap, length_take. lia.
  - apply Forall_fmap, Forall_take.
    eapply Forall_impl; [exact Hrows|].
    intros row Hrow. simpl in *. rewrite length_take. lia.
Qed.

Lemma square_shape (n : nat) K M :
  Np.square n K → Np.square n M → Np.shape K = Np.shape M.
Proof.
  intros [HK HKr] [HM HMr]. unfold Np.shape. rewrite HK, HM. f_equal.
  destruct K as [|r1 K], M as [|r2 M]; simpl in *; try congruence.
  apply Forall_cons_1 in HKr as [-> _].
  apply Forall_cons_1 in HMr as [-> _]. done.
Qed.

(** C3 (as the code has it). For square [K] and [M] of dimension [n], both
    are cut to their leading 500 x 500 block exactly when [n] exceeds 1000,
    and are passed on unchanged otherwise; either way the same is done to
    both, so the two matrices given to the eigen-solver have equal
    shape. *)
Theorem restrict_conformant (n : nat) K M :
  Np.square n K → Np.square n M →
  ((1000 < n)%nat →
     restrict K M = (leading 500 K, leading 500 M) ∧
     Np.square 500 (restrict K M).1 ∧ Np.square 500 (restrict K M).2) ∧
  ((n <= 1000)%nat → restrict K M = (K, M)) ∧
  Np.shape (restrict K M).1 = Np.shape (restrict K M).2.
Proof.
  intros HK HM. pose proof HK as [HlenK _]. unfold restrict. rewrite HlenK.
  destruct (1000 <? n)%nat eqn:E.
  - apply Nat.ltb_lt in E. simpl.
    assert (Np.square 500 (leading 500 K)) by (eapply leading_square; [done|lia]).
    assert (Np.square 500 (leading 500 M)) by (eapply leading_square; [done|lia]).
    split; [done|]. split; [lia|]. by eapply square_shape.
  - apply Nat.ltb_ge in E. simpl.
    split; [lia|]. split; [done|]. by eapply square_shape.
Qed.

End ModalFacts.

Section FrequencyFacts.
Import Modal.
Variable eigsh : list (list R) → list (list R) →
                 result (list Np.complex * list (list R)).


Lemma is_negative_false (x : R) : Np.is_negative x = false ↔ (0 <= x)%R.
Proof. unfold Np.is_negative. destruct (Rlt_dec x 0); split; (done || lra). Qed.

Lemma natural_frequencies_lookup (eigenvals : list Np.complex) (i : nat) ev :
  eigenvals !! i = Some ev →
  natural_frequencies eigenvals !! i =
    Some (if Np.is_negative (Np.real ev) then Np.nan
          else Some (sqrt (Np.real ev) / (2 * PI))%R).
Proof.
  intros Hev. unfold natural_frequencies.
  rewrite list_lookup_fmap, Hev. simpl. unfold Np.sqrt.
  by destruct (Np.is_negative (Np.real ev)).
Qed.




End FrequencyFacts.

(** ** The response regrouping: node count and magnitudes *)

Section ResponseFacts.
Import Response.
Implicit Types (force displacement a b : list R).

Lemma component_lookup (offset : Z) (count : nat) a (k : nat) :
  (0 <= offset)%Z →
  component offset count a !! k =
    if decide (k < count)%nat then a !! (Z.to_nat offset + k * 6)%nat else None.
Proof.
  intros Ho. unfold component. rewrite lookup_take.
  case_decide; [|done]. by rewrite strided_from_lookup by lia.
Qed.

Lemma component_length (offset : Z) (count : nat) a :
  (0 <= offset)%Z →
  (Z.to_nat offset + count * 6 <= length a + 5)%nat →
  (count = 0%nat ∨ Z.to_nat offset < length a)%nat →
  length (component offset count a) = count.
Proof.
  intros Ho Hfit Hne. unfold component.
  rewrite length_take, strided_from_length by lia.
  destruct count as [|c]; [lia|].
  assert (c < range_length offset (Z.of_nat (length a)) 6)%nat; [|lia].
  apply range_length_spec; lia.
Qed.

Lemma broadcast2_same_length (f : R → R → R) a b :
  length a = length b → broadcast2 f a b = Ok (zip_with f a b).
Proof.
  intros Hlen. unfold broadcast2.
  destruct a as [|x [|x' a]], b as [|y [|y' b]]; simplify_eq/=; try done.
  rewrite decide_True by (f_equal; f_equal; done). done.
Qed.

Lemma magnitude_same_length (x y z : list R) :
  length x = length y → length x = length z →
  magnitude x y z =
    Ok (sqrt <$> zip_with Rplus (zip_with Rplus (squares x) (squares y)) (squares z)).
Proof.
  intros Hy Hz. unfold magnitude, squares.
  rewrite broadcast2_same_length by (by rewrite !length_fmap).
  cbn. rewrite broadcast2_same_length; [done|].
  rewrite length_zip_with, !length_fmap. lia.
Qed.

Lemma disp_lengths force displacement :
  length force = length displacement →
  length (disp_x force displacement) = node_count force ∧
  length (disp_y force displacement) = node_count force ∧
  length (disp_z force displacement) = node_count force ∧
  length (force_x force) = node_count force ∧
  length (force_y force) = node_count force.
Proof.
  intros Hlen. unfold disp_x, disp_y, disp_z, force_x, force_y, zeros_like.
  pose proof (Nat.div_mod (length force) 6 ltac:(lia)) as Hd.
  pose proof (Nat.mod_upper_bound (length force) 6 ltac:(lia)) as Hm.
  unfold node_count. set (n := (length force / 6)%nat) in *.
  assert (Hx : ∀ a, length a = length force → length (component 0 n a) = n).
  { intros a Ha. apply component_length; [lia | lia |].
    destruct n; [by left | right; lia]. }
  repeat case_decide; rewrite ?length_replicate, ?Hx by done;
    repeat split; try done;
    (apply component_length; [lia | lia | destruct n; [by left | right; lia]]).
Qed.

Lemma disp_x_lookup force displacement (k : nat) :
  length (disp_x force displacement) = node_count force →
  (k < node_count force)%nat →
  ∃ x, displacement !! (6 * k)%nat = Some x ∧
       disp_x force displacement !! k = Some x.
Proof.
  intros Lx Hk.
  destruct (lookup_lt_is_Some_2 (disp_x force displacement) k ltac:(lia)) as [x Hx].
  exists x. split; [|done].
  unfold disp_x in Hx. rewrite component_lookup, decide_True in Hx by (done || lia).
  rewrite <- Hx. f_equal. lia.
Qed.

Lemma shifted_component_lookup (offset : nat) (n : nat) displacement (k : nat)
    (column : list R) :
  column = (if decide (offset < length displacement)%nat
            then component (Z.of_nat offset) n displacement
            else replicate n 0%R) →
  (offset < 6)%nat → length column = n → (k < n)%nat →
  column !! k = Some (default 0%R (displacement !! (6 * k + offset)%nat)).
Proof.
  intros -> Hoff Lc Hk. case_decide as Hlen.
  - destruct (lookup_lt_is_Some_2 _ k ltac:(rewrite Lc; exact Hk)) as [y Hy].
    rewrite Hy.
    rewrite component_lookup, decide_True in Hy by (done || lia).
    replace (Z.to_nat (Z.of_nat offset) + k * 6)%nat with (6 * k + offset)%nat
      in Hy by lia.
    by rewrite Hy.
  - rewrite lookup_replicate_2 by done.
    rewrite (lookup_ge_None_2 displacement) by lia. done.
Qed.

(** Whatever the two lengths, a run that returns has passed the length
    checks of the drawing calls, so it holds one magnitude per node. *)
Lemma response_returned force displacement (r : response) :
  plot_response_analysis force displacement = Ok r →
  n_nodes r = node_count force ∧
  length (disp_magnitude r) = node_count force ∧
  ∀ k, (k < node_count force)%nat →
    ∃ x, displacement !! (6 * k)%nat = Some x ∧
         disp_magnitude r !! k =
           Some (sqrt (x ^ 2
                       + default 0 (displacement !! (6 * k + 1)%nat) ^ 2
                       + default 0 (displacement !! (6 * k + 2)%nat) ^ 2))%R.
Proof.
  unfold plot_response_analysis, plot. intros Hrun.
  destruct (decide (node_count force = length (disp_x force displacement)))
    as [Lx|]; [|done].
  cbn [mbind result_bind mret result_ret] in Hrun.
  assert (Ly : length (disp_y force displacement) = node_count force).
  { destruct (decide (1 < length displacement)%nat) as [H1|H1].
    - destruct (decide (node_count force = length (disp_y force displacement)));
        [done|]. by destruct (decide (2 < length displacement)%nat).
    - unfold disp_y, zeros_like. rewrite decide_False by done.
      by rewrite length_replicate. }
  assert (Lz : length (disp_z force displacement) = node_count force).
  { destruct (decide (2 < length displacement)%nat) as [H2|H2].
    - destruct (decide (node_count force = length (disp_z force displacement)));
        [done|]. by destruct (decide (1 < length displacement)%nat);
                   [destruct (decide (node_count force
                                      = length (disp_y force displacement)))|].
    - unfold disp_z, zeros_like. rewrite decide_False by done.
      by rewrite length_replicate. }
  assert (Hpre : ∀ k : result response,
            ((if decide (1 < length displacement)%nat
              then if decide (node_count force = length (disp_y force displacement))
                   then Ok () else Raise ValueError
              else mret ()) ≫= λ _ : (),
             (if decide (2 < length displacement)%nat
              then if decide (node_count force = length (disp_z force displacement))
                   then Ok () else Raise ValueError
              else mret ()) ≫= λ _ : (), k) = k).
  { intros k. repeat case_decide; try done; congruence. }
  rewrite Hpre in Hrun. clear Hpre.
  rewrite magnitude_same_length in Hrun by congruence.
  cbn [mbind result_bind mret result_ret] in Hrun.
  set (mags := sqrt <$> _) in *.
  assert (Lm : length mags = node_count force).
  { subst mags. unfold squares.
    rewrite length_fmap, !length_zip_with, !length_fmap. lia. }
  rewrite (decide_True (P := node_count force = length mags)) in Hrun by lia.
  cbn [mbind result_bind mret result_ret] in Hrun.
  destruct (decide (node_count force = length (force_x force))); [|done].
  cbn [mbind result_bind mret result_ret] in Hrun.
  assert (Hmax : ∃ top, Np.max mags = Ok top ∧
            r = {| n_nodes := node_count force; disp_magnitude := mags;
                   max_magnitude := top |}).
  { destruct (decide (1 < length force)%nat).
    - destruct (decide (node_count force = length (force_y force))); [|done].
      cbn [mbind result_bind mret result_ret] in Hrun.
      destruct (Np.max mags) as [top|]; [|done].
      cbn [mbind result_bind mret result_ret] in Hrun.
      exists top. split; [reflexivity|]. by injection Hrun as <-.
    - cbn [mbind result_bind mret result_ret] in Hrun.
      destruct (Np.max mags) as [top|]; [|done].
      cbn [mbind result_bind mret result_ret] in Hrun.
      exists top. split; [reflexivity|]. by injection Hrun as <-. }
  destruct Hmax as (top & _ & ->). cbn [n_nodes disp_magnitude].
  split; [done|]. split; [done|].
  intros k Hk.
  destruct (disp_x_lookup force displacement k ltac:(done) Hk) as (x & Hx & Hxk).
  exists x. split; [done|].
  subst mags. unfold squares.
  rewrite list_lookup_fmap, !lookup_zip_with, !list_lookup_fmap.
  rewrite Hxk.
  rewrite (shifted_component_lookup 1 (node_count force) displacement k
             (disp_y force displacement)); [| |lia|done|done].
  2:{ unfold disp_y, zeros_like. by rewrite <- Lx. }
  rewrite (shifted_component_lookup 2 (node_count force) displacement k
             (disp_z force displacement)); [| |lia|done|done].
  2:{ unfold disp_z, zeros_like. by rewrite <- Lx. }
  done.
Qed.

(** C6. The node count is [len(force) // 6].  Whenever the reducer returns,
    it returns one magnitude per node, the [k]-th being the Euclidean norm
    of the displacement entries [6k], [6k+1], [6k+2] (an entry beyond the
    end of the vector counting as zero).  For a pair of one common length
    the magnitudes are these norms, with at least one node the reducer
    does return them, and a pair of length 12 gives exactly two. *)
Theorem response_magnitude force displacement :
  node_count force = (length force / 6)%nat ∧
  (∀ r, plot_response_analysis force displacement = Ok r →
     n_nodes r = node_count force ∧
     length (disp_magnitude r) = node_count force ∧
     ∀ k, (k < node_count force)%nat →
       ∃ x, displacement !! (6 * k)%nat = Some x ∧
            disp_magnitude r !! k =
              Some (sqrt (x ^ 2
                          + default 0 (displacement !! (6 * k + 1)%nat) ^ 2
                          + default 0 (displacement !! (6 * k + 2)%nat) ^ 2))%R) ∧
  (length force = length displacement →
     ∃ mags,
       magnitude (disp_x force displacement) (disp_y force displacement)
                 (disp_z force displacement) = Ok mags ∧
       length mags = node_count force ∧
       (∀ k, (k < node_count force)%nat →
          ∃ x y z,
            displacement !! (6 * k)%nat = Some x ∧
            displacement !! (6 * k + 1)%nat = Some y ∧
            displacement !! (6 * k + 2)%nat = Some z ∧
            mags !! k = Some (sqrt (x ^ 2 + y ^ 2 + z ^ 2))%R) ∧
       ((6 <= length force)%nat →
          ∃ r, plot_response_analysis force displacement = Ok r ∧
               n_nodes r = node_count force ∧ disp_magnitude r = mags) ∧
       (length force = 12%nat → length mags = 2%nat)).
Proof.
  split; [done|]. split; [apply response_returned|].
  intros Hlen.
  destruct (disp_lengths force displacement Hlen) as (Lx & Ly & Lz & Lfx & Lfy).
  pose proof (Nat.div_mod (length force) 6 ltac:(lia)) as Hd.
  pose proof (Nat.mod_upper_bound (length force) 6 ltac:(lia)) as Hm.
  pose proof (magnitude_same_length (disp_x force displacement)
                (disp_y force displacement) (disp_z force displacement)
                ltac:(congruence) ltac:(congruence)) as Hmag.
  eexists. split; [exact Hmag|].
  set (mags := sqrt <$> _) in *.
  assert (Lm : length mags = node_count force).
  { subst mags. unfold squares.
    rewrite length_fmap, !length_zip_with, !length_fmap. lia. }
  split; [done|]. split; [|split].
  - intros k Hk. unfold node_count in Hk.
    destruct (lookup_lt_is_Some_2 displacement (6 * k)%nat ltac:(lia)) as [x Hx].
    destruct (lookup_lt_is_Some_2 displacement (6 * k + 1)%nat ltac:(lia)) as [y Hy].
    destruct (lookup_lt_is_Some_2 displacement (6 * k + 2)%nat ltac:(lia)) as [z Hz].
    exists x, y, z. repeat split; try done.
    subst mags. unfold squares.
    rewrite list_lookup_fmap, !lookup_zip_with, !list_lookup_fmap.
    unfold disp_x, disp_y, disp_z.
    rewrite !decide_True by lia.
    rewrite !component_lookup by lia.
    rewrite !decide_True by (unfold node_count; lia).
    replace (Z.to_nat 0 + k * 6)%nat with (6 * k)%nat by lia.
    replace (Z.to_nat 1 + k * 6)%nat with (6 * k + 1)%nat by lia.
    replace (Z.to_nat 2 + k * 6)%nat with (6 * k + 2)%nat by lia.
    rewrite Hx, Hy, Hz. done.
  - intros Hsix. unfold plot_response_analysis, plot.
    rewrite !decide_True by lia. cbn [mbind result_bind mret result_ret].
    rewrite Hmag. cbn [mbind result_bind mret result_ret].
    rewrite !decide_True by lia. cbn [mbind result_bind mret result_ret].
    destruct mags as [|m0 mags'] eqn:E.
    + exfalso. simpl in Lm. unfold node_count in Lm. lia.
    + cbn. eexists. split; [reflexivity|]. done.
  - intros H12. rewrite Lm. unfold node_count. rewrite H12. reflexivity.
Qed.

End ResponseFacts.

(** ** The report: maximum displacement, limit check and strain energy *)

Section ReportFacts.
Import Report.
Implicit Types (d : data) (K M : list (list R)) (F U : list R).

Lemma foldl_Rmax_spec (x : R) (l : list R) :
  foldl Rmax x l ∈ x :: l ∧ ∀ y, y ∈ x :: l → (y <= foldl Rmax x l)%R.
Proof.
  revert x. induction l as [|z l IH]; intros x.
  - simpl. split; [set_solver|]. intros y Hy.
    apply list_elem_of_singleton in Hy as ->. lra.
  - simpl. destruct (IH (Rmax x z)) as [Hin Hle]. split.
    + apply elem_of_cons in Hin as [Heq|Hin]; [|set_solver].
      rewrite Heq. unfold Rmax. destruct (Rle_dec x z); set_solver.
    + intros y Hy.
      pose proof (Hle (Rmax x z) ltac:(set_solver)) as Htop.
      pose proof (Rmax_l x z). pose proof (Rmax_r x z).
      apply elem_of_cons in Hy as [->|Hy]; [lra|].
      apply elem_of_cons in Hy as [->|Hy]; [lra|].
      apply Hle. set_solver.
Qed.

Lemma max_abs_spec U :
  U ≠ [] → ∃ top, Np.max (Np.abs U) = Ok top ∧ Spec.is_max_abs U top.
Proof.
  intros Hne. destruct U as [|x U]; [done|].
  cbn. eexists. split; [reflexivity|].
  destruct (foldl_Rmax_spec (Rabs x) (Rabs <$> U)) as [Hin Hle].
  split; [exact Hin|].
  intros y Hy. apply Hle.
  change (Rabs y ∈ Rabs <$> (x :: U)). by apply list_elem_of_fmap_2.
Qed.

Lemma scaled_sum (c : R) (row u : list R) :
  (c * Np.sum (zip_with Rmult row u))%R
  = Np.sum (zip_with (λ kij uj, c * kij * uj)%R row u).
Proof.
  revert u. induction row as [|k row IH]; intros [|x u]; simpl; try lra.
  rewrite <- IH. lra.
Qed.

Lemma dot_is_quadratic_form K (u v : list R) :
  Np.sum (zip_with Rmult v ((λ row, Np.sum (zip_with Rmult row u)) <$> K))
  = Np.sum (zip_with (λ vi row, Np.sum (zip_with (λ kij uj, vi * kij * uj)%R row u))
                     v K).
Proof.
  revert K. induction v as [|x v IH]; intros [|row K]; simpl; try done.
  rewrite IH, scaled_sum. done.
Qed.

Lemma strain_energy_square K U :
  Np.square (length U) K →
  strain_energy K U = Ok (0.5 * Spec.quadratic_form K U)%R.
Proof.
  intros [Hlen Hrows]. unfold strain_energy, Np.dot_mv, Np.dot_vv.
  rewrite decide_True by done. cbn.
  rewrite decide_True by (by rewrite length_fmap). cbn.
  unfold Spec.quadratic_form. by rewrite dot_is_quadratic_form.
Qed.

Lemma strain_energy_mismatch K U :
  ¬ Np.square (length U) K → strain_energy K U = Raise ValueError.
Proof.
  intros Hns. unfold strain_energy, Np.dot_mv, Np.dot_vv.
  case_decide as Hrows; [|done]. cbn.
  case_decide as Hlen; [|done].
  exfalso. apply Hns. split; [|done]. by rewrite Hlen, length_fmap.
Qed.

Lemma stiffness_section_ok (n : nat) K :
  Np.square (S n) K →
  ∃ lo hi, stiffness_section K =
    Ok [StiffnessHeader; Dimensions (Np.shape K); DiagonalRange lo hi;
        ConditionNumber (hi / lo)%R;
        Sparsity (100 * (1 - INR (Np.count_nonzero K) / INR (Np.size K)))%R].
Proof.
  intros [Hlen Hrows]. unfold stiffness_section.
  destruct K as [|row K]; [done|].
  apply Forall_cons_1 in Hrows as [Hrow _].
  destruct row as [|x row]; [done|].
  cbn. do 2 eexists. reflexivity.
Qed.

Lemma quiet_mass_section (m : option (list (list R))) :
  Forall quiet (match m with Some M => mass_section M | None => [] end).
Proof. destruct m; unfold mass_section; repeat constructor. Qed.

(** The shape of a report that completes. *)
Lemma generate_report_ok d F U :
  force d = Some F → displacement d = Some U → U ≠ [] →
  (∀ K, stiffness d = Some K → Np.square (length U) K) →
  ∃ top head rms,
    Spec.is_max_abs U top ∧ Forall quiet head ∧
    generate_report d =
      Ok (head
          ++ [MaxDisplacement (top * 1000)%R; RmsDisplacement rms]
          ++ match stiffness d with
             | Some K => [StrainEnergy (0.5 * Spec.quadratic_form K U)%R]
             | None => []
             end
          ++ [if Rgt_dec (top * 1000) limit_mm then ExceedsLimit (top * 1000)%R
              else WithinLimits]).
Proof.
  intros HF HU Hne Hsq.
  destruct (max_abs_spec U Hne) as (top & Htop & Hmax).
  pose proof (quiet_mass_section (mass d)) as Hmass.
  unfold generate_report, response_section. rewrite HF, HU, Htop.
  set (s2 := match mass d with Some M => mass_section M | None => [] end) in *.
  clearbody s2.
  destruct (stiffness d) as [K|] eqn:EK.
  - specialize (Hsq K eq_refl).
    assert (Hsq' : ∃ n, Np.square (S n) K).
    { destruct U as [|u0 U']; [done|]. by exists (length U'). }
    destruct Hsq' as [n Hsq'].
    destruct (stiffness_section_ok _ K Hsq') as (lo & hi & ->).
    rewrite (strain_energy_square K U Hsq).
    cbn [mbind result_bind mret result_ret].
    set (s1 := [StiffnessHeader; _; _; _; _]).
    assert (Hs1 : Forall quiet s1) by (subst s1; repeat constructor).
    clearbody s1.
    exists top, ([Title] ++ s1 ++ s2 ++ [ResponseHeader] ++ s2
                 ++ [ResponseHeader; TotalForce (Np.sum (Np.abs F))]).
    eexists. split; [done|]. split.
    + repeat (apply Forall_app; split); try done; repeat constructor.
    + f_equal. rewrite <- !app_assoc. reflexivity.
  - cbn [mbind result_bind mret result_ret].
    exists top, ([Title] ++ [] ++ s2 ++ [ResponseHeader] ++ s2
                 ++ [ResponseHeader; TotalForce (Np.sum (Np.abs F))]).
    eexists. split; [done|]. split.
    + repeat (apply Forall_app; split); try done; repeat constructor.
    + f_equal. rewrite <- !app_assoc. reflexivity.
Qed.

Lemma generate_report_mismatch d F U K :
  force d = Some F → displacement d = Some U → stiffness d = Some K →
  ¬ Np.square (length U) K →
  ∃ e, generate_report d = Raise e.
Proof.
  intros HF HU HK Hns. unfold generate_report, response_section.
  rewrite HF, HU, HK.
  destruct (stiffness_section K) as [s1|e]; [|by exists e].
  cbn [mbind result_bind mret result_ret].
  destruct (Np.max (Np.abs U)) as [top|e]; [|by exists e].
  cbn [mbind result_bind mret result_ret].
  rewrite (strain_energy_mismatch K U Hns). by exists ValueError.
Qed.

Lemma quiet_elem (head : list line) (l : line) :
  Forall quiet head → l ∈ head → quiet l.
Proof. intros Hq Hin. rewrite Forall_forall in Hq. by apply Hq. Qed.

(** A report that completes had a non-empty displacement vector and, if a
    stiffness matrix was loaded, one of the displacement's dimension. *)
Lemma generate_report_returned d F U (lines : list line) :
  force d = Some F → displacement d = Some U →
  generate_report d = Ok lines →
  U ≠ [] ∧ ∀ K, stiffness d = Some K → Np.square (length U) K.
Proof.
  intros HF HU Hrun. split.
  - intros ->. unfold generate_report, response_section in Hrun.
    rewrite HF, HU in Hrun.
    destruct (stiffness d) as [K|]; [destruct (stiffness_section K)|]; done.
  - intros K HK.
    destruct (decide (length K = length U ∧
                      Forall (λ row, length row = length U) K)) as [Hsq|Hns];
      [exact Hsq|].
    destruct (generate_report_mismatch d F U K HF HU HK Hns) as [e He].
    congruence.
Qed.

(** C7. Whenever the report is printed, the maximum displacement it shows
    is [max(|U|) * 1000] millimetres, and the verdict is "exceeds limit"
    exactly when that value is strictly above 10, "within limits"
    otherwise; the report is printed for every non-empty [U] whose
    stiffness matrix, if one is loaded, has the dimension of [U]. *)
Theorem report_max_displacement d F U :
  force d = Some F → displacement d = Some U →
  (∀ lines, generate_report d = Ok lines →
     ∃ top,
       Spec.is_max_abs U top ∧
       MaxDisplacement (top * 1000)%R ∈ lines ∧
       (∀ mm, MaxDisplacement mm ∈ lines → mm = (top * 1000)%R) ∧
       ((top * 1000 > 10)%R →
          ExceedsLimit (top * 1000)%R ∈ lines ∧ WithinLimits ∉ lines) ∧
       (¬ (top * 1000 > 10)%R →
          WithinLimits ∈ lines ∧ ∀ mm, ExceedsLimit mm ∉ lines)) ∧
  (U ≠ [] → (∀ K, stiffness d = Some K → Np.square (length U) K) →
     ∃ lines, generate_report d = Ok lines).
Proof.
  intros HF HU. split.
  2:{ intros Hne Hsq.
      destruct (generate_report_ok d F U HF HU Hne Hsq)
        as (top & head & rms & _ & _ & ->). eauto. }
  intros lines Hrun.
  destruct (generate_report_returned d F U lines HF HU Hrun) as [Hne Hsq].
  destruct (generate_report_ok d F U HF HU Hne Hsq)
    as (top & head & rms & Hmax & Hq & Hshape).
  rewrite Hshape in Hrun. injection Hrun as <-.
  exists top. split; [done|].
  set (energy := match stiffness d with Some K => _ | None => [] end).
  assert (He : ∀ l, l ∈ energy → ∃ e, l = StrainEnergy e).
  { subst energy. intros l Hl. destruct (stiffness d); [|set_solver].
    apply list_elem_of_singleton in Hl. eauto. }
  clearbody energy. unfold limit_mm.
  assert (Hhead : ∀ l, l ∈ head → quiet l) by (intros; by eapply quiet_elem).
  split; [set_solver|]. split.
  { intros mm.
    repeat (rewrite elem_of_app || rewrite elem_of_cons || rewrite elem_of_nil).
    intros [Hin|[?|[?|[Hin|[?|[]]]]]]; simplify_eq; try done.
    - by apply Hhead in Hin.
    - apply He in Hin as [e ?]. done.
    - by destruct (Rgt_dec (top * 1000) 10). }
  split.
  - intros Hgt. destruct (Rgt_dec (top * 1000) 10) as [_|Hn]; [|done].
    split; [set_solver|].
    repeat (rewrite elem_of_app || rewrite elem_of_cons || rewrite elem_of_nil).
    intros [Hin|[?|[?|[Hin|[?|[]]]]]]; simplify_eq.
    + by apply Hhead in Hin.
    + apply He in Hin as [e ?]. done.
  - intros Hle. destruct (Rgt_dec (top * 1000) 10) as [Hn|_]; [done|].
    split; [set_solver|]. intros mm.
    repeat (rewrite elem_of_app || rewrite elem_of_cons || rewrite elem_of_nil).
    intros [Hin|[?|[?|[Hin|[?|[]]]]]]; simplify_eq.
    + by apply Hhead in Hin.
    + apply He in Hin as [e ?]. done.
Qed.

(** C8 (as the code has it). The strain energy is computed whenever a
    stiffness matrix is loaded, without any check of its dimension: with
    a matrix of the displacement's dimension the energy printed is
    [0.5 * U^T K U]; with no stiffness matrix the energy is left out and
    the report completes; with a stiffness matrix of another dimension
    the report stops with an exception. *)
Theorem report_strain_energy d F U :
  force d = Some F → displacement d = Some U → U ≠ [] →
  (stiffness d = None →
     ∃ lines, generate_report d = Ok lines ∧ ∀ e, StrainEnergy e ∉ lines) ∧
  (∀ K, stiffness d = Some K → Np.square (length U) K →
     ∃ lines, generate_report d = Ok lines ∧
              StrainEnergy (0.5 * Spec.quadratic_form K U)%R ∈ lines ∧
              ∀ e, StrainEnergy e ∈ lines →
                   e = (0.5 * Spec.quadratic_form K U)%R) ∧
  (∀ K, stiffness d = Some K → ¬ Np.square (length U) K →
     ∃ e, generate_report d = Raise e).
Proof.
  intros HF HU Hne. split; [|split].
  - intros HK.
    destruct (generate_report_ok d F U HF HU Hne) as (top & head & rms & _ & Hq & ->).
    { intros K HK'. congruence. }
    eexists. split; [reflexivity|]. rewrite HK. intros e.
    rewrite !elem_of_app, !elem_of_cons, elem_of_nil.
    intros [Hin|[[?|[?|[]]]|[[]|[?|[]]]]]; simplify_eq.
    + by apply (quiet_elem _ _ Hq) in Hin.
    + by destruct (Rgt_dec (top * 1000) limit_mm).
  - intros K HK Hsq.
    destruct (generate_report_ok d F U HF HU Hne) as (top & head & rms & _ & Hq & ->).
    { intros K' HK'. congruence. }
    eexists. split; [reflexivity|]. rewrite HK. split; [set_solver|].
    intros e. rewrite !elem_of_app, !elem_of_cons, elem_of_nil.
    intros [Hin|[[?|[?|[]]]|[[?|[]]|[?|[]]]]]; simplify_eq; try done.
    + by apply (quiet_elem _ _ Hq) in Hin.
    + by destruct (Rgt_dec (top * 1000) limit_mm).
  - intros K HK Hns. by eapply generate_report_mismatch.
Qed.

End ReportFacts.

(** ** Loops that visit every pair of two lists *)

Section NestedFold.
Context {S I J K V : Type}.
Variables (body : S → I → J → S) (wf : S → Prop).
Variables (valid_i : I → Prop) (valid_j : J → Prop).
Variables (obs : S → K → V) (covers : I → J → K → Prop) (target : K → V).

Hypothesis covers_dec : ∀ i j k, covers i j k ∨ ¬ covers i j k.
Hypothesis body_wf : ∀ s i j, wf s → valid_i i → valid_j j → wf (body s i j).
Hypothesis body_in : ∀ s i j k,
  wf s → valid_i i → valid_j j → covers i j k → obs (body s i j) k = target k.
Hypothesis body_out : ∀ s i j k,
  wf s → valid_i i → valid_j j → ¬ covers i j k → obs (body s i j) k = obs s k.

Lemma inner_loop_spec (cols : list J) (s : S) (i : I) :
  wf s → valid_i i → Forall valid_j cols →
  let s' := foldl (λ s j, body s i j) s cols in
  wf s' ∧
  ∀ k, ((∃ j, j ∈ cols ∧ covers i j k) → obs s' k = target k) ∧
       ((∀ j, j ∈ cols → ¬ covers i j k) → obs s' k = obs s k).
Proof.
  intros Hwf Hi. cbv zeta.
  induction cols as [|j cols IH] using rev_ind; intros Hjs.
  - simpl. split; [exact Hwf|]. intros k. split; [|reflexivity].
    intros (j & Hj & _). by apply elem_of_nil in Hj.
  - apply Forall_app in Hjs as [Hjs Hj]. rewrite Forall_singleton in Hj.
    destruct (IH Hjs) as [Hwf' Hobs]. rewrite foldl_app. simpl.
    split; [by apply body_wf|]. intros k.
    destruct (Hobs k) as [Hin Hout].
    destruct (covers_dec i j k) as [Hc|Hc].
    + split; [intros _; by apply body_in|].
      intros Hall. exfalso. apply (Hall j); [set_solver | done].
    + rewrite body_out by done. split.
      * intros (j' & Hj' & Hc'). apply Hin. exists j'. split; [|done].
        apply elem_of_app in Hj' as [?|Hj']; [done|].
        apply list_elem_of_singleton in Hj' as ->. done.
      * intros Hall. apply Hout. intros j' Hj'. apply Hall. set_solver.
Qed.

Lemma covered_or_not (cols : list J) (i : I) (k : K) :
  (∃ j, j ∈ cols ∧ covers i j k) ∨ (∀ j, j ∈ cols → ¬ covers i j k).
Proof.
  induction cols as [|j cols IH].
  - right. intros j Hj. by apply elem_of_nil in Hj.
  - destruct (covers_dec i j k) as [Hc|Hc]; [left; exists j; set_solver|].
    destruct IH as [(j' & Hj' & Hc')|Hnone]; [left; exists j'; set_solver|].
    right. intros j' Hj'. apply elem_of_cons in Hj' as [->|Hj']; [done|].
    by apply Hnone.
Qed.

Lemma nested_loop_spec (rows : list I) (cols : list J) (s : S) :
  wf s → Forall valid_i rows → Forall valid_j cols →
  let s' := foldl (λ s i, foldl (λ s j, body s i j) s cols) s rows in
  wf s' ∧
  ∀ k, ((∃ i j, i ∈ rows ∧ j ∈ cols ∧ covers i j k) → obs s' k = target k) ∧
       ((∀ i j, i ∈ rows → j ∈ cols → ¬ covers i j k) → obs s' k = obs s k).
Proof.
  intros Hwf His Hjs. cbv zeta.
  induction rows as [|i rows IH] using rev_ind.
  - simpl. split; [exact Hwf|]. intros k. split; [|reflexivity].
    intros (i & j & Hi & _). by apply elem_of_nil in Hi.
  - apply Forall_app in His as [His Hi]. rewrite Forall_singleton in Hi.
    destruct (IH His) as [Hwf' Hobs]. rewrite foldl_app. simpl.
    pose proof (inner_loop_spec cols _ i Hwf' Hi Hjs) as Hlast.
    cbv zeta in Hlast. destruct Hlast as [Hwf'' Hlast].
    split; [done|]. intros k.
    destruct (Hobs k) as [Hin Hout]. destruct (Hlast k) as [Lin Lout].
    destruct (covered_or_not cols i k) as [Hsome|Hnone].
    + split; [intros _; by apply Lin|].
      intros Hall. exfalso. destruct Hsome as (j & Hj & Hc).
      apply (Hall i j); [set_solver | done | done].
    + rewrite (Lout Hnone). split.
      * intros (i' & j' & Hi' & Hj' & Hc'). apply Hin.
        apply elem_of_app in Hi' as [Hi'|Hi'].
        -- by exists i', j'.
        -- apply list_elem_of_singleton in Hi' as ->.
           exfalso. by apply (Hnone j').
      * intros Hall. apply Hout. intros i' j' Hi' Hj'. apply Hall; [set_solver|done].
Qed.

End NestedFold.

(** ** Two-dimensional arrays: zeros, cell and region writes *)

Section ArrayFacts.
Import Generator.
Implicit Types (a block dataset : list (list R)) (row : list R).

Lemma dims_lookup (h w : nat) a (r : nat) :
  Np.dims h w a → (r < h)%nat → ∃ row, a !! r = Some row ∧ length row = w.
Proof.
  intros [Hlen Hrows] Hr.
  destruct (lookup_lt_is_Some_2 a r ltac:(lia)) as [row Hrow].
  exists row. split; [done|].
  rewrite Forall_lookup in Hrows. by eapply Hrows.
Qed.

Lemma dims_imap (h w : nat) a (f : nat → list R → list R) :
  Np.dims h w a →
  (∀ r row, a !! r = Some row → length (f r row) = length row) →
  Np.dims h w (imap f a).
Proof.
  intros [Hlen Hrows] Hf. split; [by rewrite length_imap|].
  apply Forall_lookup. intros r row' Hr.
  rewrite list_lookup_imap in Hr.
  destruct (a !! r) as [row|] eqn:E; simplify_eq/=.
  rewrite (Hf r row E). rewrite Forall_lookup in Hrows. by eapply Hrows.
Qed.

Lemma dims_zeros (h w : Z) : Np.dims (Z.to_nat h) (Z.to_nat w) (zeros h w).
Proof.
  unfold zeros. split; [by rewrite length_replicate|].
  apply Forall_replicate. by rewrite length_replicate.
Qed.

Lemma get2_zeros (h w : Z) (r c : nat) :
  (r < Z.to_nat h)%nat → (c < Z.to_nat w)%nat →
  get2 (zeros h w) r c = Some 0%R.
Proof.
  intros Hr Hc. unfold get2, zeros.
  rewrite lookup_replicate_2 by done. simpl.
  by rewrite lookup_replicate_2.
Qed.

Lemma set2_dims (h w : nat) a (r c : Z) (v : R) :
  Np.dims h w a → Np.dims h w (set2 a r c v).
Proof.
  intros [Hlen Hrows]. unfold set2. split; [by rewrite length_alter|].
  apply Forall_alter; [done|]. intros row _ Hrow. by rewrite length_insert.
Qed.

Lemma set2_get2 (h w : nat) a (r c : Z) (v : R) (r' c' : nat) :
  Np.dims h w a → (Z.to_nat r < h)%nat → (Z.to_nat c < w)%nat →
  get2 (set2 a r c v) r' c' =
    if decide (r' = Z.to_nat r ∧ c' = Z.to_nat c) then Some v else get2 a r' c'.
Proof.
  intros Hd Hr Hc. unfold get2, set2.
  destruct (dims_lookup h w a (Z.to_nat r) Hd Hr) as (row & Hrow & Hw).
  rewrite list_lookup_alter.
  destruct (decide (Z.to_nat r = r')) as [<-|Hne].
  - rewrite Hrow. simpl. rewrite list_lookup_insert.
    destruct (decide (c' = Z.to_nat c)) as [->|Hc'].
    + rewrite !decide_True by (split; [done|lia]). done.
    + rewrite decide_False by (intros [? _]; done).
      rewrite decide_False by (intros [_ ?]; done). done.
  - rewrite decide_False by (intros [? _]; done). done.
Qed.

Lemma fill_diagonal_dims (h w : nat) a (vals : list R) :
  Np.dims h w a → Np.dims h w (fill_diagonal a vals).
Proof.
  intros Hd. apply dims_imap; [done|].
  intros r row _. destruct (vals !! r); [by rewrite length_insert | done].
Qed.

Lemma fill_diagonal_get2 (h w : nat) a (vals : list R) (r c : nat) :
  Np.dims h w a → (r < h)%nat → (c < w)%nat → length vals = h →
  get2 (fill_diagonal a vals) r c =
    if decide (r = c) then vals !! r else get2 a r c.
Proof.
  intros Hd Hr Hc Hv. unfold get2, fill_diagonal.
  destruct (dims_lookup h w a r Hd Hr) as (row & Hrow & Hw).
  rewrite list_lookup_imap, Hrow. simpl.
  destruct (lookup_lt_is_Some_2 vals r ltac:(lia)) as [v Hval].
  rewrite Hval, list_lookup_insert.
  destruct (decide (r = c)) as [->|Hne].
  - by rewrite decide_True by (split; [done|lia]).
  - by rewrite decide_False by (intros [? _]; done).
Qed.

Lemma write_region_dims (h w : nat) dataset (r0 c0 : Z) block :
  Np.dims h w dataset → Np.dims h w (write_region dataset r0 c0 block).
Proof.
  intros Hd. apply dims_imap; [done|].
  intros r row _. case_decide; [|done].
  destruct (block !! _); [by rewrite length_inserts | done].
Qed.

(** A block of [bh] rows of [bw] entries written at [(r0, c0)] inside the
    dataset replaces exactly the cells of its region. *)
Lemma write_region_get2 (h w bh bw : nat) dataset (r0 c0 : Z) block (r c : nat) :
  Np.dims h w dataset → Np.dims bh bw block →
  (Z.to_nat r0 + bh <= h)%nat → (Z.to_nat c0 + bw <= w)%nat →
  (r < h)%nat → (c < w)%nat →
  get2 (write_region dataset r0 c0 block) r c =
    if decide ((Z.to_nat r0 <= r < Z.to_nat r0 + bh)%nat ∧
               (Z.to_nat c0 <= c < Z.to_nat c0 + bw)%nat)
    then get2 block (r - Z.to_nat r0) (c - Z.to_nat c0)
    else get2 dataset r c.
Proof.
  intros Hd Hb Hfr Hfc Hr Hc. unfold get2 at 1 3, write_region.
  destruct (dims_lookup h w dataset r Hd Hr) as (row & Hrow & Hw).
  rewrite list_lookup_imap, Hrow. simpl.
  destruct (decide (Z.to_nat r0 <= r)%nat) as [Hlo|Hlo];
    [|by rewrite decide_False by lia].
  destruct (decide (r < Z.to_nat r0 + bh)%nat) as [Hhi|Hhi].
  - destruct (dims_lookup bh bw block (r - Z.to_nat r0) Hb ltac:(lia))
      as (brow & Hbrow & Hbw).
    rewrite Hbrow. unfold get2. rewrite Hbrow. simpl.
    destruct (decide (Z.to_nat c0 <= c < Z.to_nat c0 + bw)%nat) as [Hin|Hout].
    + rewrite decide_True by lia. apply list_lookup_inserts; lia.
    + rewrite decide_False by lia.
      destruct (decide (c < Z.to_nat c0)%nat).
      * by apply list_lookup_inserts_lt.
      * apply list_lookup_inserts_ge. lia.
  - rewrite decide_False by lia.
    destruct Hb as [Hblen _].
    rewrite (lookup_ge_None_2 block) by lia. done.
Qed.

End ArrayFacts.

(** ** The blocks of the stiffness matrix *)

Section BlockFacts.
Import Generator.
Implicit Types (a block : list (list R)).

Lemma shape_dims (h w : nat) a :
  Np.dims (S h) w a → Np.shape a = (S h, w).
Proof.
  intros [Hlen Hrows]. unfold Np.shape. rewrite Hlen.
  destruct a as [|row a]; [done|].
  apply Forall_cons_1 in Hrows as [Hrow _]. simpl. by rewrite Hrow.
Qed.

Lemma elem_of_range_1 (n x : Z) : x ∈ range 0 n 1 ↔ (0 <= x < n)%Z.
Proof.
  rewrite elem_of_range by lia. split.
  - intros (k & -> & Hlt). lia.
  - intros [H0 Hn]. exists (Z.to_nat x). lia.
Qed.

(** The cells that the two loops of a near-diagonal block overwrite. *)
Lemma band_fill_spec (i j : Z) (h w : nat) block :
  Np.dims (S h) w block →
  Np.dims (S h) w (band_fill i j block) ∧
  ∀ r c, (r < S h)%nat → (c < w)%nat →
    get2 (band_fill i j block) r c =
      if (Z.abs ((i + Z.of_nat r) - (j + Z.of_nat c)) <=? 50)%Z
      then Some (band_value (Z.abs ((i + Z.of_nat r) - (j + Z.of_nat c))))
      else get2 block r c.
Proof.
  intros Hd. unfold band_fill. rewrite (shape_dims h w block Hd). cbn [fst snd].
  set (body := λ (b : list (list R)) (bi bj : Z),
         if (Z.abs ((i + bi) - (j + bj)) <=? 50)%Z
         then let dist := Z.abs ((i + bi) - (j + bj)) in
              set2 b bi bj (band_value dist)
         else b).
  set (valid_i := λ bi : Z, (0 <= bi < Z.of_nat (S h))%Z).
  set (valid_j := λ bj : Z, (0 <= bj < Z.of_nat w)%Z).
  set (obs := λ (b : list (list R)) (k : nat * nat), get2 b k.1 k.2).
  set (covers := λ (bi bj : Z) (k : nat * nat),
         k.1 = Z.to_nat bi ∧ k.2 = Z.to_nat bj ∧
         (Z.abs ((i + bi) - (j + bj)) <= 50)%Z).
  set (target := λ k : nat * nat,
         Some (band_value (Z.abs ((i + Z.of_nat k.1) - (j + Z.of_nat k.2))))).
  assert (Hdec : ∀ bi bj k, covers bi bj k ∨ ¬ covers bi bj k).
  { intros bi bj [r c]. subst covers. cbn.
    destruct (decide (r = Z.to_nat bi)); [|tauto].
    destruct (decide (c = Z.to_nat bj)); [|tauto].
    destruct (decide (Z.abs ((i + bi) - (j + bj)) <= 50)%Z); tauto. }
  assert (Hwf : ∀ b bi bj, Np.dims (S h) w b → valid_i bi → valid_j bj →
                           Np.dims (S h) w (body b bi bj)).
  { intros b bi bj Hb _ _. subst body. cbn beta.
    destruct (Z.abs _ <=? 50)%Z; [by apply set2_dims | done]. }
  assert (Hbin : ∀ b bi bj k, Np.dims (S h) w b → valid_i bi → valid_j bj →
                              covers bi bj k → obs (body b bi bj) k = target k).
  { intros b bi bj [r c] Hb Hbi Hbj (Hr & Hc & Hle).
    subst body obs target valid_i valid_j. cbn in *. subst r c.
    rewrite (proj2 (Z.leb_le _ _) Hle).
    rewrite (set2_get2 (S h) w) by (done || lia).
    rewrite decide_True by done. do 3 f_equal; lia. }
  assert (Hbout : ∀ b bi bj k, Np.dims (S h) w b → valid_i bi → valid_j bj →
                               ¬ covers bi bj k → obs (body b bi bj) k = obs b k).
  { intros b bi bj [r c] Hb Hbi Hbj Hnc.
    subst body obs covers valid_i valid_j. cbn in *.
    destruct (Z.abs ((i + bi) - (j + bj)) <=? 50)%Z eqn:E; [|done].
    apply Z.leb_le in E.
    rewrite (set2_get2 (S h) w) by (done || lia).
    rewrite decide_False by tauto. done. }
  destruct (nested_loop_spec body (Np.dims (S h) w) valid_i valid_j obs covers
              target Hdec Hwf Hbin Hbout
              (range 0 (Z.of_nat (S h)) 1) (range 0 (Z.of_nat w) 1) block Hd)
    as [Hdims Hcells].
  { apply Forall_forall. intros x Hx. by apply elem_of_range_1 in Hx. }
  { apply Forall_forall. intros x Hx. by apply elem_of_range_1 in Hx. }
  subst body obs covers target.
  split; [exact Hdims|].
  intros r c Hr Hc. destruct (Hcells (r, c)) as [Hin Hout]. cbn [fst snd] in *.
  destruct (Z.abs ((i + Z.of_nat r) - (j + Z.of_nat c)) <=? 50)%Z eqn:E.
  - apply Z.leb_le in E. apply Hin.
    exists (Z.of_nat r), (Z.of_nat c).
    rewrite !elem_of_range_1. repeat split; lia.
  - apply Z.leb_gt in E. apply Hout.
    intros bi bj Hbi Hbj (-> & -> & Hle).
    apply elem_of_range_1 in Hbi, Hbj. lia.
Qed.

Lemma block_start_range (size i : Z) :
  i ∈ range 0 size block_size ↔ block_start size i.
Proof.
  unfold block_start, block_size. rewrite elem_of_range by lia. split.
  - intros (k & -> & Hlt). exists (Z.of_nat k). lia.
  - intros (a & -> & H0 & Hlt). exists (Z.to_nat a). lia.
Qed.

Lemma block_of_cell (a r : Z) :
  (0 <= r < 1000)%Z → ((1000 * a + r) / 1000 * 1000 = 1000 * a)%Z.
Proof.
  intros Hr. rewrite (Z.mul_comm 1000 a), Z.div_add_l by lia.
  rewrite (Z.div_small r 1000) by lia. lia.
Qed.

Lemma stiffness_entry_in_block (size i j r c : Z) :
  block_start size i → block_start size j →
  (0 <= r < 1000)%Z → (0 <= c < 1000)%Z →
  stiffness_entry (i + r) (j + c) =
    if (i =? j)%Z then (if (r =? c)%Z then diag_value (i + r) else 0%R)
    else if (Z.abs (i - j) <=? 1000)%Z then
      (if (Z.abs ((i + r) - (j + c)) <=? 50)%Z
       then band_value (Z.abs ((i + r) - (j + c))) else 0%R)
    else 0%R.
Proof.
  intros (a & -> & _) (b & -> & _) Hr Hc.
  unfold stiffness_entry, block_size.
  rewrite !block_of_cell by done.
  destruct (1000 * a =? 1000 * b)%Z eqn:E; [|done].
  apply Z.eqb_eq in E. rewrite E.
  destruct (r =? c)%Z eqn:Erc.
  - apply Z.eqb_eq in Erc as ->. by rewrite Z.eqb_refl.
  - apply Z.eqb_neq in Erc. by rewrite (proj2 (Z.eqb_neq _ _)) by lia.
Qed.

Lemma range_unit_lookup (lo hi : Z) (k : nat) :
  (lo + Z.of_nat k < hi)%Z → range lo hi 1 !! k = Some (lo + Z.of_nat k)%Z.
Proof.
  intros Hk. rewrite range_lookup by lia.
  rewrite decide_True by lia. f_equal. lia.
Qed.

Lemma range_unit_length (lo hi : Z) :
  length (range lo hi 1) = Z.to_nat (hi - lo).
Proof.
  unfold range. rewrite length_fmap, length_seq. unfold range_length.
  f_equal. rewrite Z.div_1_r. lia.
Qed.

(** Every block holds, cell by cell, the entries of its region. *)
Lemma stiffness_block_spec (size i j : Z) :
  block_start size i → block_start size j →
  let bh := Z.to_nat (Z.min (i + block_size) size - i) in
  let bw := Z.to_nat (Z.min (j + block_size) size - j) in
  Np.dims bh bw (stiffness_block size i j) ∧
  ∀ r c, (r < bh)%nat → (c < bw)%nat →
    get2 (stiffness_block size i j) r c =
      Some (stiffness_entry (i + Z.of_nat r) (j + Z.of_nat c)).
Proof.
  intros Hi Hj bh bw.
  assert (Hib : (0 <= i < size)%Z) by (by destruct Hi as (a & _ & ?)).
  assert (Hjb : (0 <= j < size)%Z) by (by destruct Hj as (b & _ & ?)).
  unfold block_size in *.
  assert (Hz : Np.dims bh bw (zeros (Z.min (i + 1000) size - i)
                                     (Z.min (j + 1000) size - j)))
    by apply dims_zeros.
  assert (Hbh : (0 < bh <= 1000)%nat) by (subst bh; lia).
  assert (Hbw : (0 < bw <= 1000)%nat) by (subst bw; lia).
  assert (Hentry : ∀ r c, (r < bh)%nat → (c < bw)%nat →
            stiffness_entry (i + Z.of_nat r) (j + Z.of_nat c) =
              if (i =? j)%Z
              then (if (Z.of_nat r =? Z.of_nat c)%Z
                    then diag_value (i + Z.of_nat r) else 0%R)
              else if (Z.abs (i - j) <=? 1000)%Z then
                (if (Z.abs ((i + Z.of_nat r) - (j + Z.of_nat c)) <=? 50)%Z
                 then band_value (Z.abs ((i + Z.of_nat r) - (j + Z.of_nat c)))
                 else 0%R)
              else 0%R).
  { intros r c Hr Hc. apply (stiffness_entry_in_block size); (done || lia). }
  unfold stiffness_block, fill_block, block_size. cbv zeta.
  destruct (Z.abs (i - j) <? 1000 * 2)%Z eqn:Efar.
  - destruct (i =? j)%Z eqn:Eij.
    + apply Z.eqb_eq in Eij. subst j.
      assert (bw = bh) as -> by (subst bh bw; lia).
      split; [by apply fill_diagonal_dims|].
      intros r c Hr Hc. rewrite Hentry by done.
      rewrite (fill_diagonal_get2 bh bh) by
        (done || (rewrite length_fmap, range_unit_length; subst bh; lia)).
      destruct (decide (r = c)) as [->|Hne].
      * rewrite Z.eqb_refl, list_lookup_fmap.
        rewrite range_unit_lookup by (subst bh; lia). done.
      * rewrite (proj2 (Z.eqb_neq _ _)) by lia.
        apply get2_zeros; subst bh; lia.
    + destruct (Z.abs (i - j) <=? 1000)%Z eqn:Enear.
      * destruct bh as [|h] eqn:Ebh; [lia|].
        destruct (band_fill_spec i j h bw _ Hz) as [Hdims Hcells].
        split; [exact Hdims|].
        intros r c Hr Hc. rewrite Hcells, Hentry by done.
        destruct (Z.abs _ <=? 50)%Z; [done|].
        apply get2_zeros; lia.
      * split; [exact Hz|].
        intros r c Hr Hc. rewrite Hentry by done.
        apply get2_zeros; subst bh bw; lia.
  - split; [exact Hz|].
    intros r c Hr Hc. rewrite Hentry by done.
    apply Z.ltb_ge in Efar.
    rewrite (proj2 (Z.eqb_neq i j)) by lia.
    rewrite (proj2 (Z.leb_gt _ _)) by lia.
    apply get2_zeros; subst bh bw; lia.
Qed.

End BlockFacts.

(** ** The stiffness loops as a whole *)

Section StiffnessFacts.
Import Generator.

Lemma stiffness_body_eq (size : Z) (st : state) (i j : Z) :
  stiffness_body size st i j =
    (write_region st.1 i j (stiffness_block size i j),
     alloc_step st.2 (Z.min (i + block_size) size - i,
                      Z.min (j + block_size) size - j)%Z).
Proof. reflexivity. Qed.

Lemma fill_stiffness_spec (size : Z) (m : memory) :
  let n := Z.to_nat size in
  let st := fill_stiffness size (zeros size size, m) in
  Np.dims n n st.1 ∧
  ∀ r c, (r < n)%nat → (c < n)%nat →
    get2 st.1 r c = Some (stiffness_entry (Z.of_nat r) (Z.of_nat c)).
Proof.
  intros n st. subst st. unfold fill_stiffness.
  set (wf := λ st : state, Np.dims n n st.1).
  set (obs := λ (st : state) (k : nat * nat),
         if decide (k.1 < n ∧ k.2 < n)%nat then get2 st.1 k.1 k.2 else None).
  set (covers := λ (i j : Z) (k : nat * nat),
         (k.1 < n ∧ k.2 < n)%nat ∧
         (i <= Z.of_nat k.1 < Z.min (i + block_size) size)%Z ∧
         (j <= Z.of_nat k.2 < Z.min (j + block_size) size)%Z).
  set (target := λ k : nat * nat,
         Some (stiffness_entry (Z.of_nat k.1) (Z.of_nat k.2))).
  assert (Hdec : ∀ i j k, covers i j k ∨ ¬ covers i j k).
  { intros i j [r c]. subst covers. cbn.
    destruct (decide ((r < n ∧ c < n)%nat)); [|tauto].
    destruct (decide (i <= Z.of_nat r < Z.min (i + block_size) size)%Z); [|tauto].
    destruct (decide (j <= Z.of_nat c < Z.min (j + block_size) size)%Z); tauto. }
  assert (Hwf : ∀ s i j, wf s → block_start size i → block_start size j →
                         wf (stiffness_body size s i j)).
  { intros s i j Hd _ _. subst wf. cbn beta in *.
    rewrite stiffness_body_eq. cbn [fst]. by apply write_region_dims. }
  assert (Hbin : ∀ s i j k, wf s → block_start size i → block_start size j →
                            covers i j k → obs (stiffness_body size s i j) k = target k).
  { intros s i j [r c] Hd Hi Hj ([Hr Hc] & Hri & Hcj).
    destruct (stiffness_block_spec size i j Hi Hj) as [Hbd Hcells].
    destruct Hi as (a & _ & Hi), Hj as (b & _ & Hj).
    subst obs target wf. rewrite stiffness_body_eq.
    cbn [fst snd] in *. rewrite decide_True by done.
    unfold block_size in *.
    rewrite (write_region_get2 n n _ _ _ _ _ _ _ _ Hd Hbd) by lia.
    rewrite decide_True by lia.
    rewrite Hcells by lia. do 2 f_equal; lia. }
  assert (Hbout : ∀ s i j k, wf s → block_start size i → block_start size j →
                             ¬ covers i j k → obs (stiffness_body size s i j) k = obs s k).
  { intros s i j [r c] Hd Hi Hj Hnc.
    destruct (stiffness_block_spec size i j Hi Hj) as [Hbd _].
    destruct Hi as (a & _ & Hi), Hj as (b & _ & Hj).
    subst obs covers wf. rewrite stiffness_body_eq.
    cbn [fst snd] in *. case_decide as Hdom; [|done].
    unfold block_size in *.
    rewrite (write_region_get2 n n _ _ _ _ _ _ _ _ Hd Hbd) by lia.
    rewrite decide_False; [done|]. lia. }
  destruct (nested_loop_spec (stiffness_body size) wf (block_start size)
              (block_start size) obs covers target Hdec Hwf Hbin Hbout
              (range 0 size block_size) (range 0 size block_size)
              (zeros size size, m))
    as [Hdims Hcells].
  { apply dims_zeros. }
  { apply Forall_forall. intros x Hx. by apply block_start_range. }
  { apply Forall_forall. intros x Hx. by apply block_start_range. }
  split; [exact Hdims|].
  intros r c Hr Hc. destruct (Hcells (r, c)) as [Hin _].
  subst obs target covers. cbn in Hin. rewrite decide_True in Hin by done.
  apply Hin.
  exists (Z.of_nat r / block_size * block_size)%Z,
         (Z.of_nat c / block_size * block_size)%Z.
  rewrite !block_start_range. unfold block_start, block_size.
  pose proof (Z.div_mod (Z.of_nat r) 1000 ltac:(lia)).
  pose proof (Z.mod_pos_bound (Z.of_nat r) 1000 ltac:(lia)).
  pose proof (Z.div_mod (Z.of_nat c) 1000 ltac:(lia)).
  pose proof (Z.mod_pos_bound (Z.of_nat c) 1000 ltac:(lia)).
  split; [exists (Z.of_nat r / 1000)%Z; lia|].
  split; [exists (Z.of_nat c / 1000)%Z; lia|].
  lia.
Qed.

Lemma stiffness_entry_sym (r c : Z) : stiffness_entry r c = stiffness_entry c r.
Proof.
  unfold stiffness_entry.
  rewrite (Z.eqb_sym (c / block_size * block_size)).
  rewrite (Z.eqb_sym c r).
  replace (c / block_size * block_size - r / block_size * block_size)%Z
    with (- (r / block_size * block_size - c / block_size * block_size))%Z by lia.
  replace (c - r)%Z with (- (r - c))%Z by lia.
  rewrite !Z.abs_opp.
  destruct (_ =? _)%Z; [|done].
  destruct (r =? c)%Z eqn:E; [|done].
  by apply Z.eqb_eq in E as ->.
Qed.

Lemma diag_value_pos (k : Z) : (0 < diag_value k)%R.
Proof.
  unfold diag_value. pose proof (SIN_bound (IZR k / 1000.0)). lra.
Qed.

Lemma stiffness_entry_diag (r : Z) : stiffness_entry r r = diag_value r.
Proof. unfold stiffness_entry. by rewrite !Z.eqb_refl. Qed.

End StiffnessFacts.

(** ** The small generator: a symmetrized random matrix *)

Section SmallFacts.
Import Generator.
Implicit Types (a rand : list (list R)).

Lemma omap_id_lookup {A : Type} (l : list (option A)) (r : nat) :
  Forall is_Some l → omap (λ o : option A, o) l !! r = l !! r ≫= (λ o, o).
Proof.
  intros Hl. revert r. induction Hl as [|o l [x ->] _ IH]; intros r; [done|].
  destruct r as [|r]; [done|]. apply IH.
Qed.

Lemma omap_id_length {A : Type} (l : list (option A)) :
  Forall is_Some l → length (omap (λ o : option A, o) l) = length l.
Proof.
  intros Hl. induction Hl as [|o l [x ->] _ IH]; [done|].
  cbn. by rewrite IH.
Qed.

Lemma diag_entries_defined (n : nat) a :
  Np.dims n n a → Forall is_Some (imap (λ i (row : list R), row !! i) a).
Proof.
  intros [Hlen Hrows]. apply Forall_lookup. intros i o Hi.
  rewrite list_lookup_imap in Hi.
  destruct (a !! i) as [row|] eqn:E; simplify_eq/=.
  apply lookup_lt_is_Some.
  rewrite Forall_lookup in Hrows.
  rewrite (Hrows i row E). by eapply lookup_lt_Some.
Qed.

Lemma diag_lookup (n : nat) a (r : nat) :
  Np.dims n n a → Np.diag a !! r = get2 a r r.
Proof.
  intros Hd. unfold Np.diag, get2.
  rewrite omap_id_lookup by (by eapply diag_entries_defined).
  rewrite list_lookup_imap. by destruct (a !! r).
Qed.

Lemma diag_length (n : nat) a : Np.dims n n a → length (Np.diag a) = n.
Proof.
  intros Hd. unfold Np.diag.
  rewrite omap_id_length by (by eapply diag_entries_defined).
  rewrite length_imap. by destruct Hd.
Qed.

Lemma scaled_dims (n : nat) rand : Np.dims n n rand → Np.dims n n (scaled rand).
Proof.
  intros [Hlen Hrows]. unfold scaled. split; [by rewrite length_fmap|].
  apply Forall_fmap. eapply Forall_impl; [exact Hrows|].
  intros row Hrow. simpl. by rewrite length_fmap.
Qed.

Lemma scaled_get2 rand (r c : nat) :
  get2 (scaled rand) r c = (λ x, x * 1e10)%R <$> get2 rand r c.
Proof.
  unfold get2, scaled. rewrite list_lookup_fmap.
  destruct (rand !! r) as [row|]; [|done]. simpl.
  by rewrite list_lookup_fmap.
Qed.

Lemma symmetrized_dims (n : nat) a : Np.dims n n a → Np.dims n n (symmetrized a).
Proof.
  intros Hd. apply dims_imap; [done|]. intros r row _. by rewrite length_imap.
Qed.

Lemma symmetrized_get2 (n : nat) a (r c : nat) (x y : R) :
  get2 a r c = Some x → get2 a c r = Some y →
  get2 (symmetrized a) r c = Some ((x + y) / 2)%R.
Proof.
  intros Hx Hy. unfold get2 at 1. unfold symmetrized.
  rewrite list_lookup_imap. unfold get2 in Hx.
  destruct (a !! r) as [row|]; [|done]. simpl in *.
  by rewrite list_lookup_imap, Hx, Hy.
Qed.

Lemma get2_dims (n : nat) a (r c : nat) :
  Np.dims n n a → (r < n)%nat → (c < n)%nat → ∃ x, get2 a r c = Some x.
Proof.
  intros Hd Hr Hc. unfold get2.
  destruct (dims_lookup n n a r Hd Hr) as (row & -> & Hw). simpl.
  apply lookup_lt_is_Some. lia.
Qed.

(** The small generator's matrix, cell by cell, from the random draw. *)
Lemma small_stiffness_get2 (n : nat) rand (r c : nat) (x y : R) :
  Np.dims n n rand → (r < n)%nat → (c < n)%nat →
  get2 rand r c = Some x → get2 rand c r = Some y →
  get2 (small_stiffness rand) r c =
    Some (if decide (r = c) then ((x * 1e10 + x * 1e10) / 2 + 7e10)%R
          else ((x * 1e10 + y * 1e10) / 2)%R).
Proof.
  intros Hd Hr Hc Hx Hy. unfold small_stiffness.
  pose proof (symmetrized_dims n _ (scaled_dims n rand Hd)) as Hsd.
  rewrite (fill_diagonal_get2 n n) by
    (done || by rewrite length_fmap, (diag_length n)).
  destruct (decide (r = c)) as [->|Hne].
  - rewrite list_lookup_fmap, (diag_lookup n) by done.
    rewrite (symmetrized_get2 n _ c c (x * 1e10) (x * 1e10))
      by (by rewrite scaled_get2, Hx).
    done.
  - apply (symmetrized_get2 n); by rewrite scaled_get2, ?Hx, ?Hy.
Qed.

End SmallFacts.

(** ** The generator: symmetry, positive diagonal and allocations *)

Section GeneratorClaims.
Import Generator.

(** The datasets can be created from size 10 on. *)
Lemma create_dataset_ok (size : Z) :
  (10 <= size)%Z → create_dataset size = Ok (zeros size size).
Proof.
  intros Hsize. unfold create_dataset. cbv zeta.
  assert (1 <= size / 10)%Z by (apply Z.div_le_lower_bound; lia).
  by rewrite (proj2 (Z.leb_gt _ _)) by lia.
Qed.

Lemma create_dataset_small (size : Z) :
  (size < 10)%Z → create_dataset size = Raise ValueError.
Proof.
  intros Hsize. unfold create_dataset. cbv zeta.
  assert (size / 10 <= 0)%Z.
  { assert (size / 10 < 1)%Z; [|lia]. apply Z.div_lt_upper_bound; lia. }
  by rewrite (proj2 (Z.leb_le _ _)) by lia.
Qed.

Lemma create_test_hdf5_small (size : Z) :
  (size < 10)%Z → create_test_hdf5 size = Raise ValueError.
Proof.
  intros Hsize. unfold create_test_hdf5. by rewrite create_dataset_small.
Qed.

Lemma create_test_hdf5_ok (size : Z) :
  (10 <= size)%Z →
  create_test_hdf5 size =
    Ok {| stiffness := (fill_stiffness size (zeros size size, no_blocks)).1;
          mass := (fill_mass size
                     (zeros size size,
                      (fill_stiffness size (zeros size size, no_blocks)).2)).1;
          trace := events (fill_mass size
                     (zeros size size,
                      (fill_stiffness size (zeros size size, no_blocks)).2)).2 |}.
Proof.
  intros Hsize. unfold create_test_hdf5. by rewrite create_dataset_ok.
Qed.

(** From size 10 on the generator returns, and its stiffness matrix holds
    [stiffness_entry r c] at every cell. *)
Lemma generated_stiffness (size : Z) :
  (10 <= size)%Z →
  ∃ g, create_test_hdf5 size = Ok g ∧
       Np.dims (Z.to_nat size) (Z.to_nat size) (stiffness g) ∧
       ∀ r c, (r < Z.to_nat size)%nat → (c < Z.to_nat size)%nat →
         get2 (stiffness g) r c
           = Some (stiffness_entry (Z.of_nat r) (Z.of_nat c)).
Proof.
  intros Hsize. eexists. split; [by apply create_test_hdf5_ok|].
  cbn [stiffness]. apply fill_stiffness_spec.
Qed.

(** C5. From size 10 on the block loops write a stiffness matrix with
    equal entries at [(r, c)] and [(c, r)] and a strictly positive
    diagonal; below size 10 no matrix is written, the first
    [create_dataset] stopping the function; the matrix of the small
    generator has the two properties for every draw of its random
    entries. *)
Theorem stiffness_symmetric_positive :
  (∀ size : Z, (10 <= size)%Z →
     ∃ g, create_test_hdf5 size = Ok g ∧
          ∀ r c : nat, (r < Z.to_nat size)%nat → (c < Z.to_nat size)%nat →
            ∃ v d, get2 (stiffness g) r c = Some v ∧
                   get2 (stiffness g) c r = Some v ∧
                   get2 (stiffness g) r r = Some d ∧ (0 < d)%R) ∧
  (∀ size : Z, (size < 10)%Z → create_test_hdf5 size = Raise ValueError) ∧
  (∀ (n : nat) (rand : list (list R)) (r c : nat),
     Np.dims n n rand → unit_draw rand → (r < n)%nat → (c < n)%nat →
     let K := small_stiffness rand in
     ∃ v d, get2 K r c = Some v ∧ get2 K c r = Some v ∧
            get2 K r r = Some d ∧ (0 < d)%R).
Proof.
  split; [|split].
  - intros size Hsize.
    destruct (generated_stiffness size Hsize) as (g & Hg & _ & Hcells).
    exists g. split; [exact Hg|]. intros r c Hr Hc.
    exists (stiffness_entry (Z.of_nat r) (Z.of_nat c)), (diag_value (Z.of_nat r)).
    rewrite !Hcells by done.
    rewrite (stiffness_entry_sym (Z.of_nat c)), stiffness_entry_diag.
    repeat split; try done. apply diag_value_pos.
  - apply create_test_hdf5_small.
  - intros n rand r c Hd Hdraw Hr Hc K. subst K.
    destruct (get2_dims n rand r c Hd Hr Hc) as [x Hx].
    destruct (get2_dims n rand c r Hd Hc Hr) as [y Hy].
    destruct (get2_dims n rand r r Hd Hr Hr) as [z Hz].
    assert (Hz0 : (0 <= z)%R).
    { unfold get2 in Hz. destruct (rand !! r) as [row|] eqn:E; [|done].
      simpl in Hz. unfold unit_draw in Hdraw. rewrite Forall_lookup in Hdraw.
      specialize (Hdraw r row E). rewrite Forall_lookup in Hdraw.
      by destruct (Hdraw r z Hz). }
    rewrite (small_stiffness_get2 n rand r c x y) by done.
    rewrite (small_stiffness_get2 n rand c r y x) by done.
    rewrite (small_stiffness_get2 n rand r r z z) by done.
    rewrite (decide_True (P := r = r)) by done.
    destruct (decide (r = c)) as [->|Hne].
    + rewrite decide_True by done. simplify_eq.
      do 2 eexists. repeat split; try done. lra.
    + rewrite (decide_False (P := c = r)) by done.
      do 2 eexists. repeat split; [f_equal; lra | lra].
Qed.

(** *** The memory of the loops *)

Lemma mass_body_eq (size : Z) (st : state) (i : Z) :
  mass_body size st i =
    (write_region st.1 i 0 (mass_block size i),
     alloc_step st.2 (Z.min (i + block_size) size - i, size)%Z).
Proof. reflexivity. Qed.

Lemma inner_memory (size i : Z) (cols : list Z) (st : state) :
  (foldl (λ st j, stiffness_body size st i j) st cols).2 =
  foldl alloc_step st.2
        ((λ j, (Z.min (i + block_size) size - i,
                Z.min (j + block_size) size - j)%Z) <$> cols).
Proof.
  revert st. induction cols as [|j cols IH]; intros st; [done|].
  cbn [foldl fmap list_fmap]. rewrite IH. by rewrite stiffness_body_eq.
Qed.

Lemma stiffness_memory (size : Z) (rows cols : list Z) (st : state) :
  (foldl (λ st i, foldl (λ st j, stiffness_body size st i j) st cols) st rows).2 =
  foldl alloc_step st.2
        (rows ≫= λ i, (λ j, (Z.min (i + block_size) size - i,
                             Z.min (j + block_size) size - j)%Z) <$> cols).
Proof.
  revert st. induction rows as [|i rows IH]; intros st; [done|].
  cbn [foldl mbind list_bind]. rewrite foldl_app, IH. by rewrite inner_memory.
Qed.

Lemma mass_memory (size : Z) (rows : list Z) (st : state) :
  (foldl (mass_body size) st rows).2 =
  foldl alloc_step st.2
        ((λ i, (Z.min (i + block_size) size - i, size)%Z) <$> rows).
Proof.
  revert st. induction rows as [|i rows IH]; intros st; [done|].
  cbn [foldl fmap list_fmap]. rewrite IH. by rewrite mass_body_eq.
Qed.

Lemma mass_dims (size : Z) (rows : list Z) (st : state) (n : nat) :
  Np.dims n n st.1 → Np.dims n n (foldl (mass_body size) st rows).1.
Proof.
  revert st. induction rows as [|i rows IH]; intros st Hd; [done|].
  simpl. apply IH. rewrite mass_body_eq. cbn [fst]. by apply write_region_dims.
Qed.

Lemma alloc_steps_events (shapes : list (Z * Z)) (m : memory) :
  events (foldl alloc_step m shapes)
    = events m ++ alloc_events (held m) shapes.
Proof.
  revert m. induction shapes as [|shape shapes IH]; intros m.
  - cbn. by rewrite app_nil_r.
  - cbn [foldl alloc_events]. rewrite IH.
    unfold alloc_step, assign_block, np_zeros. cbn [fst snd held events].
    rewrite <- !app_assoc. do 2 f_equal.
    by destruct shape.
Qed.

(** The events of a whole run. *)
Lemma generated_trace (size : Z) :
  (10 <= size)%Z →
  ∃ g, create_test_hdf5 size = Ok g ∧
       Np.dims (Z.to_nat size) (Z.to_nat size) (stiffness g) ∧
       Np.dims (Z.to_nat size) (Z.to_nat size) (mass g) ∧
       trace g = alloc_events None (stiffness_shapes size ++ mass_shapes size).
Proof.
  intros Hsize. eexists. split; [by apply create_test_hdf5_ok|].
  cbn [stiffness mass trace].
  split; [apply fill_stiffness_spec|].
  split; [apply mass_dims, dims_zeros|].
  unfold fill_mass, fill_stiffness.
  rewrite mass_memory, stiffness_memory. cbn [snd].
  rewrite <- foldl_app. by rewrite alloc_steps_events.
Qed.

Lemma allocations_alloc_events (bound : option (Z * Z)) (shapes : list (Z * Z)) :
  allocations (alloc_events bound shapes) = shapes.
Proof.
  revert bound. induction shapes as [|shape shapes IH]; intros bound; [done|].
  unfold allocations in *. cbn [alloc_events omap list_omap].
  rewrite omap_app, IH. by destruct bound.
Qed.

Lemma releases_alloc_events (bound : option (Z * Z)) (shapes : list (Z * Z)) :
  shapes ≠ [] →
  (length (releases (alloc_events bound shapes)) + 1)%nat
    = (length shapes + match bound with Some _ => 1 | None => 0 end)%nat.
Proof.
  revert bound. induction shapes as [|shape shapes IH]; intros bound Hne; [done|].
  unfold releases in *. cbn [alloc_events omap list_omap].
  rewrite omap_app, length_app.
  destruct shapes as [|shape' shapes].
  - destruct bound; cbn; lia.
  - specialize (IH (Some shape) ltac:(done)).
    destruct bound; cbn [omap list_omap length] in *; lia.
Qed.

(** The blocks alive at any moment of a run of allocations: never more
    than two, and two only between an allocation and the assignment that
    follows it. *)
Lemma alloc_events_live (shapes : list (Z * Z)) (bound : option (Z * Z))
    (t : list event) :
  t `prefix_of` alloc_events bound shapes →
  let l := foldl live_step (option_list bound) t in
  (length l <= 2)%nat ∧
  (length l = 2%nat → ∃ t' shape, t = t' ++ [Alloc shape]) ∧
  (∀ x, x ∈ l → x ∈ option_list bound ++ shapes).
Proof.
  revert bound t. induction shapes as [|shape shapes IH]; intros bound t Hpre l.
  - apply prefix_nil_inv in Hpre. subst t l. cbn.
    split; [destruct bound; cbn; lia|].
    split; [destruct bound; cbn; lia|].
    intros x Hx. by rewrite app_nil_r.
  - cbn [alloc_events] in Hpre.
    destruct t as [|e t].
    { subst l. cbn. split; [destruct bound; cbn; lia|].
      split; [destruct bound; cbn; lia|]. intros x Hx. set_solver. }
    pose proof (prefix_cons_inv_1 _ _ _ _ Hpre) as ->.
    apply prefix_cons_inv_2 in Hpre.
    assert (Hrest : ∀ t3, t3 `prefix_of` alloc_events (Some shape) shapes →
              let l3 := foldl live_step [shape] t3 in
              (length l3 <= 2)%nat ∧
              (length l3 = 2%nat → ∃ t' shape', t3 = t' ++ [Alloc shape']) ∧
              (∀ x, x ∈ l3 → x ∈ shape :: shapes)).
    { intros t3 H3. apply (IH (Some shape) t3 H3). }
    destruct bound as [old|].
    + destruct t as [|e t].
      { subst l. cbn. split; [lia|]. split; [|set_solver].
        intros _. by exists [], shape. }
      cbn [app] in Hpre.
      pose proof (prefix_cons_inv_1 _ _ _ _ Hpre) as ->.
      apply prefix_cons_inv_2 in Hpre.
      destruct (Hrest t Hpre) as (H2 & Hlast & Hin).
      subst l. cbn [foldl live_step].
      assert (Hrm : remove_first old (option_list (Some old) ++ [shape]) = [shape])
        by (cbn; by rewrite decide_True).
      rewrite Hrm.
      split; [exact H2|]. split.
      * intros Hlen. destruct (Hlast Hlen) as (t' & shape' & ->).
        by exists (Alloc shape :: Release old :: t'), shape'.
      * intros x Hx. specialize (Hin x Hx). set_solver.
    + cbn [app] in Hpre.
      destruct (Hrest t Hpre) as (H2 & Hlast & Hin).
      subst l. cbn [foldl live_step].
      change (option_list None ++ [shape]) with [shape].
      split; [exact H2|]. split.
      * intros Hlen. destruct (Hlast Hlen) as (t' & shape' & ->).
        by exists (Alloc shape :: t'), shape'.
      * intros x Hx. specialize (Hin x Hx). set_solver.
Qed.

Lemma length_bind_const {A B : Type} (g : A → list B) (l : list A) (k : nat) :
  (∀ x, length (g x) = k) → length (l ≫= g) = (length l * k)%nat.
Proof.
  intros Hg. induction l as [|x l IH]; [done|].
  cbn. rewrite length_app, Hg. f_equal. exact IH.
Qed.

Lemma starts_length (size : Z) :
  length (range 0 size block_size) = Z.to_nat ((size + 999) / 1000).
Proof.
  unfold range. rewrite length_fmap, length_seq. unfold range_length, block_size.
  f_equal. f_equal. lia.
Qed.

Lemma stiffness_shapes_length (size : Z) :
  length (stiffness_shapes size)
    = (Z.to_nat ((size + 999) / 1000) * Z.to_nat ((size + 999) / 1000))%nat.
Proof.
  unfold stiffness_shapes.
  rewrite (length_bind_const _ _ (Z.to_nat ((size + 999) / 1000)));
    [by rewrite starts_length|].
  intros i. by rewrite length_fmap, starts_length.
Qed.

Lemma mass_shapes_length (size : Z) :
  length (mass_shapes size) = Z.to_nat ((size + 999) / 1000).
Proof. unfold mass_shapes. by rewrite length_fmap, starts_length. Qed.

Lemma stiffness_shapes_small (size : Z) :
  Forall small_block (stiffness_shapes size).
Proof.
  unfold stiffness_shapes. apply Forall_forall. intros shape Hin.
  apply list_elem_of_bind in Hin as (i & Hin & Hi).
  apply list_elem_of_fmap in Hin as (j & -> & Hj).
  apply block_start_range in Hi as (a & _ & Hi).
  apply block_start_range in Hj as (b & _ & Hj).
  unfold small_block, block_size. cbn. lia.
Qed.

Lemma mass_shapes_strips (size : Z) :
  Forall (row_strip size) (mass_shapes size).
Proof.
  unfold mass_shapes. apply Forall_fmap, Forall_forall. intros i Hi.
  apply block_start_range in Hi as (a & _ & Hi).
  unfold row_strip, block_size. cbn. lia.
Qed.

(** C4 (as the code has it). From size 10 on the generator leaves two
    [size] x [size] matrices; it calls [np.zeros] once per iteration,
    for the stiffness matrix with a block of at most 1000 x 1000
    entries, for the mass matrix with a strip of at most 1000 rows over
    the full width [size]; and it holds one block at a time: at any
    moment of the run at most two blocks are alive, two only between an
    allocation and the assignment to [block] that releases the block of
    the iteration before.  Below size 10 it allocates nothing: the first
    [create_dataset] stops it. *)
Theorem block_allocations (size : Z) :
  let n := Z.to_nat size in
  let b := Z.to_nat ((size + 999) / 1000) in
  ((10 <= size)%Z →
     ∃ g ks ms,
       create_test_hdf5 size = Ok g ∧
       Np.dims n n (stiffness g) ∧ Np.dims n n (mass g) ∧
       allocations (trace g) = ks ++ ms ∧
       length ks = (b * b)%nat ∧ length ms = b ∧
       Forall small_block ks ∧ Forall (row_strip size) ms ∧
       ∀ t, t `prefix_of` trace g →
         (length (live_blocks t) <= 2)%nat ∧
         (length (live_blocks t) = 2%nat →
            ∃ t' shape, t = t' ++ [Alloc shape]) ∧
         (∀ x, x ∈ live_blocks t → x ∈ ks ++ ms)) ∧
  ((size < 10)%Z → create_test_hdf5 size = Raise ValueError).
Proof.
  intros n b. split; [|apply create_test_hdf5_small]. intros Hsize.
  destruct (generated_trace size Hsize) as (g & Hg & HK & HM & Htrace).
  exists g, (stiffness_shapes size), (mass_shapes size).
  split; [exact Hg|]. split; [exact HK|]. split; [exact HM|].
  split; [by rewrite Htrace, allocations_alloc_events|].
  split; [apply stiffness_shapes_length|].
  split; [apply mass_shapes_length|].
  split; [apply stiffness_shapes_small|].
  split; [apply mass_shapes_strips|].
  intros t Hpre. rewrite Htrace in Hpre.
  apply (alloc_events_live _ None t Hpre).
Qed.

End GeneratorClaims.

(** ** Concrete runs of the loader *)


Example load_stride_two :
  Loader.load_dataset_with_subsampling sample_file "/vectors/force" 3 true
  = Ok (Some (Loader.Arr1 [10; 12; 14; 16]%Z)).
Proof. vm_compute. reflexivity. Qed.

Example load_matrix_stride_one :
  Loader.load_dataset_with_subsampling sample_file "/matrices/mass" 2 false
  = Ok (Some (Loader.Arr2 [[1; 0; 0]; [0; 1; 0]; [0; 0; 1]]%Z)).
Proof. vm_compute. reflexivity. Qed.

Example load_missing :
  Loader.load_dataset_with_subsampling sample_file "/results/displacement" 3 true
  = Ok None.
Proof. vm_compute. reflexivity. Qed.

Lemma subsample_index_correspondence_witness :
  (∃ sub, Loader.load_dataset_with_subsampling sample_file "/vectors/force" 3 true
            = Ok (Some (Loader.Arr1 sub)) ∧
          ∀ k : nat, sub !! k = [10; 11; 12; 13; 14; 15; 16]%Z !! (k * 2)%nat) ∧
  (∃ sub, Loader.load_dataset_with_subsampling sample_file "/matrices/mass" 1 false
            = Ok (Some (Loader.Arr2 sub)) ∧
          ∀ r c : nat,
            sub !! r ≫= (.!! c) =
            [[1; 0; 0]; [0; 1; 0]; [0; 0; 1]]%Z !! (r * 3)%nat ≫= (.!! (c * 3)%nat)).
Proof.
  split.
  - destruct (subsample_index_correspondence sample_file "/vectors/force" 3 ltac:(lia))
      as [Hv _].
    apply (Hv [10; 11; 12; 13; 14; 15; 16]%Z); [reflexivity | simpl; lia].
  - destruct (subsample_index_correspondence sample_file "/matrices/mass" 1 ltac:(lia))
      as [_ Hm].
    apply (Hm [[1; 0; 0]; [0; 1; 0]; [0; 0; 1]]%Z); [reflexivity | simpl; lia].
Defined.

Lemma subsample_size_witness :
  ∃ sub, Loader.load_dataset_with_subsampling sample_file "/vectors/force" 5 true
           = Ok (Some (Loader.Arr1 sub)) ∧
         (5 < Z.of_nat (length sub))%Z.
Proof.
  destruct (subsample_size sample_file "/vectors/force" 5
              [10; 11; 12; 13; 14; 15; 16]%Z
              ltac:(reflexivity) ltac:(lia) ltac:(simpl; lia))
    as (sub & Hload & _ & _ & Hall).
  exists sub. split; [exact Hload|].
  apply Hall. simpl. lia.
Defined.

Lemma load_small_identity_witness :
  Loader.load_dataset_with_subsampling sample_file "/vectors/force" 7 true
    = Ok (Some (Loader.Arr1 [10; 11; 12; 13; 14; 15; 16]%Z)) ∧
  Loader.load_dataset_with_subsampling sample_file "/matrices/mass" 3 false
    = Ok (Some (Loader.Arr2 [[1; 0; 0]; [0; 1; 0]; [0; 0; 1]]%Z)).
Proof.
  split.
  - apply (proj1 (load_small_identity sample_file "/vectors/force" 7 true));
      [reflexivity | simpl; lia].
  - apply (proj2 (load_small_identity sample_file "/matrices/mass" 3 false));
      [reflexivity | simpl; lia].
Defined.

(** ** Concrete runs of the modal analysis *)


(** C3 as the spec states it fails at dimension 501: the dimension exceeds
    500, yet both matrices reach the eigen-solver whole. *)
Lemma restrict_threshold_counterexample :
  Np.square 501 zeros_501 ∧ (500 < 501)%nat ∧
  Modal.restrict zeros_501 zeros_501 = (zeros_501, zeros_501) ∧
  Np.shape (Modal.restrict zeros_501 zeros_501).1 = (501, 501)%nat ∧
  (Modal.restrict zeros_501 zeros_501).1 ≠ Modal.leading 500 zeros_501.
Proof.
  assert (E : Modal.restrict zeros_501 zeros_501 = (zeros_501, zeros_501))
    by (vm_compute; reflexivity).
  split; [|split; [lia|split; [exact E|split]]].
  - split; [reflexivity|]. unfold zeros_501. apply Forall_replicate. reflexivity.
  - rewrite E. vm_compute. reflexivity.
  - rewrite E. intros H. apply (f_equal length) in H. vm_compute in H. discriminate.
Qed.


Lemma restrict_conformant_witness :
  Modal.restrict ones_1001 ones_1001
    = (Modal.leading 500 ones_1001, Modal.leading 500 ones_1001) ∧
  Np.shape (Modal.restrict ones_1001 ones_1001).1
    = Np.shape (Modal.restrict ones_1001 ones_1001).2.
Proof.
  assert (Hsq : Np.square 1001 ones_1001).
  { split; [reflexivity|]. unfold ones_1001. apply Forall_replicate. reflexivity. }
  destruct (restrict_conformant 1001 ones_1001 ones_1001 Hsq Hsq) as (Hbig & _ & Hshape).
  split; [apply Hbig; lia | exact Hshape].
Defined.



(** ** Concrete runs of the response regrouping and of the report *)


Lemma response_magnitude_witness :
  ∃ mags,
    Response.magnitude (Response.disp_x force_12 displacement_12)
                       (Response.disp_y force_12 displacement_12)
                       (Response.disp_z force_12 displacement_12) = Ok mags ∧
    length mags = 2%nat ∧
    mags !! 0%nat = Some (sqrt (3 ^ 2 + 4 ^ 2 + 0 ^ 2))%R ∧
    mags !! 1%nat = Some (sqrt (1 ^ 2 + 2 ^ 2 + 2 ^ 2))%R ∧
    ∃ r, Response.plot_response_analysis force_12 displacement_12 = Ok r ∧
         Response.disp_magnitude r = mags.
Proof.
  destruct (response_magnitude force_12 displacement_12) as (_ & _ & Hpair).
  destruct (Hpair ltac:(reflexivity)) as (mags & Hmag & _ & Hnorm & Hrun & Htwo).
  exists mags. split; [exact Hmag|]. split; [apply Htwo; reflexivity|].
  split; [|split].
  - destruct (Hnorm 0%nat ltac:(vm_compute; lia)) as (x & y & z & Hx & Hy & Hz & ->).
    cbn in Hx, Hy, Hz. by simplify_eq.
  - destruct (Hnorm 1%nat ltac:(vm_compute; lia)) as (x & y & z & Hx & Hy & Hz & ->).
    cbn in Hx, Hy, Hz. by simplify_eq.
  - destruct (Hrun ltac:(vm_compute; lia)) as (r & Hr & _ & Hm).
    exists r. split; assumption.
Defined.

Lemma data_matching_square K :
  Report.stiffness data_matching = Some K → Np.square 2 K.
Proof. intros [= <-]. split; [reflexivity|]. repeat constructor. Qed.

Lemma report_max_displacement_witness :
  ∃ lines top,
    Report.generate_report data_matching = Ok lines ∧
    Spec.is_max_abs [0.02; -0.005]%R top ∧
    Report.MaxDisplacement (top * 1000)%R ∈ lines.
Proof.
  destruct (report_max_displacement data_matching [1; -1]%R [0.02; -0.005]%R
              ltac:(reflexivity) ltac:(reflexivity))
    as [Hshown Hprinted].
  destruct (Hprinted ltac:(discriminate) data_matching_square) as [lines Hrun].
  destruct (Hshown lines Hrun) as (top & Hmax & Hline & _).
  exists lines, top. split; [exact Hrun|]. split; assumption.
Defined.

Lemma report_strain_energy_witness :
  ∃ lines,
    Report.generate_report data_matching = Ok lines ∧
    Report.StrainEnergy
      (0.5 * Spec.quadratic_form [[2; 0]; [0; 2]]%R [0.02; -0.005]%R)%R ∈ lines.
Proof.
  destruct (report_strain_energy data_matching [1; -1]%R [0.02; -0.005]%R
              ltac:(reflexivity) ltac:(reflexivity) ltac:(discriminate))
    as (_ & Hsome & _).
  destruct (Hsome _ ltac:(reflexivity) (data_matching_square _ ltac:(reflexivity)))
    as (lines & Hrun & Hline & _).
  exists lines. split; assumption.
Defined.

(** C8 as the spec states it fails when a stiffness matrix of another
    dimension is loaded: a 1 x 1 matrix with a displacement vector of length
    two stops the report with a [ValueError] instead of leaving the energy
    out. *)
Lemma strain_energy_mismatch_counterexample :
  Report.stiffness data_mismatch = Some [[1]]%R ∧
  Report.displacement data_mismatch = Some [1; 2]%R ∧
  ¬ Np.square 2 [[1]]%R ∧
  Report.generate_report data_mismatch = Raise ValueError.
Proof.
  assert (Hns : ¬ Np.square (length [1; 2]%R) [[1]]%R).
  { intros [Hlen _]. discriminate. }
  split; [reflexivity|]. split; [reflexivity|]. split; [exact Hns|].
  unfold Report.generate_report, Report.response_section. cbn.
  rewrite (decide_False (P := (1 = 0)%nat)) by lia.
  cbn [mbind result_bind mret result_ret].
  rewrite (strain_energy_mismatch _ _ Hns). reflexivity.
Qed.

(** ** Concrete runs of the generator *)

Example generator_tiny_run :
  ∃ g, Generator.create_test_hdf5 12 = Ok g ∧
    Generator.trace g
      = [Generator.Alloc (12, 12)%Z; Generator.Alloc (12, 12)%Z;
         Generator.Release (12, 12)%Z] ∧
    Generator.get2 (Generator.stiffness g) 3 3 = Some (Generator.diag_value 3) ∧
    Generator.get2 (Generator.stiffness g) 3 4 = Some 0%R ∧
    Generator.get2 (Generator.mass g) 3 3 = Some Generator.mass_value ∧
    Generator.get2 (Generator.mass g) 3 4 = Some 0%R.
Proof. eexists. split; [reflexivity|]. repeat split; reflexivity. Qed.

(** Below size 10 the chunk edge [size // 10] is zero. *)
Example generator_too_small : Generator.create_test_hdf5 9 = Raise ValueError.
Proof. reflexivity. Qed.

(** Across two neighbouring blocks the band is filled; inside a diagonal
    block only the diagonal is. *)
Example generator_band_entries :
  ∃ g, Generator.create_test_hdf5 1500 = Ok g ∧
    Generator.get2 (Generator.stiffness g) 999 1000 = Some (Generator.band_value 1) ∧
    Generator.get2 (Generator.stiffness g) 1000 999 = Some (Generator.band_value 1) ∧
    Generator.get2 (Generator.stiffness g) 998 999 = Some 0%R ∧
    Generator.get2 (Generator.stiffness g) 999 999 = Some (Generator.diag_value 999).
Proof.
  destruct (generated_stiffness 1500 ltac:(lia)) as (g & Hg & _ & Hcells).
  exists g. split; [exact Hg|].
  rewrite !Hcells by (vm_compute; lia). repeat split; reflexivity.
Qed.

Lemma stiffness_symmetric_positive_witness :
  ∃ g v d,
    Generator.create_test_hdf5 1500 = Ok g ∧
    Generator.get2 (Generator.stiffness g) 999 1000 = Some v ∧
    Generator.get2 (Generator.stiffness g) 1000 999 = Some v ∧
    Generator.get2 (Generator.stiffness g) 999 999 = Some d ∧
    (0 < d)%R.
Proof.
  destruct (proj1 stiffness_symmetric_positive 1500%Z ltac:(lia))
    as (g & Hg & Hcells).
  destruct (Hcells 999%nat 1000%nat ltac:(vm_compute; lia) ltac:(vm_compute; lia))
    as (v & d & H1 & H2 & H3 & H4).
  exists g, v, d.
  split; [exact Hg|]. split; [exact H1|]. split; [exact H2|].
  split; [exact H3 | exact H4].
Defined.

Lemma block_allocations_witness :
  (∃ g, Generator.create_test_hdf5 1500 = Ok g ∧
        length (Generator.allocations (Generator.trace g)) = 6%nat ∧
        (length (Generator.live_blocks (Generator.trace g)) <= 2)%nat) ∧
  Generator.create_test_hdf5 5 = Raise ValueError.
Proof.
  destruct (block_allocations 1500) as [Hbig _].
  destruct (block_allocations 5) as [_ Hsmall].
  split; [|apply Hsmall; lia].
  destruct (Hbig ltac:(lia))
    as (g & ks & ms & Hg & _ & _ & Hall & Hks & Hms & _ & _ & Hlive).
  exists g. split; [exact Hg|]. split.
  - rewrite Hall, length_app, Hks, Hms. reflexivity.
  - apply (Hlive (Generator.trace g)). reflexivity.
Defined.

(** C4 as the spec states it fails for the mass matrix at size 1001: the
    first array allocated for it has 1000 rows of 1001 entries, more than a
    block of edge 1000; and it is still held when the second strip, of one
    row, is allocated. *)
Lemma mass_strip_counterexample :
  ∃ g t,
    Generator.create_test_hdf5 1001 = Ok g ∧
    (1000, 1001)%Z ∈ Generator.allocations (Generator.trace g) ∧
    ¬ Generator.small_block (1000, 1001)%Z ∧
    t `prefix_of` Generator.trace g ∧
    Generator.live_blocks t = [(1000, 1001); (1, 1001)]%Z.
Proof.
  destruct (generated_trace 1001 ltac:(lia)) as (g & Hg & _ & _ & Htrace).
  assert (E : Generator.alloc_events None
                (Generator.stiffness_shapes 1001 ++ Generator.mass_shapes 1001)
              = [Generator.Alloc (1000, 1000); Generator.Alloc (1000, 1);
                 Generator.Release (1000, 1000); Generator.Alloc (1, 1000);
                 Generator.Release (1000, 1); Generator.Alloc (1, 1);
                 Generator.Release (1, 1000); Generator.Alloc (1000, 1001);
                 Generator.Release (1, 1); Generator.Alloc (1, 1001);
                 Generator.Release (1000, 1001)]%Z)
    by (vm_compute; reflexivity).
  rewrite E in Htrace.
  exists g, (take 10 (Generator.trace g)).
  split; [exact Hg|]. rewrite Htrace.
  split; [vm_compute; set_solver|].
  split; [unfold Generator.small_block, Generator.block_size; cbn; lia|].
  split; [apply prefix_take|].
  vm_compute. reflexivity.
Qed.

(** ** Further properties of the loader *)

Section LoaderSizes.
Import Loader.
Context {T : Type}.
Implicit Types (f : gmap string (h5obj T)) (v : list T) (m : list (list T)).

Lemma ceil_div_lower (n max_size : Z) :
  (1 <= max_size)%Z → (max_size < n)%Z →
  (max_size <= ceil_div n (n / max_size))%Z.
Proof.
  intros H1 H2. unfold ceil_div.
  pose proof (stride_ge_1 _ _ H1 H2) as Hs.
  pose proof (Z.mul_div_le n max_size ltac:(lia)) as Hle.
  apply Z.div_le_lower_bound; [lia|]. nia.
Qed.

Lemma ceil_div_exact (n max_size : Z) :
  (1 <= max_size)%Z → (max_size < n)%Z → (n mod max_size = 0)%Z →
  ceil_div n (n / max_size) = max_size.
Proof.
  intros H1 H2 Hmod. unfold ceil_div.
  pose proof (stride_ge_1 _ _ H1 H2) as Hs.
  pose proof (Z.div_mod n max_size ltac:(lia)) as Hd.
  set (s := (n / max_size)%Z) in *.
  symmetry. apply (Z.div_unique _ s max_size (s - 1)); lia.
Qed.

Lemma strided_length_ceil {A : Type} (step : Z) (a : list A) :
  (1 <= step)%Z →
  Z.of_nat (length (strided step a)) = ceil_div (Z.of_nat (length a)) step.
Proof.
  intros Hs. rewrite strided_length by done. unfold range_length, ceil_div.
  rewrite Z.sub_0_r. apply Z2Nat.id, Z.div_pos; lia.
Qed.

(** X1. Above [max_size] the loader never returns fewer than [max_size]
    elements, and returns exactly [max_size] when [max_size] divides the
    length. *)
Theorem subsample_at_least_max_size f path max_size v :
  f !! path = Some (H5Dataset (DS1 v)) →
  (1 <= max_size)%Z → (max_size < Z.of_nat (length v))%Z →
  ∃ sub,
    load_dataset_with_subsampling f path max_size true = Ok (Some (Arr1 sub)) ∧
    (max_size <= Z.of_nat (length sub))%Z ∧
    ((Z.of_nat (length v) mod max_size = 0)%Z → Z.of_nat (length sub) = max_size).
Proof.
  intros Hf H1 H2.
  pose proof (stride_ge_1 _ _ H1 H2) as Hs.
  eexists. split; [by apply load_large_vector|].
  rewrite strided_length_ceil by done. split.
  - by apply ceil_div_lower.
  - intros Hmod. by apply ceil_div_exact.
Qed.

Lemma strided_elem {A : Type} (step : Z) (a : list A) (x : A) :
  (1 <= step)%Z → x ∈ strided step a → x ∈ a.
Proof.
  intros Hs Hx. apply list_elem_of_lookup in Hx as [k Hk].
  rewrite strided_lookup in Hk by done. by eapply list_elem_of_lookup_2.
Qed.

(** X2. A matrix of [n] rows and [p] columns above [max_size] is returned
    with [ceil(n / stride)] rows of [ceil(p / stride)] entries each; a
    square matrix comes back square, with a dimension from [max_size] up to
    [2 * max_size - 1]. *)
Theorem subsample_matrix_shape f path max_size m (n p : nat) :
  f !! path = Some (H5Dataset (DS2 m)) →
  Np.dims n p m →
  (1 <= max_size)%Z → (max_size < Z.of_nat n)%Z →
  let stride := (Z.of_nat n / max_size)%Z in
  ∃ sub,
    load_dataset_with_subsampling f path max_size false = Ok (Some (Arr2 sub)) ∧
    Np.dims (Z.to_nat (ceil_div (Z.of_nat n) stride))
            (Z.to_nat (ceil_div (Z.of_nat p) stride)) sub ∧
    (p = n → ∃ d : nat, Np.square d sub ∧
                        (max_size <= Z.of_nat d < 2 * max_size)%Z).
Proof.
  intros Hf [Hlen Hrows] H1 H2 stride. subst stride. subst n.
  pose proof (stride_ge_1 _ _ H1 H2) as Hs.
  eexists. split; [by apply load_large_matrix|].
  set (s := (Z.of_nat (length m) / max_size)%Z) in *.
  assert (Hd : Np.dims (Z.to_nat (ceil_div (Z.of_nat (length m)) s))
                       (Z.to_nat (ceil_div (Z.of_nat p) s))
                       (strided s <$> strided s m)).
  { split.
    - rewrite length_fmap. rewrite <- strided_length_ceil by done. lia.
    - apply Forall_fmap, Forall_forall. intros row Hrow. simpl.
      apply strided_elem in Hrow; [|done].
      rewrite Forall_forall in Hrows. rewrite <- (Hrows row Hrow).
      rewrite <- strided_length_ceil by done. lia. }
  split; [exact Hd|].
  intros ->. exists (Z.to_nat (ceil_div (Z.of_nat (length m)) s)).
  split; [exact Hd|].
  pose proof (ceil_div_lower _ _ H1 H2). pose proof (ceil_div_bound _ _ H1 H2).
  fold s in H, H0. lia.
Qed.

Lemma strided_fmap {A B : Type} (g : A → B) (step : Z) (a : list A) :
  (1 <= step)%Z → strided step (g <$> a) = g <$> strided step a.
Proof.
  intros Hs. apply list_eq. intros k.
  by rewrite list_lookup_fmap, !strided_lookup, list_lookup_fmap.
Qed.

Lemma strided_one_rows m : strided 1 <$> strided 1 m = m.
Proof.
  rewrite strided_one. apply list_eq. intros k.
  rewrite list_lookup_fmap. destruct (m !! k); [|done].
  simpl. by rewrite strided_one.
Qed.

(** X3. Subsampling a subsample is subsampling with the product of the two
    strides, for vectors and for matrices: what [plot_matrix_structure]
    draws of a matrix that the loader has already thinned out is a strided
    view of the dataset on disk. *)
Theorem strided_strided (s1 s2 : Z) :
  (1 <= s1)%Z → (1 <= s2)%Z →
  (∀ v, strided s2 (strided s1 v) = strided (s1 * s2) v) ∧
  (∀ m, strided s2 <$> strided s2 (strided s1 <$> strided s1 m)
        = strided (s1 * s2) <$> strided (s1 * s2) m).
Proof.
  intros H1 H2.
  assert (Hv : ∀ (A : Type) (a : list A),
            strided s2 (strided s1 a) = strided (s1 * s2) a).
  { intros A a. apply list_eq. intros k.
    rewrite !strided_lookup by nia. f_equal. nia. }
  split; [apply Hv|].
  intros m. rewrite strided_fmap by done.
  rewrite <- list_fmap_compose, Hv.
  apply list_fmap_ext. intros _ row _. simpl. apply Hv.
Qed.

(** X4. [plot_matrix_structure] draws every matrix of fewer than 400 rows
    whole; from 400 rows on it draws between 200 and 399 rows, the entry
    [(r, c)] of the drawing being the entry [(r * step, c * step)] of the
    matrix for [step = n // 200]. *)
Theorem matrix_plot_size m :
  let n := Z.of_nat (length m) in
  ((n < 400)%Z → Analysis.matrix_plot m = m) ∧
  ((400 <= n)%Z →
     let step := (n / 200)%Z in
     (2 <= step)%Z ∧
     (200 <= Z.of_nat (length (Analysis.matrix_plot m)) < 400)%Z ∧
     ∀ r c : nat,
       Analysis.matrix_plot m !! r ≫= (.!! c) =
       m !! (r * Z.to_nat step)%nat ≫= (.!! (c * Z.to_nat step)%nat)).
Proof.
  intros n. subst n. unfold Analysis.matrix_plot. split.
  - intros Hn. destruct (300 <? _)%Z eqn:E; [|done].
    apply Z.ltb_lt in E.
    rewrite (stride_below_double _ 200) by lia.
    change (Z.max 1 1) with 1%Z. apply strided_one_rows.
  - intros Hn. cbv zeta.
    rewrite (proj2 (Z.ltb_lt _ _)) by lia.
    pose proof (stride_ge_1 (Z.of_nat (length m)) 200 ltac:(lia) ltac:(lia)) as Hs.
    assert (H2 : (2 <= Z.of_nat (length m) / 200)%Z)
      by (apply Z.div_le_lower_bound; lia).
    rewrite Z.max_r by lia.
    split; [done|]. split.
    + rewrite length_fmap, strided_length_ceil by done.
      pose proof (ceil_div_lower (Z.of_nat (length m)) 200 ltac:(lia) ltac:(lia)).
      pose proof (ceil_div_bound (Z.of_nat (length m)) 200 ltac:(lia) ltac:(lia)).
      lia.
    + intros r c. rewrite list_lookup_fmap. rewrite strided_lookup by exact Hs.
      destruct (m !! _) as [row|]; [|done].
      simpl. by apply strided_lookup.
Qed.

End LoaderSizes.

(** ** Loading a whole file *)

Section LoadingFacts.
Import Loader Analysis.
Context {T : Type}.
Implicit Types (f : gmap string (h5obj T)) (data : gmap string (ndarray T)).

Lemma load_present f path max_size is_vector (loaded : option (ndarray T)) :
  load_dataset_with_subsampling f path max_size is_vector = Ok loaded →
  is_Some loaded ↔ ∃ d, f !! path = Some (H5Dataset d).
Proof.
  unfold load_dataset_with_subsampling. intros Hload.
  destruct (f !! path) as [[|d]|]; simplify_eq.
  - split; [by intros [? ?] | by intros [? ?]].
  - split; [eauto|]. intros _.
    destruct (max_size <? shape0 d)%Z; [|by simplify_eq; eauto].
    destruct (max_size =? 0)%Z; [done|].
    destruct (if is_vector then _ else _); simplify_eq. eauto.
  - split; [by intros [? ?] | by intros [? ?]].
Qed.

Lemma store_present (key k : string) (loaded : option (ndarray T)) data :
  is_Some (store k loaded data !! key) ↔
  (key = k ∧ is_Some loaded) ∨ is_Some (data !! key).
Proof.
  unfold store. destruct loaded as [a|].
  - destruct (decide (key = k)) as [->|Hne].
    + rewrite lookup_insert_eq. split; [intros _; left; eauto | eauto].
    + rewrite lookup_insert_ne by done. split; [eauto|].
      intros [[? _]|?]; done.
  - split; [eauto|]. intros [[_ [? ?]]|?]; done.
Qed.

Lemma load_all_inv f max_size data :
  load_all f max_size = Ok data →
  ∃ k m fo u,
    load_dataset_with_subsampling f "/matrices/stiffness" max_size false = Ok k ∧
    load_dataset_with_subsampling f "/matrices/mass" max_size false = Ok m ∧
    load_dataset_with_subsampling f "/vectors/force" max_size true = Ok fo ∧
    load_dataset_with_subsampling f "/results/displacement" max_size true = Ok u ∧
    data = store "displacement" u (store "force" fo (store "mass" m
             (store "stiffness" k ∅))).
Proof.
  unfold load_all. intros Hall.
  destruct (load_dataset_with_subsampling f "/matrices/stiffness" _ _) as [k|]; [|done].
  destruct (load_dataset_with_subsampling f "/matrices/mass" _ _) as [m|]; [|done].
  destruct (load_dataset_with_subsampling f "/vectors/force" _ _) as [fo|]; [|done].
  destruct (load_dataset_with_subsampling f "/results/displacement" _ _) as [u|]; [|done].
  exists k, m, fo, u. repeat split; try done. by injection Hall as <-.
Qed.

(** X5. A file that does not exist gives [None] without an exception; a
    dictionary that is returned has a key exactly for each of the four
    paths that names a dataset in the file. *)
Theorem load_hdf5_data_keys (disk : gmap string (gmap string (h5obj T)))
    (filename : string) (max_size : Z) :
  (disk !! filename = None → load_hdf5_data disk filename max_size = Ok None) ∧
  (∀ f data, disk !! filename = Some f →
     load_hdf5_data disk filename max_size = Ok (Some data) →
     ∀ key, is_Some (data !! key) ↔
       ∃ path d, f !! path = Some (H5Dataset d) ∧
         ((key = "stiffness" ∧ path = "/matrices/stiffness") ∨
          (key = "mass" ∧ path = "/matrices/mass") ∨
          (key = "force" ∧ path = "/vectors/force") ∨
          (key = "displacement" ∧ path = "/results/displacement"))%string).
Proof.
  unfold load_hdf5_data. split; [by intros ->|].
  intros f data -> Hrun key.
  destruct (load_all f max_size) as [data'|e] eqn:Hall;
    [|destruct (caught_on_load e); done].
  injection Hrun as <-.
  apply load_all_inv in Hall as (k & m & fo & u & Hk & Hm & Hf & Hu & ->).
  apply load_present in Hk, Hm, Hf, Hu.
  rewrite !store_present, lookup_empty, Hk, Hm, Hf, Hu. split.
  - intros [[-> [d Hd]]|[[-> [d Hd]]|[[-> [d Hd]]|[[-> [d Hd]]|[? ?]]]]];
      try done; eexists _, d; (split; [exact Hd|]); tauto.
  - intros (path & d & Hd & [[-> ->]|[[-> ->]|[[-> ->]|[-> ->]]]]); eauto 10.
Qed.

(** X6. With [max_size = 0] every non-empty dataset among the four makes
    the division [n // max_size] fail, and [load_hdf5_data] lets the
    [ZeroDivisionError] through: its [except] clause does not name it. *)
Theorem load_hdf5_data_zero_max_size (disk : gmap string (gmap string (h5obj T)))
    (filename path : string) f (d : dataset T) :
  disk !! filename = Some f →
  path ∈ ["/matrices/stiffness"; "/matrices/mass"; "/vectors/force";
          "/results/displacement"]%string →
  f !! path = Some (H5Dataset d) → (0 < shape0 d)%Z →
  load_hdf5_data disk filename 0 = Raise ZeroDivisionError.
Proof.
  intros Hdisk Hpath Hd Hn. unfold load_hdf5_data. rewrite Hdisk.
  assert (Hone : ∀ p iv, load_dataset_with_subsampling f p 0 iv = Raise ZeroDivisionError
                         ∨ ∃ r, load_dataset_with_subsampling f p 0 iv = Ok r).
  { intros p iv. unfold load_dataset_with_subsampling.
    destruct (f !! p) as [[|d']|]; eauto.
    destruct (0 <? shape0 d')%Z; eauto. }
  assert (Hhit : ∀ iv, load_dataset_with_subsampling f path 0 iv = Raise ZeroDivisionError).
  { intros iv. unfold load_dataset_with_subsampling. rewrite Hd.
    by rewrite (proj2 (Z.ltb_lt _ _) Hn). }
  assert (Hall : load_all f 0 = Raise ZeroDivisionError).
  { unfold load_all.
    destruct (Hone "/matrices/stiffness"%string false) as [->|[k Hk]]; [done|].
    destruct (Hone "/matrices/mass"%string false) as [Hm|[m Hm]];
      [by rewrite Hk, Hm|].
    destruct (Hone "/vectors/force"%string true) as [Hf|[fo Hf]];
      [by rewrite Hk, Hm, Hf|].
    destruct (Hone "/results/displacement"%string true) as [Hu|[u Hu]];
      [by rewrite Hk, Hm, Hf, Hu|].
    exfalso. rewrite !elem_of_cons, elem_of_nil in Hpath.
    destruct Hpath as [->|[->|[->|[->|[]]]]];
      [rewrite Hhit in Hk|rewrite Hhit in Hm|rewrite Hhit in Hf|rewrite Hhit in Hu];
      done. }
  by rewrite Hall.
Qed.

End LoadingFacts.

Section LayoutFacts.
Import Loader Analysis.
Context {T : Type}.
Implicit Types (f : gmap string (h5obj T)) (data : gmap string (ndarray T)).

Lemma strided_dims (s : Z) (m : list (list T)) (n p : nat) :
  Np.dims n p m → (1 <= s)%Z →
  Np.dims (range_length 0 (Z.of_nat n) s) (range_length 0 (Z.of_nat p) s)
          (strided s <$> strided s m).
Proof.
  intros [Hlen Hrows] Hs. split.
  - by rewrite length_fmap, strided_length, Hlen.
  - apply Forall_fmap, Forall_forall. intros row Hrow. simpl.
    apply list_elem_of_lookup in Hrow as [k Hk].
    rewrite strided_lookup in Hk by done.
    rewrite Forall_lookup in Hrows.
    by rewrite strided_length, (Hrows _ _ Hk).
Qed.

(** What the loader returns for a vector and for a matrix when
    [max_size >= 1]: the array, thinned out with the stride [loaded_stride]. *)
Lemma load_vector_any f path max_size (v : list T) :
  f !! path = Some (H5Dataset (DS1 v)) → (1 <= max_size)%Z →
  ∃ s, (1 <= s)%Z ∧
       (s = if (max_size <? Z.of_nat (length v))%Z
            then Z.of_nat (length v) / max_size else 1)%Z ∧
       load_dataset_with_subsampling f path max_size true
         = Ok (Some (Arr1 (strided s v))).
Proof.
  intros Hf H1. destruct (max_size <? Z.of_nat (length v))%Z eqn:E.
  - apply Z.ltb_lt in E. eexists. split; [by apply stride_ge_1|].
    split; [done|]. by apply load_large_vector.
  - exists 1%Z. split; [lia|]. split; [done|]. rewrite strided_one.
    unfold load_dataset_with_subsampling. rewrite Hf. simpl. by rewrite E.
Qed.

Lemma load_matrix_any f path max_size (m : list (list T)) :
  f !! path = Some (H5Dataset (DS2 m)) → (1 <= max_size)%Z →
  ∃ s, (1 <= s)%Z ∧
       (s = if (max_size <? Z.of_nat (length m))%Z
            then Z.of_nat (length m) / max_size else 1)%Z ∧
       load_dataset_with_subsampling f path max_size false
         = Ok (Some (Arr2 (strided s <$> strided s m))).
Proof.
  intros Hf H1. destruct (max_size <? Z.of_nat (length m))%Z eqn:E.
  - apply Z.ltb_lt in E. eexists. split; [by apply stride_ge_1|].
    split; [done|]. by apply load_large_matrix.
  - exists 1%Z. split; [lia|]. split; [done|].
    rewrite strided_one.
    assert (strided 1 <$> m = m) as ->.
    { apply list_eq. intros k. rewrite list_lookup_fmap.
      destruct (m !! k); [|done]. simpl. by rewrite strided_one. }
    unfold load_dataset_with_subsampling. rewrite Hf. simpl. by rewrite E.
Qed.

Lemma load_all_layout f (max_size : Z) (n : nat) :
  follows_layout n f → (1 <= max_size)%Z →
  ∃ data K M F U (s : Z),
    load_all f max_size = Ok data ∧
    (1 <= s)%Z ∧
    (s = if (max_size <? Z.of_nat n)%Z then Z.of_nat n / max_size else 1)%Z ∧
    data !! "stiffness"%string = Some (Arr2 K) ∧
    data !! "mass"%string = Some (Arr2 M) ∧
    data !! "force"%string = Some (Arr1 F) ∧
    data !! "displacement"%string = Some (Arr1 U) ∧
    Np.square (range_length 0 (Z.of_nat n) s) K ∧
    Np.square (range_length 0 (Z.of_nat n) s) M ∧
    length F = range_length 0 (Z.of_nat n) s ∧
    length U = range_length 0 (Z.of_nat n) s.
Proof.
  intros ((K & HK & HKsq) & (M & HM & HMsq) & (F & HF & HFl) & (U & HU & HUl)) H1.
  destruct (load_matrix_any f _ max_size K HK H1) as (sK & HsK & EsK & LK).
  destruct (load_matrix_any f _ max_size M HM H1) as (sM & HsM & EsM & LM).
  destruct (load_vector_any f _ max_size F HF H1) as (sF & HsF & EsF & LF).
  destruct (load_vector_any f _ max_size U HU H1) as (sU & HsU & EsU & LU).
  pose proof HKsq as [HKl _]. pose proof HMsq as [HMl _].
  rewrite HKl in EsK. rewrite HMl in EsM. rewrite HFl in EsF. rewrite HUl in EsU.
  assert (sM = sK) as -> by congruence.
  assert (sF = sK) as -> by congruence.
  assert (sU = sK) as -> by congruence.
  eexists _, _, _, _, _, sK.
  split; [unfold load_all; rewrite LK, LM, LF, LU; reflexivity|].
  cbn [store].
  split; [done|]. split; [done|].
  split; [done|]. split; [done|]. split; [done|]. split; [done|].
  split; [by apply strided_dims|]. split; [by apply strided_dims|].
  split; [by rewrite strided_length, HFl|].
  by rewrite strided_length, HUl.
Qed.

(** X7. For a file that follows the layout for [n] degrees of freedom and
    any [max_size >= 1], all four arrays are loaded and they agree in
    dimension: one stride serves all four, the two matrices come back
    square of the dimension that is the length of both vectors. *)
Theorem load_hdf5_data_conformant (disk : gmap string (gmap string (h5obj T)))
    (filename : string) (max_size : Z) f (n : nat) :
  disk !! filename = Some f → follows_layout n f → (1 <= max_size)%Z →
  ∃ data K M F U (d : nat),
    load_hdf5_data disk filename max_size = Ok (Some data) ∧
    data !! "stiffness"%string = Some (Arr2 K) ∧
    data !! "mass"%string = Some (Arr2 M) ∧
    data !! "force"%string = Some (Arr1 F) ∧
    data !! "displacement"%string = Some (Arr1 U) ∧
    Np.square d K ∧ Np.square d M ∧ length F = d ∧ length U = d ∧
    ((Z.of_nat n <= max_size)%Z → d = n) ∧
    ((1 <= n)%nat → (1 <= d)%nat).
Proof.
  intros Hdisk Hlay H1.
  destruct (load_all_layout f max_size n Hlay H1)
    as (data & K & M & F & U & s & Hall & Hs & Es & HK & HM & HF & HU & Hsq).
  exists data, K, M, F, U, (range_length 0 (Z.of_nat n) s).
  split; [unfold load_hdf5_data; by rewrite Hdisk, Hall|].
  split; [done|]. split; [done|]. split; [done|]. split; [done|].
  destruct Hsq as (? & ? & ? & ?). repeat (split; [done|]).
  split.
  - intros Hsmall. rewrite (proj2 (Z.ltb_ge _ _) Hsmall) in Es. subst s.
    unfold range_length. rewrite Z.div_1_r. lia.
  - intros Hn. apply (range_length_spec 0 (Z.of_nat n) s 0%nat Hs). lia.
Qed.

End LayoutFacts.

Section PipelineFacts.
Import Loader Analysis.

(** X8. Loading composes with the report: for a file that follows the
    layout with at least one degree of freedom and any [max_size >= 1],
    the loaded dictionary reads as report data, the report completes and
    it carries a strain-energy line, the loaded stiffness matrix having the
    dimension of the loaded displacement vector. *)
Theorem load_then_report (disk : gmap string (gmap string (h5obj R)))
    (filename : string) (max_size : Z) f (n : nat) :
  disk !! filename = Some f → follows_layout n f →
  (1 <= max_size)%Z → (1 <= n)%nat →
  ∃ data rd lines K U,
    load_hdf5_data disk filename max_size = Ok (Some data) ∧
    report_data data = Some rd ∧
    Report.stiffness rd = Some K ∧ Report.displacement rd = Some U ∧
    Np.square (length U) K ∧
    Report.generate_report rd = Ok lines ∧
    Report.StrainEnergy (0.5 * Spec.quadratic_form K U)%R ∈ lines.
Proof.
  intros Hdisk Hlay H1 Hn.
  destruct (load_all_layout f max_size n Hlay H1)
    as (data & K & M & F & U & s & Hall & Hs & _ & HK & HM & HF & HU
        & HKsq & HMsq & HFl & HUl).
  assert (Hload : load_hdf5_data disk filename max_size = Ok (Some data))
    by (unfold load_hdf5_data; by rewrite Hdisk, Hall).
  assert (Hd : (1 <= range_length 0 (Z.of_nat n) s)%nat)
    by (apply (range_length_spec 0 (Z.of_nat n) s 0%nat Hs); lia).
  set (rd := {| Report.stiffness := Some K; Report.mass := Some M;
                Report.force := Some F; Report.displacement := Some U |}).
  assert (Hrd : report_data data = Some rd).
  { unfold report_data, matrix_entry, vector_entry. by rewrite HK, HM, HF, HU. }
  assert (HUne : U ≠ []) by (intros ->; simpl in HUl; lia).
  assert (Hsq : ∀ K', Report.stiffness rd = Some K' → Np.square (length U) K').
  { intros K' [= <-]. by rewrite HUl. }
  destruct (generate_report_ok rd F U eq_refl eq_refl HUne Hsq)
    as (top & head & rms & _ & _ & Hrun).
  exists data, rd. eexists. exists K, U.
  split; [done|]. split; [done|]. split; [done|]. split; [done|].
  split; [by rewrite HUl|]. split; [exact Hrun|].
  cbn [Report.stiffness rd]. set_solver.
Qed.

End PipelineFacts.

(** ** Further properties of the generator *)

Section MassFacts.
Import Generator.
Implicit Types (a block : list (list R)).

Lemma fill_diagonal_cols_dims (h w : nat) a (c0 c1 : Z) (v : R) :
  Np.dims h w a → Np.dims h w (fill_diagonal_cols a c0 c1 v).
Proof.
  intros Hd. apply dims_imap; [done|].
  intros r row _. case_decide; [by rewrite length_insert | done].
Qed.

Lemma fill_diagonal_cols_get2 (h w : nat) a (c0 c1 : Z) (v : R) (r c : nat) :
  Np.dims h w a → (r < h)%nat → (c < w)%nat →
  (Z.to_nat c0 + h <= Z.to_nat c1)%nat →
  get2 (fill_diagonal_cols a c0 c1 v) r c =
    if decide (c = Z.to_nat c0 + r)%nat then Some v else get2 a r c.
Proof.
  intros Hd Hr Hc Hfit. unfold get2, fill_diagonal_cols.
  destruct (dims_lookup h w a r Hd Hr) as (row & Hrow & Hw).
  rewrite list_lookup_imap, Hrow. simpl.
  rewrite decide_True by lia. rewrite list_lookup_insert.
  destruct (decide (c = Z.to_nat c0 + r)%nat) as [->|Hne].
  - by rewrite decide_True by lia.
  - by rewrite decide_False by lia.
Qed.

Lemma mass_block_spec (size i : Z) :
  block_start size i →
  let bh := Z.to_nat (Z.min (i + block_size) size - i) in
  let n := Z.to_nat size in
  Np.dims bh n (mass_block size i) ∧
  ∀ r c, (r < bh)%nat → (c < n)%nat →
    get2 (mass_block size i) r c =
      Some (if decide (c = Z.to_nat i + r)%nat then mass_value else 0%R).
Proof.
  intros (a & _ & Hi) bh n. unfold mass_block, block_size in *.
  assert (Hz : Np.dims bh n (zeros (Z.min (i + 1000) size - i) size))
    by apply dims_zeros.
  split; [by apply fill_diagonal_cols_dims|].
  intros r c Hr Hc.
  rewrite (fill_diagonal_cols_get2 bh n) by (done || (subst bh; lia)).
  case_decide; [done|]. apply get2_zeros; subst bh n; lia.
Qed.

(** The mass loop as a whole: every cell of the dataset ends as the mass
    per degree of freedom on the diagonal and as zero elsewhere. *)
Lemma fill_mass_spec (size : Z) (m : memory) :
  let n := Z.to_nat size in
  let st := fill_mass size (zeros size size, m) in
  Np.dims n n st.1 ∧
  ∀ r c, (r < n)%nat → (c < n)%nat →
    get2 st.1 r c = Some (if decide (r = c) then mass_value else 0%R).
Proof.
  intros n st. subst st. unfold fill_mass.
  set (obs := λ (st : state) (k : nat * nat),
         if decide (k.1 < n ∧ k.2 < n)%nat then get2 st.1 k.1 k.2 else None).
  set (covers := λ (i : Z) (_ : unit) (k : nat * nat),
         (k.1 < n ∧ k.2 < n)%nat ∧
         (i <= Z.of_nat k.1 < Z.min (i + block_size) size)%Z).
  set (target := λ k : nat * nat,
         Some (if decide (k.1 = k.2) then mass_value else 0%R)).
  assert (Hdec : ∀ i j k, covers i j k ∨ ¬ covers i j k).
  { intros i j [r c]. subst covers. cbn.
    destruct (decide ((r < n ∧ c < n)%nat)); [|tauto].
    destruct (decide (i <= Z.of_nat r < Z.min (i + block_size) size)%Z); tauto. }
  assert (Hwf : ∀ s i (j : unit), Np.dims n n s.1 → block_start size i → True →
                                  Np.dims n n (mass_body size s i).1).
  { intros s i j Hd _ _. rewrite mass_body_eq. cbn [fst].
    by apply write_region_dims. }
  assert (Hbin : ∀ s i (j : unit) k, Np.dims n n s.1 → block_start size i → True →
                   covers i j k → obs (mass_body size s i) k = target k).
  { intros s i j [r c] Hd Hi _ ([Hr Hc] & Hri).
    destruct (mass_block_spec size i Hi) as [Hbd Hcells].
    destruct Hi as (a & _ & Hi).
    subst obs target. rewrite mass_body_eq.
    cbn [fst snd] in *. rewrite decide_True by done.
    unfold block_size in *.
    rewrite (write_region_get2 n n _ _ _ _ _ _ _ _ Hd Hbd) by lia.
    rewrite decide_True by lia.
    rewrite Hcells by lia. f_equal.
    destruct (decide (r = c)) as [->|Hne].
    - by rewrite decide_True by lia.
    - by rewrite decide_False by lia. }
  assert (Hbout : ∀ s i (j : unit) k, Np.dims n n s.1 → block_start size i → True →
                    ¬ covers i j k → obs (mass_body size s i) k = obs s k).
  { intros s i j [r c] Hd Hi _ Hnc.
    destruct (mass_block_spec size i Hi) as [Hbd _].
    destruct Hi as (a & _ & Hi).
    subst obs covers. rewrite mass_body_eq.
    cbn [fst snd] in *. case_decide as Hdom; [|done].
    unfold block_size in *.
    rewrite (write_region_get2 n n _ _ _ _ _ _ _ _ Hd Hbd) by lia.
    rewrite decide_False; [done|]. lia. }
  destruct (nested_loop_spec (λ s i (_ : unit), mass_body size s i)
              (λ s : state, Np.dims n n s.1) (block_start size) (λ _, True)
              obs covers target Hdec Hwf Hbin Hbout
              (range 0 size block_size) [()] (zeros size size, m))
    as [Hdims Hcells].
  { apply dims_zeros. }
  { apply Forall_forall. intros x Hx. by apply block_start_range. }
  { by constructor. }
  cbn [foldl] in Hdims, Hcells.
  split; [exact Hdims|].
  intros r c Hr Hc. destruct (Hcells (r, c)) as [Hin _].
  subst obs target covers. cbn in Hin. rewrite decide_True in Hin by done.
  apply Hin.
  exists (Z.of_nat r / block_size * block_size)%Z, ().
  rewrite block_start_range. unfold block_start, block_size.
  pose proof (Z.div_mod (Z.of_nat r) 1000 ltac:(lia)).
  pose proof (Z.mod_pos_bound (Z.of_nat r) 1000 ltac:(lia)).
  split; [exists (Z.of_nat r / 1000)%Z; lia|].
  split; [set_solver|]. lia.
Qed.

(** From size 10 on the generator returns, with both matrices known
    cell by cell. *)
Lemma generated_matrices (size : Z) :
  (10 <= size)%Z →
  let n := Z.to_nat size in
  ∃ g, create_test_hdf5 size = Ok g ∧
       Np.dims n n (stiffness g) ∧
       (∀ r c, (r < n)%nat → (c < n)%nat →
          get2 (stiffness g) r c
            = Some (stiffness_entry (Z.of_nat r) (Z.of_nat c))) ∧
       Np.dims n n (mass g) ∧
       (∀ r c, (r < n)%nat → (c < n)%nat →
          get2 (mass g) r c = Some (if decide (r = c) then mass_value else 0%R)).
Proof.
  intros Hsize n. eexists. split; [by apply create_test_hdf5_ok|].
  cbn [stiffness mass].
  pose proof (fill_stiffness_spec size no_blocks) as HK. cbv zeta in HK.
  pose proof (fill_mass_spec size
                (fill_stiffness size (zeros size size, no_blocks)).2) as HM.
  cbv zeta in HM.
  destruct HK as [HKd HKc]. destruct HM as [HMd HMc]. done.
Qed.

(** X9. From size 10 on, the mass matrix that the generator writes has
    the mass per degree of freedom, 0.054, on the diagonal and zero
    everywhere else. *)
Theorem mass_matrix_diagonal (size : Z) (r c : nat) :
  (10 <= size)%Z → (r < Z.to_nat size)%nat → (c < Z.to_nat size)%nat →
  ∃ g v, create_test_hdf5 size = Ok g ∧ get2 (mass g) r c = Some v ∧
         (r = c → v = 0.054%R) ∧ (r ≠ c → v = 0%R) ∧ (v ≠ 0%R ↔ r = c).
Proof.
  intros Hsize Hr Hc.
  destruct (generated_matrices size Hsize) as (g & Hg & _ & _ & _ & Hcells).
  exists g. eexists. split; [exact Hg|].
  rewrite Hcells by done. split; [reflexivity|].
  destruct (decide (r = c)) as [->|Hne]; unfold mass_value;
    repeat split; try done; try (intros; lra); try (intros H; by destruct H).
Qed.

End MassFacts.

Section PatternFacts.
Import Generator.

Lemma band_value_neg (dist : Z) : (band_value dist < 0)%R.
Proof.
  unfold band_value. pose proof (exp_pos (- IZR dist / 10.0)). nra.
Qed.

Lemma band_value_bounds (dist : Z) :
  (0 <= dist)%Z → (-2.1e10 <= band_value dist < 0)%R.
Proof.
  intros Hd. split; [|apply band_value_neg].
  unfold band_value.
  assert (Hx : (- IZR dist / 10.0 <= 0)%R).
  { apply IZR_le in Hd. lra. }
  assert (He : (exp (- IZR dist / 10.0) <= 1)%R).
  { destruct Hx as [Hlt|Heq].
    - apply exp_increasing in Hlt. rewrite exp_0 in Hlt. lra.
    - rewrite Heq, exp_0. lra. }
  pose proof (exp_pos (- IZR dist / 10.0)). nra.
Qed.

Lemma diag_value_bounds (k : Z) : (6.3e10 <= diag_value k <= 7.7e10)%R.
Proof.
  unfold diag_value. pose proof (SIN_bound (IZR k / 1000.0)). lra.
Qed.

(** The three cases of an entry, by the blocks [r // 1000] and
    [c // 1000] of its row and column. *)
Lemma stiffness_entry_cases (r c : Z) :
  (0 <= r)%Z → (0 <= c)%Z →
  (r = c ∧ stiffness_entry r c = diag_value r) ∨
  (r ≠ c ∧ (r / 1000 ≠ c / 1000)%Z ∧ (Z.abs (r - c) <= 50)%Z ∧
     stiffness_entry r c = band_value (Z.abs (r - c))) ∨
  (r ≠ c ∧ ((r / 1000 = c / 1000)%Z ∨ (50 < Z.abs (r - c))%Z) ∧
     stiffness_entry r c = 0%R).
Proof.
  intros Hr Hc. unfold stiffness_entry, block_size.
  pose proof (Z.div_mod r 1000 ltac:(lia)) as Hdr.
  pose proof (Z.mod_pos_bound r 1000 ltac:(lia)) as Hmr.
  pose proof (Z.div_mod c 1000 ltac:(lia)) as Hdc.
  pose proof (Z.mod_pos_bound c 1000 ltac:(lia)) as Hmc.
  set (qr := (r / 1000)%Z) in *. set (qc := (c / 1000)%Z) in *.
  destruct (qr * 1000 =? qc * 1000)%Z eqn:Eb.
  - apply Z.eqb_eq in Eb.
    destruct (r =? c)%Z eqn:Erc.
    + apply Z.eqb_eq in Erc. by left.
    + apply Z.eqb_neq in Erc. right. right.
      split; [done|]. split; [left; lia | done].
  - apply Z.eqb_neq in Eb. right.
    assert (r ≠ c) by (intros ->; subst qr qc; lia).
    destruct (Z.abs (qr * 1000 - qc * 1000) <=? 1000)%Z eqn:En.
    + destruct (Z.abs (r - c) <=? 50)%Z eqn:Ew.
      * apply Z.leb_le in Ew. left. repeat split; (done || lia).
      * apply Z.leb_gt in Ew. right. split; [done|]. split; [right; lia | done].
    + apply Z.leb_gt in En. right. split; [done|]. split; [right; lia | done].
Qed.

(** X10. The sparsity pattern of the stiffness matrix generated from
    size 10 on: an entry is non-zero exactly on the diagonal and, off the
    diagonal, where the band of width 50 crosses from one block of 1000
    into the next; inside a diagonal block nothing but the diagonal is
    filled. *)
Theorem stiffness_pattern (size : Z) (r c : nat) :
  (10 <= size)%Z → (r < Z.to_nat size)%nat → (c < Z.to_nat size)%nat →
  ∃ g v, create_test_hdf5 size = Ok g ∧ get2 (stiffness g) r c = Some v ∧
         (v ≠ 0%R ↔
            r = c ∨ ((Z.abs (Z.of_nat r - Z.of_nat c) <= 50)%Z ∧
                     (Z.of_nat r / 1000 ≠ Z.of_nat c / 1000)%Z)).
Proof.
  intros Hsize Hr Hc.
  destruct (generated_stiffness size Hsize) as (g & Hg & _ & Hcells).
  exists g. eexists. split; [exact Hg|]. rewrite Hcells by done.
  split; [reflexivity|].
  destruct (stiffness_entry_cases (Z.of_nat r) (Z.of_nat c) ltac:(lia) ltac:(lia))
    as [[Heq ->]|[(Hne & Hblk & Hw & ->)|(Hne & Hwhy & ->)]].
  - pose proof (diag_value_pos (Z.of_nat r)). split; [intros _; left; lia | lra].
  - pose proof (band_value_neg (Z.abs (Z.of_nat r - Z.of_nat c))).
    split; [intros _; by right | lra].
  - split; [done|]. intros [->|[Hw Hblk]]; [done|].
    destruct Hwhy; [done | lia].
Qed.

(** X11. The sizes of the entries, from size 10 on: every diagonal entry
    lies between 6.3e10 and 7.7e10, every other entry between -2.1e10
    and 0, so each diagonal entry is at least three times any single
    off-diagonal entry in magnitude. *)
Theorem stiffness_entry_sizes (size : Z) (r c : nat) :
  (10 <= size)%Z → (r < Z.to_nat size)%nat → (c < Z.to_nat size)%nat →
  ∃ g v, create_test_hdf5 size = Ok g ∧ get2 (stiffness g) r c = Some v ∧
         (r = c → (6.3e10 <= v <= 7.7e10)%R) ∧
         (r ≠ c → (-2.1e10 <= v <= 0)%R).
Proof.
  intros Hsize Hr Hc.
  destruct (generated_stiffness size Hsize) as (g & Hg & _ & Hcells).
  exists g. eexists. split; [exact Hg|]. rewrite Hcells by done.
  split; [reflexivity|].
  destruct (stiffness_entry_cases (Z.of_nat r) (Z.of_nat c) ltac:(lia) ltac:(lia))
    as [[Heq ->]|[(Hne & Hblk & Hw & ->)|(Hne & Hwhy & ->)]].
  - split; [intros _; apply diag_value_bounds | intros ?; lia].
  - split; [intros ?; lia|]. intros _.
    pose proof (band_value_bounds (Z.abs (Z.of_nat r - Z.of_nat c)) ltac:(lia)). lra.
  - split; [intros ?; lia|]. intros _. lra.
Qed.

(** X12. Rows that end a block are not diagonally dominant: in a row
    [r] with [r % 1000 = 999] that has nine columns to its right, the nine
    entries right of the diagonal alone outweigh the diagonal entry. *)
Theorem boundary_row_not_dominant (size : Z) (r : nat) :
  (Z.of_nat r mod 1000 = 999)%Z → (Z.of_nat r + 9 < size)%Z →
  ∃ g d (right : list R),
    create_test_hdf5 size = Ok g ∧
    get2 (stiffness g) r r = Some d ∧
    ((λ k, get2 (stiffness g) r (r + k)%nat) <$> seq 1 9)
      = Some <$> right ∧
    (Rabs d < Np.sum (Np.abs right))%R.
Proof.
  intros Hmod Hfit.
  pose proof (Z.div_mod (Z.of_nat r) 1000 ltac:(lia)) as Hdr.
  destruct (generated_stiffness size ltac:(lia)) as (g & Hg & _ & Hcells).
  assert (Hcell : ∀ k : nat, (1 <= k <= 9)%nat →
            get2 (stiffness g) r (r + k)%nat
              = Some (band_value (Z.of_nat k))).
  { intros k Hk. rewrite Hcells by lia. f_equal.
    assert (Hq : (Z.of_nat (r + k) / 1000 = Z.of_nat r / 1000 + 1)%Z).
    { symmetry. apply (Z.div_unique _ 1000 _ (Z.of_nat k - 1)); lia. }
    destruct (stiffness_entry_cases (Z.of_nat r) (Z.of_nat (r + k))
                ltac:(lia) ltac:(lia))
      as [[Heq _]|[(_ & _ & _ & ->)|(_ & Hwhy & _)]]; [lia| |].
    - f_equal. lia.
    - destruct Hwhy; lia. }
  exists g, (diag_value (Z.of_nat r)), (band_value <$> (Z.of_nat <$> seq 1 9)).
  split; [exact Hg|].
  split; [rewrite Hcells by lia; by rewrite stiffness_entry_diag|].
  split.
  { cbn [seq fmap list_fmap]. rewrite !Hcell by lia. reflexivity. }
  pose proof (diag_value_bounds (Z.of_nat r)) as Hd.
  rewrite Rabs_pos_eq by lra.
  assert (Hb : ∀ k : Z, (1 <= k <= 9)%Z →
            (2.1e10 * (1 - IZR k / 10) <= Rabs (band_value k))%R).
  { intros k Hk. pose proof (band_value_neg k).
    rewrite Rabs_left by done. unfold band_value.
    pose proof (exp_ineq1_le (- IZR k / 10.0)). nra. }
  cbn [seq fmap list_fmap Np.abs Np.sum foldr].
  pose proof (Hb 1%Z ltac:(lia)). pose proof (Hb 2%Z ltac:(lia)).
  pose proof (Hb 3%Z ltac:(lia)). pose proof (Hb 4%Z ltac:(lia)).
  pose proof (Hb 5%Z ltac:(lia)). pose proof (Hb 6%Z ltac:(lia)).
  pose proof (Hb 7%Z ltac:(lia)). pose proof (Hb 8%Z ltac:(lia)).
  pose proof (Hb 9%Z ltac:(lia)).
  change (Z.of_nat 1) with 1%Z. change (Z.of_nat 2) with 2%Z.
  change (Z.of_nat 3) with 3%Z. change (Z.of_nat 4) with 4%Z.
  change (Z.of_nat 5) with 5%Z. change (Z.of_nat 6) with 6%Z.
  change (Z.of_nat 7) with 7%Z. change (Z.of_nat 8) with 8%Z.
  change (Z.of_nat 9) with 9%Z.
  lra.
Qed.

End PatternFacts.

Section TilingFacts.
Import Generator.

Lemma range_NoDup (start stop step : Z) :
  (1 <= step)%Z → NoDup (range start stop step).
Proof.
  intros Hs. unfold range. apply NoDup_fmap_2_strong; [|apply NoDup_seq].
  intros x y _ _ Heq. nia.
Qed.

(** X13. The blocks tile the matrix: the loop variable takes every start
    once, and every row index below [size] lies in the row range
    [i .. min(i + 1000, size) - 1] of exactly one start [i]; so every cell
    is written by exactly one block. *)
Theorem blocks_tile (size : Z) :
  let starts := range 0 size block_size in
  NoDup starts ∧
  ∀ r : Z, (0 <= r < size)%Z →
    ∃ i, i ∈ starts ∧ (i <= r < Z.min (i + block_size) size)%Z ∧
         ∀ i', i' ∈ starts → (i' <= r < Z.min (i' + block_size) size)%Z → i' = i.
Proof.
  intros starts. subst starts. split; [apply range_NoDup; unfold block_size; lia|].
  intros r Hr. exists (r / block_size * block_size)%Z.
  pose proof (Z.div_mod r 1000 ltac:(lia)) as Hd.
  pose proof (Z.mod_pos_bound r 1000 ltac:(lia)) as Hm.
  rewrite block_start_range. unfold block_start, block_size.
  split; [exists (r / 1000)%Z; lia|]. split; [lia|].
  intros i' Hi' Hcov. apply block_start_range in Hi' as (a & -> & _).
  unfold block_size in *.
  assert (a = r / 1000)%Z; [|lia].
  apply (Z.div_unique r 1000 a (r - 1000 * a)); lia.
Qed.

(** X14. The number of arrays the generator allocates from size 10 on:
    with [b = ceil(size / 1000)] blocks per axis, [np.zeros] is called
    [b * b + b] times, once per pair of starts whether or not the block
    is in the band and once per strip of the mass matrix; every block
    but the last is released before the function ends.  Below size 10
    there is no call: the function stops at the first [create_dataset]. *)
Theorem allocation_counts (size : Z) :
  let b := Z.to_nat ((size + 999) / 1000) in
  ((10 <= size)%Z →
     ∃ g, create_test_hdf5 size = Ok g ∧
          length (allocations (trace g)) = (b * b + b)%nat ∧
          (length (releases (trace g)) + 1)%nat = (b * b + b)%nat) ∧
  ((size < 10)%Z → create_test_hdf5 size = Raise ValueError).
Proof.
  intros b. split; [|apply create_test_hdf5_small].
  intros Hsize.
  destruct (generated_trace size Hsize) as (g & Hg & _ & _ & Htrace).
  exists g. split; [exact Hg|]. rewrite Htrace.
  assert (Hlen : length (stiffness_shapes size ++ mass_shapes size)
                 = (b * b + b)%nat).
  { by rewrite length_app, stiffness_shapes_length, mass_shapes_length. }
  split; [by rewrite allocations_alloc_events|].
  rewrite releases_alloc_events; [lia|].
  intros E. rewrite E in Hlen. simpl in Hlen.
  assert (1 <= (size + 999) / 1000)%Z by (apply Z.div_le_lower_bound; lia).
  lia.
Qed.


End TilingFacts.

(** ** The bandwidth estimate *)

Section BandwidthFacts.
Import Generator Analysis.
Implicit Types (row : list R) (matrix : list (list R)).

Lemma filter_seq_single (P : nat → Prop) `{∀ j, Decision (P j)} (s w p : nat) :
  (∀ j, (s <= j < s + w)%nat → P j ↔ j = p) →
  filter P (seq s w) = if decide (s <= p < s + w)%nat then [p] else [].
Proof.
  revert s. induction w as [|w IH]; intros s HP.
  - simpl. by rewrite decide_False by lia.
  - cbn [seq]. rewrite filter_cons. rewrite IH by (intros j Hj; apply HP; lia).
    destruct (decide (P s)) as [Hs|Hs].
    + apply HP in Hs as <-; [|lia].
      rewrite decide_False by lia. by rewrite decide_True by lia.
    + assert (s ≠ p) by (intros ->; apply Hs, HP; [lia|done]).
      destruct (decide (S s <= p < S s + w)%nat).
      * by rewrite decide_True by lia.
      * by rewrite decide_False by lia.
Qed.

Lemma above_true (a b : R) : above a b = true ↔ (a > b)%R.
Proof. unfold above. destruct (Rgt_dec a b); split; (done || lra). Qed.

(** A row whose only non-zero entry is at column [p]. *)
Lemma nonzeros_single row (p : nat) (x : R) :
  row !! p = Some x → x ≠ 0%R →
  (∀ j y, row !! j = Some y → j ≠ p → y = 0%R) →
  nonzeros row = Ok [p].
Proof.
  intros Hp Hx Hzero. unfold nonzeros.
  assert (Hne : Np.abs row ≠ []).
  { intros E. apply (f_equal length) in E. unfold Np.abs in E.
    rewrite length_fmap in E. apply lookup_lt_Some in Hp. simpl in E. lia. }
  destruct (Np.abs row) as [|a0 rest] eqn:Eabs; [done|].
  cbn [Np.max mbind result_bind mret result_ret].
  destruct (foldl_Rmax_spec a0 rest) as [Hin Hle]. rewrite <- Eabs in Hin, Hle.
  set (top := foldl Rmax a0 rest) in *.
  assert (Hxin : Rabs x ∈ Np.abs row).
  { unfold Np.abs. apply list_elem_of_fmap_2. by eapply list_elem_of_lookup_2. }
  pose proof (Hle _ Hxin) as Hxle.
  pose proof (Rabs_pos_lt x Hx) as Hxpos.
  assert (Htop : top = Rabs x).
  { unfold Np.abs in Hin. apply list_elem_of_fmap in Hin as (y & Hy & Hyin).
    apply list_elem_of_lookup in Hyin as [j Hj].
    destruct (decide (j = p)) as [->|Hjp]; [congruence|].
    rewrite (Hzero j y Hj Hjp), Rabs_R0 in Hy. lra. }
  f_equal.
  rewrite (filter_seq_single _ 0 (length row) p).
  - rewrite decide_True; [done|]. apply lookup_lt_Some in Hp. lia.
  - intros j Hj. rewrite above_true.
    destruct (lookup_lt_is_Some_2 row j ltac:(lia)) as [y Hy]. rewrite Hy. simpl.
    split.
    + intros Hgt. destruct (decide (j = p)) as [|Hjp]; [done|].
      rewrite (Hzero j y Hy Hjp), Rabs_R0 in Hgt. nra.
    + intros ->. rewrite Hp in Hy. injection Hy as <-. rewrite Htop. nra.
Qed.

Lemma foldl_bandwidth_single matrix (rows : list Z) (acc : Z) :
  (∀ i, i ∈ rows → ∃ row p x,
     matrix !! Z.to_nat i = Some row ∧ row !! p = Some x ∧ x ≠ 0%R ∧
     ∀ j y, row !! j = Some y → j ≠ p → y = 0%R) →
  foldl (λ acc i, max_band ← acc; bandwidth_step matrix max_band i) (Ok acc) rows
    = Ok (if decide (rows = []) then acc else Z.max acc 1).
Proof.
  revert acc. induction rows as [|i rows IH]; intros acc Hrows; [done|].
  cbn [foldl mbind result_bind].
  destruct (Hrows i ltac:(set_solver)) as (row & p & x & Hrow & Hp & Hx & Hzero).
  unfold bandwidth_step at 2. rewrite Hrow.
  rewrite (nonzeros_single row p x Hp Hx Hzero).
  cbn [mbind result_bind mret result_ret]. unfold band_of. cbn [foldl].
  replace (Z.of_nat p - Z.of_nat p + 1)%Z with 1%Z by lia.
  rewrite IH by (intros i' Hi'; apply Hrows; set_solver).
  rewrite (decide_False (P := i :: rows = [])) by done.
  destruct (decide (rows = [])); [done|]. f_equal. lia.
Qed.

(** A matrix whose first [min(100, n)] rows have one non-zero entry each
    is estimated at bandwidth one. *)
Lemma estimate_single matrix :
  matrix ≠ [] →
  (∀ i : nat, (i < 100)%nat → (i < length matrix)%nat → ∃ row p x,
     matrix !! i = Some row ∧ row !! p = Some x ∧ x ≠ 0%R ∧
     ∀ j y, row !! j = Some y → j ≠ p → y = 0%R) →
  estimate_bandwidth matrix = Ok 1%Z.
Proof.
  intros Hne Hrows. unfold estimate_bandwidth.
  assert (Hn : (1 <= length matrix)%nat) by (destruct matrix; [done | simpl; lia]).
  rewrite foldl_bandwidth_single.
  - cbn [mbind result_bind mret result_ret].
    rewrite decide_False.
    + f_equal. lia.
    + intros E. apply (f_equal length) in E.
      unfold range in E. rewrite length_fmap, length_seq in E.
      unfold range_length in E. rewrite Z.div_1_r in E. simpl in E. lia.
  - intros i Hi. apply elem_of_range_1 in Hi. apply Hrows; lia.
Qed.

Lemma row_of_cells (n : nat) matrix (i : nat) (cell : nat → R) :
  Np.dims n n matrix → (i < n)%nat →
  (∀ c, (c < n)%nat → get2 matrix i c = Some (cell c)) →
  ∃ row, matrix !! i = Some row ∧ length row = n ∧
         ∀ j y, row !! j = Some y → y = cell j.
Proof.
  intros Hd Hi Hcells.
  destruct (dims_lookup n n matrix i Hd Hi) as (row & Hrow & Hw).
  exists row. split; [done|]. split; [done|].
  intros j y Hy. pose proof (lookup_lt_Some _ _ _ Hy) as Hj.
  specialize (Hcells j ltac:(lia)). unfold get2 in Hcells.
  rewrite Hrow in Hcells. simpl in Hcells. congruence.
Qed.

(** X16. The bandwidth estimate of both matrices generated from size 10
    on is one: the estimate looks at the first hundred rows only, and
    these lie inside the first diagonal block, where the stiffness matrix
    has nothing off the diagonal. *)
Theorem generated_bandwidth_estimate (size : Z) :
  (10 <= size)%Z →
  ∃ g, create_test_hdf5 size = Ok g ∧
       estimate_bandwidth (stiffness g) = Ok 1%Z ∧
       estimate_bandwidth (mass g) = Ok 1%Z.
Proof.
  intros Hsize.
  destruct (generated_matrices size Hsize) as (g & Hg & HKd & HKc & HMd & HMc).
  exists g. split; [exact Hg|].
  set (K := stiffness g) in *. set (M := mass g) in *.
  assert (HKlen : length K = Z.to_nat size) by apply HKd.
  assert (HMlen : length M = Z.to_nat size) by apply HMd.
  split; apply estimate_single.
  - intros E. rewrite E in HKlen. simpl in HKlen. lia.
  - intros i H100 Hi. rewrite HKlen in Hi.
    destruct (row_of_cells _ K i (λ c, stiffness_entry (Z.of_nat i) (Z.of_nat c))
                HKd Hi ltac:(intros; by apply HKc)) as (row & Hrow & Hw & Hcell).
    destruct (lookup_lt_is_Some_2 row i ltac:(lia)) as [x Hx].
    exists row, i, x. split; [done|]. split; [done|].
    pose proof (Hcell i x Hx) as Hxv. rewrite stiffness_entry_diag in Hxv.
    pose proof (diag_value_pos (Z.of_nat i)).
    split; [lra|].
    intros j y Hy Hji. rewrite (Hcell j y Hy).
    pose proof (lookup_lt_Some _ _ _ Hy).
    destruct (stiffness_entry_cases (Z.of_nat i) (Z.of_nat j) ltac:(lia) ltac:(lia))
      as [[Heq _]|[(_ & Hblk & Hband & _)|(_ & _ & ->)]]; [lia| |done].
    exfalso. rewrite (Z.div_small (Z.of_nat i)) in Hblk by lia.
    destruct (decide (Z.of_nat j < 1000)%Z) as [Hsmall|Hbig].
    + rewrite Z.div_small in Hblk by lia. done.
    + lia.
  - intros E. rewrite E in HMlen. simpl in HMlen. lia.
  - intros i H100 Hi. rewrite HMlen in Hi.
    destruct (row_of_cells _ M i (λ c, if decide (i = c) then mass_value else 0%R)
                HMd Hi ltac:(intros; by apply HMc)) as (row & Hrow & Hw & Hcell).
    destruct (lookup_lt_is_Some_2 row i ltac:(lia)) as [x Hx].
    exists row, i, x. split; [done|]. split; [done|].
    pose proof (Hcell i x Hx) as Hxv. cbn beta in Hxv.
    rewrite decide_True in Hxv by done. unfold mass_value in Hxv.
    split; [lra|].
    intros j y Hy Hji. rewrite (Hcell j y Hy). cbn beta.
    by rewrite decide_False by done.
Qed.

Lemma foldl_agree {A B : Type} (g1 g2 : A → B → A) (l : list B) (a : A) :
  (∀ x b, b ∈ l → g1 x b = g2 x b) → foldl g1 a l = foldl g2 a l.
Proof.
  revert a. induction l as [|b l IH]; intros a Hg; [done|].
  simpl. rewrite Hg by set_solver. apply IH. intros x b' Hb'. apply Hg. set_solver.
Qed.

(** X17. The estimate never looks beyond the first hundred rows: two
    matrices with the same number of rows and the same first hundred rows
    get the same estimate, whatever the other rows hold. *)
Theorem estimate_reads_first_rows (m1 m2 : list (list R)) :
  length m1 = length m2 → take 100 m1 = take 100 m2 →
  estimate_bandwidth m1 = estimate_bandwidth m2.
Proof.
  intros Hlen Htake. unfold estimate_bandwidth. rewrite <- Hlen.
  f_equal. apply foldl_agree.
  intros acc i Hi. apply elem_of_range_1 in Hi.
  destruct acc as [max_band|e]; [|done].
  cbn [mbind result_bind]. unfold bandwidth_step.
  assert (m1 !! Z.to_nat i = m2 !! Z.to_nat i) as ->; [|done].
  rewrite <- (lookup_take_lt m1 100) by lia.
  rewrite <- (lookup_take_lt m2 100) by lia.
  by rewrite Htake.
Qed.

End BandwidthFacts.

(** ** The report on the generated matrices *)

Section GeneratedReport.
Import Generator Report.

Lemma foldl_Rmin_spec (x : R) (l : list R) :
  foldl Rmin x l ∈ x :: l ∧ ∀ y, y ∈ x :: l → (foldl Rmin x l <= y)%R.
Proof.
  revert x. induction l as [|z l IH]; intros x.
  - simpl. split; [set_solver|]. intros y Hy.
    apply list_elem_of_singleton in Hy as ->. lra.
  - simpl. destruct (IH (Rmin x z)) as [Hin Hle]. split.
    + apply elem_of_cons in Hin as [Heq|Hin]; [|set_solver].
      rewrite Heq. unfold Rmin. destruct (Rle_dec x z); set_solver.
    + intros y Hy.
      pose proof (Hle (Rmin x z) ltac:(set_solver)) as Hbot.
      pose proof (Rmin_l x z). pose proof (Rmin_r x z).
      apply elem_of_cons in Hy as [->|Hy]; [lra|].
      apply elem_of_cons in Hy as [->|Hy]; [lra|].
      apply Hle. set_solver.
Qed.

Lemma min_max_between (l : list R) (lo hi : R) :
  l ≠ [] → Forall (λ x, lo <= x <= hi)%R l →
  ∃ a b, Np.min l = Ok a ∧ Np.max l = Ok b ∧ (lo <= a)%R ∧ (a <= b)%R ∧ (b <= hi)%R.
Proof.
  intros Hne Hall. destruct l as [|x l]; [done|].
  destruct (foldl_Rmin_spec x l) as [Hmin_in Hmin_le].
  destruct (foldl_Rmax_spec x l) as [Hmax_in Hmax_le].
  rewrite Forall_forall in Hall.
  exists (foldl Rmin x l), (foldl Rmax x l).
  split; [done|]. split; [done|].
  pose proof (Hall _ Hmin_in). pose proof (Hall _ Hmax_in).
  pose proof (Hmin_le x ltac:(set_solver)). pose proof (Hmax_le x ltac:(set_solver)).
  repeat split; lra.
Qed.

Lemma shape_square (n : nat) (a : list (list R)) :
  Np.dims n n a → Np.shape a = (n, n).
Proof.
  intros [Hlen Hrows]. unfold Np.shape. destruct a as [|row a].
  - simpl in *. by subst n.
  - simpl. apply Forall_cons in Hrows as [Hrow _]. simpl in Hlen. by rewrite Hrow, Hlen.
Qed.

Lemma sum_replicate (n : nat) (x : R) : Np.sum (replicate n x) = (INR n * x)%R.
Proof.
  induction n as [|n IH]; [simpl; lra|].
  rewrite S_INR. cbn [replicate Np.sum foldr]. fold (Np.sum (replicate n x)).
  rewrite IH. lra.
Qed.

(** X18. On the stiffness matrix generated from size 10 on, the report's
    stiffness block is printed in full: its diagonal range lies within
    6.3e10 .. 7.7e10 and the ratio it prints as condition number lies
    between 1 and 11/9. *)
Theorem report_generated_stiffness (size : Z) :
  (10 <= size)%Z →
  let n := Z.to_nat size in
  ∃ g lo hi sparsity,
    create_test_hdf5 size = Ok g ∧
    stiffness_section (Generator.stiffness g)
      = Ok [StiffnessHeader; Dimensions (n, n); DiagonalRange lo hi;
            ConditionNumber (hi / lo); Sparsity sparsity] ∧
    (6.3e10 <= lo)%R ∧ (lo <= hi)%R ∧ (hi <= 7.7e10)%R ∧
    (1 <= hi / lo <= 11 / 9)%R.
Proof.
  intros Hsize n.
  destruct (generated_matrices size Hsize) as (g & Hg & HKd & HKc & _ & _).
  exists g.
  set (K := Generator.stiffness g) in *.
  fold n in HKd, HKc.
  assert (Hdiag : Forall (λ x, 6.3e10 <= x <= 7.7e10)%R (Np.diag K)).
  { apply Forall_lookup. intros r x Hr.
    pose proof (lookup_lt_Some _ _ _ Hr) as Hlt.
    rewrite (diag_length n) in Hlt by done.
    rewrite (diag_lookup n) in Hr by done.
    rewrite HKc in Hr by done. injection Hr as <-.
    rewrite stiffness_entry_diag. apply diag_value_bounds. }
  assert (Hne : Np.diag K ≠ []).
  { intros E. apply (f_equal length) in E.
    rewrite (diag_length n) in E by done. simpl in E. lia. }
  destruct (min_max_between _ _ _ Hne Hdiag) as (lo & hi & Hlo & Hhi & B1 & B2 & B3).
  exists lo, hi. eexists. split; [exact Hg|].
  unfold stiffness_section. rewrite Hlo, Hhi.
  cbn [mbind result_bind mret result_ret].
  unfold Np.size. rewrite (shape_square n) by done. cbn [fst snd].
  rewrite decide_False by nia.
  cbn [mbind result_bind mret result_ret].
  split; [reflexivity|].
  split; [done|]. split; [done|]. split; [done|].
  assert (Hinv : (0 < / lo)%R) by (apply Rinv_0_lt_compat; lra).
  assert (Hone : (lo * / lo = 1)%R) by (apply Rinv_r; lra).
  unfold Rdiv. split.
  - pose proof (Rmult_le_compat_r (/ lo) lo hi ltac:(lra) B2). lra.
  - pose proof (Rmult_le_compat_r (/ lo) (9 * hi) (11 * lo) ltac:(lra) ltac:(lra)). lra.
Qed.

(** X19. On the mass matrix generated from size 10 on, the report shows
    a total mass of 0.054 kg times the number of degrees of freedom, and
    0.054 kg per degree of freedom. *)
Theorem report_generated_mass (size : Z) :
  (10 <= size)%Z →
  let n := Z.to_nat size in
  ∃ g, create_test_hdf5 size = Ok g ∧
       mass_section (Generator.mass g)
         = [MassHeader; Dimensions (n, n); TotalMass (INR n * 0.054);
            MassPerDof 0.054].
Proof.
  intros Hsize n.
  destruct (generated_matrices size Hsize) as (g & Hg & _ & _ & HMd & HMc).
  exists g. split; [exact Hg|].
  set (M := Generator.mass g) in *.
  fold n in HMd, HMc.
  assert (Hdiag : Np.diag M = replicate n mass_value).
  { apply list_eq_same_length with n.
    - by rewrite length_replicate.
    - by apply diag_length.
    - intros r x y Hr Hx Hy.
      rewrite (diag_lookup n) in Hx by done.
      rewrite HMc in Hx by done. rewrite decide_True in Hx by done.
      apply lookup_replicate in Hy as [-> _]. congruence. }
  unfold mass_section, Np.mean. rewrite (shape_square n) by done.
  rewrite Hdiag, sum_replicate, length_replicate. unfold mass_value.
  assert (INR n ≠ 0)%R by (apply not_0_INR; lia).
  do 3 f_equal. f_equal. f_equal. by field.
Qed.

End GeneratedReport.

(** ** Frequencies, short force vectors, quick mode *)

Section MoreAnalysis.
Import Modal Response Loader Analysis.

(** X20. An eigenvalue with a non-negative real part [lambda] is shown as
    the frequency [f >= 0] with [(2 pi f)^2 = lambda], and the frequencies
    of two such eigenvalues are ordered as their real parts are. *)
Theorem natural_frequencies_order (eigenvals : list Np.complex)
    (i j : nat) (zi zj : Np.complex) :
  eigenvals !! i = Some zi → eigenvals !! j = Some zj →
  (0 <= Np.real zi)%R → (Np.real zi <= Np.real zj)%R →
  ∃ fi fj,
    natural_frequencies eigenvals !! i = Some (Some fi) ∧
    natural_frequencies eigenvals !! j = Some (Some fj) ∧
    (0 <= fi)%R ∧ (fi <= fj)%R ∧
    ((2 * PI * fi) ^ 2 = Np.real zi)%R ∧ ((2 * PI * fj) ^ 2 = Np.real zj)%R.
Proof.
  intros Hi Hj H0 Hle.
  pose proof (natural_frequencies_lookup _ _ _ Hi) as Hfi.
  pose proof (natural_frequencies_lookup _ _ _ Hj) as Hfj.
  rewrite (proj2 (is_negative_false _) H0) in Hfi.
  rewrite (proj2 (is_negative_false (Np.real zj))) in Hfj by lra.
  eexists _, _. split; [exact Hfi|]. split; [exact Hfj|].
  pose proof PI_RGT_0 as Hpi.
  pose proof (sqrt_pos (Np.real zi)) as Hsi.
  pose proof (sqrt_le_1_alt _ _ Hle) as Hsle.
  assert (Hinv : (/ (2 * PI) > 0)%R) by (apply Rinv_0_lt_compat; lra).
  split; [unfold Rdiv; nra|].
  split; [unfold Rdiv; nra|].
  split.
  - replace (2 * PI * (sqrt (Np.real zi) / (2 * PI)))%R with (sqrt (Np.real zi))
      by (field; lra).
    rewrite <- Rsqr_pow2. apply Rsqr_sqrt. lra.
  - replace (2 * PI * (sqrt (Np.real zj) / (2 * PI)))%R with (sqrt (Np.real zj))
      by (field; lra).
    rewrite <- Rsqr_pow2. apply Rsqr_sqrt. lra.
Qed.

(** X21. With fewer than six force entries there is no node: every
    curve is empty and drawn without complaint, and the function stops at
    the maximum of the empty magnitude array with a [ValueError]. *)
Theorem response_short_force (force displacement : list R) :
  (length force < 6)%nat →
  plot_response_analysis force displacement = Raise ValueError.
Proof.
  intros Hlen. unfold plot_response_analysis.
  assert (Hn : node_count force = 0%nat).
  { unfold node_count. apply Nat.div_small. lia. }
  assert (Hdx : disp_x force displacement = []).
  { unfold disp_x, component. by rewrite Hn. }
  assert (Hdy : disp_y force displacement = []).
  { unfold disp_y, component, zeros_like. rewrite Hdx, Hn.
    by destruct (decide (1 < length displacement)%nat). }
  assert (Hdz : disp_z force displacement = []).
  { unfold disp_z, component, zeros_like. rewrite Hdx, Hn.
    by destruct (decide (2 < length displacement)%nat). }
  assert (Hfx : force_x force = []).
  { unfold force_x, component. by rewrite Hn. }
  assert (Hfy : force_y force = []).
  { unfold force_y, component, zeros_like. rewrite Hfx, Hn.
    by destruct (decide (1 < length force)%nat). }
  rewrite Hdx, Hdy, Hdz, Hfx, Hfy, Hn.
  destruct (decide (1 < length displacement)%nat);
    destruct (decide (2 < length displacement)%nat);
    destruct (decide (1 < length force)%nat); reflexivity.
Qed.

(** X22. In quick mode, whatever [--max-size >= 1] is asked for, a file
    that follows the layout is loaded with fewer than 2000 degrees of
    freedom, and never more than it holds. *)
Theorem quick_mode_dimension {T : Type}
    (disk : gmap string (gmap string (h5obj T)))
    (filename : string) (requested : Z) f (n : nat) :
  disk !! filename = Some f → follows_layout n f → (1 <= requested)%Z →
  ∃ data K M F U (d : nat),
    load_hdf5_data disk filename (effective_max_size true requested)
      = Ok (Some data) ∧
    data !! "stiffness"%string = Some (Arr2 K) ∧
    data !! "mass"%string = Some (Arr2 M) ∧
    data !! "force"%string = Some (Arr1 F) ∧
    data !! "displacement"%string = Some (Arr1 U) ∧
    Np.square d K ∧ Np.square d M ∧ length F = d ∧ length U = d ∧
    (d < 2000)%nat ∧ (d <= n)%nat.
Proof.
  intros Hdisk Hlay H1. unfold effective_max_size.
  set (eff := Z.min 1000 requested).
  assert (Heff : (1 <= eff <= 1000)%Z) by (subst eff; lia).
  destruct (load_all_layout f eff n Hlay ltac:(lia))
    as (data & K & M & F & U & s & Hall & Hs & Es & HK & HM & HF & HU & Hsq).
  exists data, K, M, F, U, (range_length 0 (Z.of_nat n) s).
  split; [unfold load_hdf5_data; by rewrite Hdisk, Hall|].
  split; [done|]. split; [done|]. split; [done|]. split; [done|].
  destruct Hsq as (? & ? & ? & ?). repeat (split; [done|]).
  assert (Hd : ∀ k : nat, (k < range_length 0 (Z.of_nat n) s)%nat ↔
                 (Z.of_nat k * s < Z.of_nat n)%Z).
  { intros k. rewrite (range_length_spec 0 (Z.of_nat n) s k Hs). lia. }
  split.
  - destruct (Z.lt_ge_cases eff (Z.of_nat n)) as [Hbig|Hsmall].
    + rewrite (proj2 (Z.ltb_lt _ _) Hbig) in Es.
      pose proof (ceil_div_bound (Z.of_nat n) eff ltac:(lia) Hbig) as Hb.
      unfold ceil_div in Hb. rewrite <- Es in Hb.
      unfold range_length. rewrite Z.sub_0_r.
      assert (0 <= (Z.of_nat n + s - 1) / s)%Z by (apply Z.div_pos; lia).
      lia.
    + rewrite (proj2 (Z.ltb_ge _ _) Hsmall) in Es. subst s.
      unfold range_length. rewrite Z.div_1_r. lia.
  - destruct (decide (range_length 0 (Z.of_nat n) s <= n)%nat) as [|Hgt]; [done|].
    exfalso. assert (Hn : (n < range_length 0 (Z.of_nat n) s)%nat) by lia.
    apply Hd in Hn. nia.
Qed.

End MoreAnalysis.

(** ** Concrete runs of the further properties *)

Section FurtherRuns.
Import Loader Analysis.

Lemma sample_model_layout : follows_layout 2 sample_model.
Proof.
  unfold follows_layout.
  split; [exists [[2; 0]; [0; 2]]%R; split; [reflexivity|split; [reflexivity|repeat constructor]]|].
  split; [exists [[1; 0]; [0; 1]]%R; split; [reflexivity|split; [reflexivity|repeat constructor]]|].
  split; [exists [1; -1]%R; split; reflexivity|].
  exists [0.02; -0.005]%R; split; reflexivity.
Qed.

Lemma subsample_at_least_max_size_witness :
  ∃ sub, load_dataset_with_subsampling sample_file "/vectors/force" 3 true
           = Ok (Some (Arr1 sub)) ∧
         (3 <= Z.of_nat (length sub))%Z.
Proof.
  destruct (subsample_at_least_max_size sample_file "/vectors/force" 3
              [10; 11; 12; 13; 14; 15; 16]%Z
              ltac:(reflexivity) ltac:(lia) ltac:(simpl; lia))
    as (sub & Hload & Hlen & _).
  exists sub. split; [exact Hload | exact Hlen].
Defined.

Lemma subsample_matrix_shape_witness :
  ∃ sub, load_dataset_with_subsampling sample_file "/matrices/mass" 2 false
           = Ok (Some (Arr2 sub)) ∧
         ∃ d : nat, Np.square d sub ∧ (2 <= Z.of_nat d < 2 * 2)%Z.
Proof.
  assert (Hd : Np.dims 3 3 [[1; 0; 0]; [0; 1; 0]; [0; 0; 1]]%Z)
    by (split; [reflexivity | repeat constructor]).
  destruct (subsample_matrix_shape sample_file "/matrices/mass" 2
              [[1; 0; 0]; [0; 1; 0]; [0; 0; 1]]%Z 3 3
              ltac:(reflexivity) Hd ltac:(lia) ltac:(lia))
    as (sub & Hload & _ & Hsq).
  exists sub. split; [exact Hload | exact (Hsq eq_refl)].
Defined.

Lemma strided_strided_witness :
  strided 3 (strided 2 [0; 1; 2; 3; 4; 5; 6; 7; 8; 9; 10; 11; 12]%Z)
    = strided (2 * 3) [0; 1; 2; 3; 4; 5; 6; 7; 8; 9; 10; 11; 12]%Z.
Proof.
  apply (proj1 (strided_strided 2 3 ltac:(lia) ltac:(lia))).
Defined.

Lemma matrix_plot_size_witness :
  matrix_plot [[1; 0; 0]; [0; 1; 0]; [0; 0; 1]]%Z
    = [[1; 0; 0]; [0; 1; 0]; [0; 0; 1]]%Z.
Proof.
  apply (proj1 (matrix_plot_size [[1; 0; 0]; [0; 1; 0]; [0; 0; 1]]%Z)).
  simpl. lia.
Defined.

Lemma load_hdf5_data_keys_witness :
  load_hdf5_data sample_disk "absent.h5" 5 = Ok None.
Proof.
  apply (proj1 (load_hdf5_data_keys sample_disk "absent.h5" 5)).
  reflexivity.
Defined.

Lemma load_hdf5_data_zero_max_size_witness :
  load_hdf5_data sample_disk "model.h5" 0 = Raise ZeroDivisionError.
Proof.
  apply (load_hdf5_data_zero_max_size sample_disk "model.h5" "/vectors/force"
           sample_model (DS1 [1; -1]%R)).
  - reflexivity.
  - set_solver.
  - reflexivity.
  - simpl. lia.
Defined.

Lemma load_hdf5_data_conformant_witness :
  ∃ data K M F U,
    load_hdf5_data sample_disk "model.h5" 5 = Ok (Some data) ∧
    data !! "stiffness"%string = Some (Arr2 K) ∧
    data !! "mass"%string = Some (Arr2 M) ∧
    data !! "force"%string = Some (Arr1 F) ∧
    data !! "displacement"%string = Some (Arr1 U) ∧
    Np.square 2 K ∧ Np.square 2 M ∧ length F = 2%nat ∧ length U = 2%nat.
Proof.
  destruct (load_hdf5_data_conformant sample_disk "model.h5" 5 sample_model 2
              ltac:(reflexivity) sample_model_layout ltac:(lia))
    as (data & K & M & F & U & d & Hload & HK & HM & HF & HU
        & HKs & HMs & HFl & HUl & Hsmall & _).
  pose proof (Hsmall ltac:(lia)) as Hd.
  exists data, K, M, F, U. rewrite <- Hd.
  split; [exact Hload|]. split; [exact HK|]. split; [exact HM|].
  split; [exact HF|]. split; [exact HU|]. split; [exact HKs|].
  split; [exact HMs|]. split; [exact HFl | exact HUl].
Defined.

Lemma load_then_report_witness :
  ∃ data rd lines K U,
    load_hdf5_data sample_disk "model.h5" 5 = Ok (Some data) ∧
    report_data data = Some rd ∧
    Report.stiffness rd = Some K ∧ Report.displacement rd = Some U ∧
    Report.generate_report rd = Ok lines ∧
    Report.StrainEnergy (0.5 * Spec.quadratic_form K U)%R ∈ lines.
Proof.
  destruct (load_then_report sample_disk "model.h5" 5 sample_model 2
              ltac:(reflexivity) sample_model_layout ltac:(lia) ltac:(lia))
    as (data & rd & lines & K & U & Hload & Hrd & HK & HU & _ & Hrep & Hin).
  exists data, rd, lines, K, U.
  split; [exact Hload|]. split; [exact Hrd|]. split; [exact HK|].
  split; [exact HU|]. split; [exact Hrep | exact Hin].
Defined.

Lemma quick_mode_dimension_witness :
  ∃ data K (d : nat),
    load_hdf5_data sample_disk "model.h5" (effective_max_size true 5000)
      = Ok (Some data) ∧
    data !! "stiffness"%string = Some (Arr2 K) ∧
    Np.square d K ∧ (d < 2000)%nat ∧ (d <= 2)%nat.
Proof.
  destruct (quick_mode_dimension sample_disk "model.h5" 5000 sample_model 2
              ltac:(reflexivity) sample_model_layout ltac:(lia))
    as (data & K & M & F & U & d & Hload & HK & _ & _ & _ & HKs & _ & _ & _
        & Hlt & Hle).
  exists data, K, d.
  split; [exact Hload|]. split; [exact HK|]. split; [exact HKs|].
  split; [exact Hlt | exact Hle].
Defined.

End FurtherRuns.

Section GeneratorRuns.
Import Generator Analysis.

Lemma mass_matrix_diagonal_witness :
  ∃ g v, create_test_hdf5 1500 = Ok g ∧
         get2 (mass g) 999 1000 = Some v ∧ v = 0%R.
Proof.
  destruct (mass_matrix_diagonal 1500 999 1000 ltac:(lia)
              ltac:(vm_compute; lia) ltac:(vm_compute; lia))
    as (g & v & Hg & Hv & _ & Hoff & _).
  exists g, v. split; [exact Hg|]. split; [exact Hv | apply Hoff; lia].
Defined.

Lemma stiffness_pattern_witness :
  ∃ g v, create_test_hdf5 1500 = Ok g ∧
         get2 (stiffness g) 999 1000 = Some v ∧ v ≠ 0%R.
Proof.
  destruct (stiffness_pattern 1500 999 1000 ltac:(lia)
              ltac:(vm_compute; lia) ltac:(vm_compute; lia))
    as (g & v & Hg & Hv & Hiff).
  exists g, v. split; [exact Hg|]. split; [exact Hv|]. apply Hiff. right.
  split; [lia|]. vm_compute. discriminate.
Defined.

Lemma stiffness_entry_sizes_witness :
  ∃ g v, create_test_hdf5 1500 = Ok g ∧
         get2 (stiffness g) 999 1000 = Some v ∧ (-2.1e10 <= v <= 0)%R.
Proof.
  destruct (stiffness_entry_sizes 1500 999 1000 ltac:(lia)
              ltac:(vm_compute; lia) ltac:(vm_compute; lia))
    as (g & v & Hg & Hv & _ & Hoff).
  exists g, v. split; [exact Hg|]. split; [exact Hv | apply Hoff; lia].
Defined.

Lemma boundary_row_not_dominant_witness :
  ∃ g d (right : list R),
    create_test_hdf5 1500 = Ok g ∧
    get2 (stiffness g) 999 999 = Some d ∧
    ((λ k, get2 (stiffness g) 999 (999 + k)%nat) <$> seq 1 9)
      = Some <$> right ∧
    (Rabs d < Np.sum (Np.abs right))%R.
Proof.
  apply (boundary_row_not_dominant 1500 999); [reflexivity | lia].
Defined.

Lemma blocks_tile_witness :
  ∃ i, i ∈ range 0 2500 block_size ∧ (i <= 1500 < Z.min (i + block_size) 2500)%Z.
Proof.
  destruct (proj2 (blocks_tile 2500) 1500%Z ltac:(lia)) as (i & Hin & Hr & _).
  exists i. split; [exact Hin | exact Hr].
Defined.

Lemma allocation_counts_witness :
  (∃ g, create_test_hdf5 1500 = Ok g ∧
        length (allocations (trace g)) = 6%nat) ∧
  create_test_hdf5 5 = Raise ValueError.
Proof.
  destruct (allocation_counts 1500) as [Hbig _].
  destruct (allocation_counts 5) as [_ Hsmall].
  split.
  - destruct (Hbig ltac:(lia)) as (g & Hg & Hn & _).
    exists g. split; [exact Hg | exact Hn].
  - apply Hsmall. lia.
Defined.


Lemma generated_bandwidth_estimate_witness :
  ∃ g, create_test_hdf5 1500 = Ok g ∧
       estimate_bandwidth (stiffness g) = Ok 1%Z ∧
       estimate_bandwidth (mass g) = Ok 1%Z.
Proof.
  apply (generated_bandwidth_estimate 1500). lia.
Defined.

Lemma estimate_reads_first_rows_witness :
  estimate_bandwidth rows_101_a = estimate_bandwidth rows_101_b.
Proof.
  apply (estimate_reads_first_rows rows_101_a rows_101_b); reflexivity.
Defined.

Lemma report_generated_stiffness_witness :
  ∃ g lo hi sparsity,
    create_test_hdf5 1500 = Ok g ∧
    Report.stiffness_section (stiffness g)
      = Ok [Report.StiffnessHeader; Report.Dimensions (1500, 1500)%nat;
            Report.DiagonalRange lo hi; Report.ConditionNumber (hi / lo);
            Report.Sparsity sparsity] ∧
    (1 <= hi / lo <= 11 / 9)%R.
Proof.
  destruct (report_generated_stiffness 1500 ltac:(lia))
    as (g & lo & hi & sp & Hg & Hrun & _ & _ & _ & Hcond).
  exists g, lo, hi, sp. split; [exact Hg|]. split; [exact Hrun | exact Hcond].
Defined.

Lemma report_generated_mass_witness :
  ∃ g, create_test_hdf5 1500 = Ok g ∧
       Report.mass_section (mass g)
         = [Report.MassHeader; Report.Dimensions (1500, 1500)%nat;
            Report.TotalMass (INR 1500 * 0.054); Report.MassPerDof 0.054].
Proof.
  apply (report_generated_mass 1500). lia.
Defined.

End GeneratorRuns.

Section AnalysisRuns.
Import Modal Response.

Lemma natural_frequencies_order_witness :
  ∃ fi fj,
    natural_frequencies [(4, 3); (9, 0)]%R !! 0%nat = Some (Some fi) ∧
    natural_frequencies [(4, 3); (9, 0)]%R !! 1%nat = Some (Some fj) ∧
    (0 <= fi)%R ∧ (fi <= fj)%R ∧
    ((2 * PI * fi) ^ 2 = 4)%R ∧ ((2 * PI * fj) ^ 2 = 9)%R.
Proof.
  apply (natural_frequencies_order [(4, 3); (9, 0)]%R 0 1 (4, 3)%R (9, 0)%R);
    [reflexivity | reflexivity | simpl; lra | simpl; lra].
Defined.

Lemma response_short_force_witness :
  plot_response_analysis [1; 2; 3; 4; 5]%R displacement_12 = Raise ValueError.
Proof.
  apply response_short_force. simpl. lia.
Defined.

End AnalysisRuns.
